(** * Foodpanda scraper: a shallow embedding of [app.py]

    The scraper drives a browser (Selenium), parses the rendered markup
    (BeautifulSoup), reads fields with CSS selectors and regular expressions,
    accumulates one dictionary per restaurant and saves the accumulated list
    to a JSON file and a flattened CSV file.

    The embedding follows the Python text: the browser is an interface of
    state transformers over an abstract world, a Python exception is an
    outcome of its own, [try ... except] is [try_except], and every loop
    that Python does not bound takes fuel. *)

From Stdlib Require Import String Ascii List Bool Arith ZArith Lia.
Import ListNotations.
Open Scope list_scope.
Open Scope string_scope.
Open Scope nat_scope.

(** ** Python strings *)

Module Str.

(** [str.isspace] on the ASCII range. *)
Definition isspace (c : ascii) : bool :=
  let n := nat_of_ascii c in
  ((9 <=? n) && (n <=? 13)) || ((28 <=? n) && (n <=? 32)).

Definition isdigit (c : ascii) : bool :=
  let n := nat_of_ascii c in (48 <=? n) && (n <=? 57).

Definition isalpha (c : ascii) : bool :=
  let n := nat_of_ascii c in
  ((65 <=? n) && (n <=? 90)) || ((97 <=? n) && (n <=? 122)).

Fixpoint lstrip (s : string) : string :=
  match s with
  | EmptyString => EmptyString
  | String c s' => if isspace c then lstrip s' else s
  end.

Fixpoint rstrip (s : string) : string :=
  match s with
  | EmptyString => EmptyString
  | String c s' =>
      match rstrip s' with
      | EmptyString => if isspace c then EmptyString else String c EmptyString
      | r => String c r
      end
  end.

(** [s.strip()] *)
Definition strip (s : string) : string := rstrip (lstrip s).

(** [sub in s] *)
Fixpoint contains (sub s : string) : bool :=
  if String.prefix sub s then true
  else match s with
       | EmptyString => false
       | String _ s' => contains sub s'
       end.

(** [s.split()]: the whitespace-separated words of [s]. *)
Fixpoint split_ws_aux (s : string) (cur : string) : list string :=
  let flush := match cur with EmptyString => [] | _ => [cur] end in
  match s with
  | EmptyString => flush
  | String c s' =>
      if isspace c then (flush ++ split_ws_aux s' EmptyString)%list
      else split_ws_aux s' (cur ++ String c EmptyString)
  end.

Definition split_ws (s : string) : list string := split_ws_aux s EmptyString.

(** [sep.join(l)] *)
Fixpoint join (sep : string) (l : list string) : string :=
  match l with
  | [] => EmptyString
  | [x] => x
  | x :: rest => x ++ sep ++ join sep rest
  end.

Fixpoint drop (n : nat) (s : string) : string :=
  match n, s with
  | S n', String _ s' => drop n' s'
  | _, _ => s
  end.

(** [s.replace(old, "")] for a non-empty [old]. *)
Fixpoint remove_all_aux (fuel : nat) (old s : string) : string :=
  match fuel with
  | 0 => s
  | S fuel' =>
      match s with
      | EmptyString => EmptyString
      | String c s' =>
          if String.prefix old s
          then remove_all_aux fuel' old (drop (String.length old) s)
          else String c (remove_all_aux fuel' old s')
      end
  end.

Definition remove_all (old s : string) : string :=
  remove_all_aux (String.length s) old s.

(** [x in l] for a list of strings. *)
Definition mem (x : string) (l : list string) : bool :=
  existsb (String.eqb x) l.

(** Truth value of a string: non-empty. *)
Definition truthy (s : string) : bool :=
  match s with EmptyString => false | _ => true end.

End Str.

(** ** Regular expressions

    The patterns of [app.py] as syntax trees, matched by backtracking with
    Python's priorities: leftmost start, greedy repetitions longest first,
    lazy ones shortest first. Every pattern of the program has at most one
    capturing group. *)

Module Re.

Inductive regex : Type :=
| Eps
| Class (p : ascii -> bool)
| Cat (r1 r2 : regex)
| Repeat (greedy : bool) (lo : nat) (hi : option nat) (r : regex)
| Group (r : regex)
| WordBoundary
| EndOfString.

(** A position in the subject: the characters before it (nearest first) and
    the characters from it on. *)
Record pos : Type := { before : list ascii; rest : list ascii }.

Definition advance (c : ascii) (p : pos) (tl : list ascii) : pos :=
  {| before := c :: before p; rest := tl |}.

(** The characters consumed between two positions of one subject. *)
Definition consumed (p p' : pos) : list ascii :=
  rev (firstn (length (before p') - length (before p)) (before p')).

Definition is_word (c : ascii) : bool :=
  Str.isalpha c || Str.isdigit c || Ascii.eqb c "_"%char.

Definition word_at (l : list ascii) : bool :=
  match l with
  | c :: _ => is_word c
  | [] => false
  end.

Definition newline : ascii := "010"%char.

Section Matcher.
Context {R : Type}.

Definition cont : Type := pos -> option (list ascii) -> option R.

Definition below (n : nat) (hi : option nat) : bool :=
  match hi with
  | None => true
  | Some h => n <? h
  end.

(** [r{lo,hi}] around a matcher [step] for [r]. The repeated parts of the
    patterns below consume a character at every iteration, so [fuel] above
    the length of the rest does not run out before the input does. *)
Fixpoint rep_loop (step : pos -> option (list ascii) -> cont -> option R)
    (greedy : bool) (lo : nat) (hi : option nat) (k : cont)
    (fuel n : nat) (p : pos) (cap : option (list ascii)) : option R :=
  let more (_ : unit) :=
    match fuel with
    | 0 => None
    | S fuel' =>
        if below n hi
        then step p cap (fun p' cap' =>
               rep_loop step greedy lo hi k fuel' (S n) p' cap')
        else None
    end in
  if n <? lo then more tt
  else if greedy
       then match more tt with Some x => Some x | None => k p cap end
       else match k p cap with Some x => Some x | None => more tt end.

Fixpoint m (r : regex) (p : pos) (cap : option (list ascii)) (k : cont)
    : option R :=
  match r with
  | Eps => k p cap
  | Class f =>
      match rest p with
      | c :: tl => if f c then k (advance c p tl) cap else None
      | [] => None
      end
  | Cat r1 r2 => m r1 p cap (fun p' cap' => m r2 p' cap' k)
  | Repeat greedy lo hi r1 =>
      rep_loop (m r1) greedy lo hi k (S (length (rest p))) 0 p cap
  | Group r1 => m r1 p cap (fun p' _ => k p' (Some (consumed p p')))
  | WordBoundary =>
      if xorb (word_at (before p)) (word_at (rest p)) then k p cap else None
  | EndOfString =>
      match rest p with
      | [] => k p cap
      | [c] => if Ascii.eqb c newline then k p cap else None
      | _ => None
      end
  end.

End Matcher.

(** A match object: [group(0)], [group(1)] and the position after it. *)
Record match_object : Type :=
  { group0 : string; group1 : option string; after : pos }.

Definition match_at (r : regex) (p : pos) : option match_object :=
  m r p None (fun p' cap =>
    Some {| group0 := string_of_list_ascii (consumed p p');
            group1 := option_map string_of_list_ascii cap;
            after := p' |}).

Fixpoint search_from (r : regex) (bef : list ascii) (l : list ascii)
    : option match_object :=
  match match_at r {| before := bef; rest := l |} with
  | Some mo => Some mo
  | None =>
      match l with
      | [] => None
      | c :: tl => search_from r (c :: bef) tl
      end
  end.

(** [re.search(r, s)] *)
Definition search (r : regex) (s : string) : option match_object :=
  search_from r [] (list_ascii_of_string s).

(** [re.sub(r, "", s)] for a pattern that matches no empty string. *)
Fixpoint sub_from (fuel : nat) (r : regex) (bef l : list ascii) : list ascii :=
  match fuel with
  | 0 => l
  | S fuel' =>
      match match_at r {| before := bef; rest := l |} with
      | Some mo =>
          if length (rest (after mo)) <? length l
          then sub_from fuel' r (before (after mo)) (rest (after mo))
          else match l with
               | [] => []
               | c :: tl => c :: sub_from fuel' r (c :: bef) tl
               end
      | None =>
          match l with
          | [] => []
          | c :: tl => c :: sub_from fuel' r (c :: bef) tl
          end
      end
  end.

Definition sub_empty (r : regex) (s : string) : string :=
  let l := list_ascii_of_string s in
  string_of_list_ascii (sub_from (S (length l)) r [] l).

(** Pattern syntax. *)
Definition chr (c : ascii) : regex := Class (Ascii.eqb c).

Fixpoint lit (s : string) : regex :=
  match s with
  | EmptyString => Eps
  | String c EmptyString => chr c
  | String c s' => Cat (chr c) (lit s')
  end.

Definition one_of (s : string) (c : ascii) : bool :=
  existsb (Ascii.eqb c) (list_ascii_of_string s).

Definition digit : regex := Class Str.isdigit.               (* \d *)
Definition space : regex := Class Str.isspace.               (* \s *)
Definition dot : regex := Class (fun c => negb (Ascii.eqb c newline)).
Definition star (r : regex) : regex := Repeat true 0 None r.
Definition plus (r : regex) : regex := Repeat true 1 None r.
Definition opt (r : regex) : regex := Repeat true 0 (Some 1) r.
Definition lazy_star (r : regex) : regex := Repeat false 0 None r.
Definition times (lo hi : nat) (r : regex) : regex := Repeat true lo (Some hi) r.
Definition at_least (lo : nat) (r : regex) : regex := Repeat true lo None r.

Fixpoint seq (l : list regex) : regex :=
  match l with
  | [] => Eps
  | [r] => r
  | r :: l' => Cat r (seq l')
  end.

End Re.

(** ** Exceptions

    A Python call returns, raises, or (in the model only) runs out of the
    fuel given to an unbounded loop. [except Exception] catches every
    exception and never the lack of fuel. *)

Inductive exn : Type :=
| TimeoutException
| IndexError
| AttributeError
| Exception (msg : string).

(** [str(e)]. Selenium ends the text of a [TimeoutException] with what it
    knows of the page; the text here is its beginning. *)
Definition str_exn (e : exn) : string :=
  match e with
  | TimeoutException => "Message: "
  | IndexError => "list index out of range"
  | AttributeError => "'NavigableString' object has no attribute 'select'"
  | Exception msg => msg
  end.

Definition is_timeout (e : exn) : bool :=
  match e with
  | TimeoutException => true
  | _ => false
  end.

Inductive outcome (A : Type) : Type :=
| Ok (a : A)
| Raise (e : exn)
| OutOfFuel.

Arguments Ok {A} a.
Arguments Raise {A} e.
Arguments OutOfFuel {A}.

Definition obind {A B : Type} (o : outcome A) (f : A -> outcome B) : outcome B :=
  match o with
  | Ok a => f a
  | Raise e => Raise e
  | OutOfFuel => OutOfFuel
  end.

(** [try: o  except Exception: h e] without side effects. *)
Definition otry {A : Type} (o : outcome A) (h : exn -> outcome A) : outcome A :=
  match o with
  | Raise e => h e
  | _ => o
  end.

(** ** The parse tree (BeautifulSoup) *)

Module Bs4.

#[warnings="-register-all"]
Inductive node : Type :=
| Tag (name : string) (attrs : list (string * string)) (children : list node)
| NavigableString (s : string).

(** Name and attributes of an enclosing tag. *)
Record tag_head : Type := { hd_name : string; hd_attrs : list (string * string) }.

(** A tag of the tree with the tags that enclose it, nearest first. *)
Record tag : Type :=
  { parents : list tag_head;
    name : string;
    attrs : list (string * string);
    children : list node }.

(** Any object of the tree: a tag or a string. *)
Inductive page_element : Type :=
| Element (t : tag)
| Text (s : string).

Definition head (t : tag) : tag_head :=
  {| hd_name := name t; hd_attrs := attrs t |}.

Definition enter (ps : list tag_head) (n : node) : page_element :=
  match n with
  | Tag nm at_ cs => Element {| parents := ps; name := nm; attrs := at_; children := cs |}
  | NavigableString s => Text s
  end.

(** [BeautifulSoup(markup, 'html.parser')]: the document object over the
    top-level nodes. *)
Definition BeautifulSoup (top : list node) : tag :=
  {| parents := []; name := "[document]"; attrs := []; children := top |}.

(** [t.contents] *)
Definition contents (t : tag) : list page_element :=
  map (enter (head t :: parents t)) (children t).

Fixpoint lookup (a : string) (l : list (string * string)) : option string :=
  match l with
  | [] => None
  | (k, v) :: l' => if String.eqb k a then Some v else lookup a l'
  end.

(** [t.get(a)] *)
Definition get (t : tag) (a : string) : option string := lookup a (attrs t).

(** [v = t.get(a); v and ...]: the attribute when present and non-empty. *)
Definition get_truthy (t : tag) (a : string) : option string :=
  match get t a with
  | Some v => if Str.truthy v then Some v else None
  | None => None
  end.

(** The tags below a node, in document order. *)
Fixpoint tags_of (ps : list tag_head) (n : node) : list tag :=
  match n with
  | Tag nm at_ cs =>
      {| parents := ps; name := nm; attrs := at_; children := cs |}
      :: flat_map (tags_of ({| hd_name := nm; hd_attrs := at_ |} :: ps)) cs
  | NavigableString _ => []
  end.

(** [t.descendants], tags only. *)
Definition descendants (t : tag) : list tag :=
  flat_map (tags_of (head t :: parents t)) (children t).

(** Tags whose strings are of a class of their own (script, style, ...),
    which [get_text] of an enclosing tag leaves out. *)
Definition string_container (nm : string) : bool :=
  Str.mem nm ["script"; "style"; "template"; "rt"; "rp"].

Fixpoint strings_of (n : node) : list string :=
  match n with
  | NavigableString s => [s]
  | Tag nm _ cs => if string_container nm then [] else flat_map strings_of cs
  end.

Definition all_strings (t : tag) : list string := flat_map strings_of (children t).

(** [t.get_text()] *)
Definition get_text (t : tag) : string := Str.join "" (all_strings t).

(** [t.get_text(strip=True)]: every string stripped, the empty ones dropped. *)
Definition get_text_strip (t : tag) : string :=
  Str.join "" (filter Str.truthy (map Str.strip (all_strings t))).

(** [t.string]: the only string below a chain of only children. *)
Fixpoint string_of_node (n : node) : option string :=
  match n with
  | NavigableString s => Some s
  | Tag _ _ [c] => string_of_node c
  | Tag _ _ _ => None
  end.

Definition string_ (t : tag) : option string :=
  match children t with
  | [c] => string_of_node c
  | _ => None
  end.

(** *** CSS selectors *)

Inductive attr_sel : Type :=
| HasClass (c : string)            (* .c *)
| AttrEq (a v : string)            (* [a='v'] *)
| AttrContains (a v : string)      (* [a*='v'] *)
| AttrPrefix (a v : string).       (* [a^='v'] *)

(** A compound selector: an optional tag name and conditions on attributes. *)
Record compound : Type := { sel_name : option string; sel_attrs : list attr_sel }.

(** A complex selector: compounds joined by the descendant combinator,
    outermost first. A selector is a comma-separated list of them. *)
Definition complex : Type := list compound.
Definition selector : Type := list complex.

Definition matches_attr (h : tag_head) (c : attr_sel) : bool :=
  match c with
  | HasClass cls =>
      match lookup "class" (hd_attrs h) with
      | Some v => Str.mem cls (Str.split_ws v)
      | None => false
      end
  | AttrEq a v =>
      match lookup a (hd_attrs h) with
      | Some v' => String.eqb v' v
      | None => false
      end
  | AttrContains a v =>
      match lookup a (hd_attrs h) with
      | Some v' => Str.truthy v && Str.contains v v'
      | None => false
      end
  | AttrPrefix a v =>
      match lookup a (hd_attrs h) with
      | Some v' => Str.truthy v && String.prefix v v'
      | None => false
      end
  end.

Definition matches_compound (c : compound) (h : tag_head) : bool :=
  match sel_name c with
  | Some nm => String.eqb nm (hd_name h)
  | None => true
  end && forallb (matches_attr h) (sel_attrs c).

(** The remaining compounds, innermost first, against the enclosing tags. *)
Fixpoint matches_ancestors (cs : list compound) (ps : list tag_head) : bool :=
  match cs with
  | [] => true
  | c :: cs' =>
      (fix find (ps : list tag_head) : bool :=
         match ps with
         | [] => false
         | h :: ps' =>
             if matches_compound c h then matches_ancestors cs' ps' else find ps'
         end) ps
  end.

Definition matches_complex (cx : complex) (t : tag) : bool :=
  match rev cx with
  | [] => false
  | c :: outer => matches_compound c (head t) && matches_ancestors outer (parents t)
  end.

Definition matches (sel : selector) (t : tag) : bool :=
  existsb (fun cx => matches_complex cx t) sel.

(** [t.select(sel)]: the tags below [t] that match, in document order. *)
Definition select (t : tag) (sel : selector) : list tag :=
  filter (matches sel) (descendants t).

(** [t.select_one(sel)] *)
Definition select_one (t : tag) (sel : selector) : option tag :=
  hd_error (select t sel).

(** [soup.find_all(nm)] *)
Definition find_all (t : tag) (nm : string) : list tag :=
  filter (fun d => String.eqb (name d) nm) (descendants t).

(** Selector syntax. *)
Definition el (nm : string) : compound := {| sel_name := Some nm; sel_attrs := [] |}.
Definition el_class (nm cls : string) : compound :=
  {| sel_name := Some nm; sel_attrs := [HasClass cls] |}.
Definition el_attr (nm : string) (a : attr_sel) : compound :=
  {| sel_name := Some nm; sel_attrs := [a] |}.
Definition any_attr (a : attr_sel) : compound :=
  {| sel_name := None; sel_attrs := [a] |}.

End Bs4.

(** ** Computations that drive the browser

    A computation over a world [W] returns the next world with its outcome;
    the world an exception leaves behind is kept. *)

Definition M (W A : Type) : Type := W -> W * outcome A.

Definition ret {W A : Type} (a : A) : M W A := fun w => (w, Ok a).

Definition bind {W A B : Type} (c : M W A) (f : A -> M W B) : M W B :=
  fun w =>
    match c w with
    | (w', Ok a) => f a w'
    | (w', Raise e) => (w', Raise e)
    | (w', OutOfFuel) => (w', OutOfFuel)
    end.

Definition raise {W A : Type} (e : exn) : M W A := fun w => (w, Raise e).

Definition out_of_fuel {W A : Type} : M W A := fun w => (w, OutOfFuel).

Definition lift {W A : Type} (o : outcome A) : M W A := fun w => (w, o).

(** [try: c  except Exception as e: h e] *)
Definition try_except {W A : Type} (c : M W A) (h : exn -> M W A) : M W A :=
  fun w =>
    match c w with
    | (w', Raise e) => h e w'
    | r => r
    end.

Declare Scope monad_scope.
Delimit Scope monad_scope with monad.
Notation "x <- c ;; k" := (bind c (fun x => k))
  (at level 61, c at next level, right associativity) : monad_scope.
Notation "c ;; k" := (bind c (fun _ => k))
  (at level 61, right associativity) : monad_scope.
Open Scope monad_scope.

(** A call on the browser or the terminal returns or raises; it always
    comes back. *)
Inductive result (A : Type) : Type :=
| Returns (a : A)
| Raises (e : exn).

Arguments Returns {A} a.
Arguments Raises {A} e.

Definition action (W A : Type) : Type := W -> W * result A.

Definition call {W A : Type} (act : action W A) : M W A :=
  fun w =>
    match act w with
    | (w', Returns a) => (w', Ok a)
    | (w', Raises e) => (w', Raise e)
    end.

(** The calls the scraper makes on Selenium and on the terminal. Every one
    may change the world and may raise. [do_sleep] stands for [time.sleep]:
    the world moves on and nothing is raised. *)
Record WebDriver (W : Type) : Type :=
  { do_get : string -> action W unit;
    do_page_source : action W Bs4.tag;
    do_wait_presence : nat -> Bs4.selector -> action W unit;
    do_wait_absence : nat -> Bs4.selector -> action W unit;
    do_scroll_to : nat -> action W unit;
    do_scroll_to_bottom : action W unit;
    do_scroll_height : action W nat;
    do_find_element_click : Bs4.selector -> action W unit;
    do_input : string -> action W unit;
    do_quit : action W unit;
    do_sleep : W -> W }.

Arguments do_get {W}.
Arguments do_page_source {W}.
Arguments do_wait_presence {W}.
Arguments do_wait_absence {W}.
Arguments do_scroll_to {W}.
Arguments do_scroll_to_bottom {W}.
Arguments do_scroll_height {W}.
Arguments do_find_element_click {W}.
Arguments do_input {W}.
Arguments do_quit {W}.
Arguments do_sleep {W}.

Section Calls.
Context {W : Type}.
Variable driver : WebDriver W.

(** [driver.get(url)] *)
Definition get (url : string) : M W unit := call (do_get driver url).

(** [BeautifulSoup(driver.page_source, 'html.parser')] *)
Definition page_source : M W Bs4.tag := call (do_page_source driver).

(** [WebDriverWait(driver, t).until(EC.presence_of_element_located(
    (By.CSS_SELECTOR, sel)))], which raises [TimeoutException] when the
    element does not show up in time. *)
Definition wait_presence (t : nat) (sel : Bs4.selector) : M W unit :=
  call (do_wait_presence driver t sel).

(** [WebDriverWait(driver, t).until_not(EC.presence_of_element_located(...))] *)
Definition wait_absence (t : nat) (sel : Bs4.selector) : M W unit :=
  call (do_wait_absence driver t sel).

(** [driver.execute_script("window.scrollTo(0, i);")] *)
Definition scroll_to (i : nat) : M W unit := call (do_scroll_to driver i).

(** [driver.execute_script("window.scrollTo(0, document.body.scrollHeight);")] *)
Definition scroll_to_bottom : M W unit := call (do_scroll_to_bottom driver).

(** [driver.execute_script("return document.body.scrollHeight")] *)
Definition scroll_height : M W nat := call (do_scroll_height driver).

(** [driver.find_element(By.CSS_SELECTOR, sel).click()] *)
Definition find_element_click (sel : Bs4.selector) : M W unit :=
  call (do_find_element_click driver sel).

(** [input(prompt)] *)
Definition input (prompt : string) : M W unit := call (do_input driver prompt).

(** [driver.quit()] *)
Definition quit : M W unit := call (do_quit driver).

(** [time.sleep(...)] *)
Definition time_sleep : M W unit := fun w => (do_sleep driver w, Ok tt).

End Calls.

(** ** The scraped data *)

Module MenuItem.
Record t : Type :=
  { name : string; description : string; price : string; image : string }.
End MenuItem.

Module MenuCategory.
Record t : Type := { category : string; items : list MenuItem.t }.
End MenuCategory.

(** The dictionary [restaurant_data] built by [extract_restaurant_details]. *)
Module Restaurant.
Record t : Type :=
  { name : string;
    image : string;
    state : string;
    city : string;
    country_code : string;
    postal_code : string;
    email : string;
    cuisines : list string;
    latitude : string;
    longitude : string;
    price_range : string;
    phone : string;
    menu : list MenuCategory.t;
    address : string }.
End Restaurant.

(** What [extract_restaurant_details] returns: the dictionary of a
    restaurant, or [{"url": url, "error": str(e)}]. *)
Inductive details : Type :=
| Details (r : Restaurant.t)
| Error (url error : string).

(** ** Selectors and patterns of [app.py] *)

Definition dq : ascii := "034"%char.
Definition sq : ascii := "039"%char.

Definition captcha_selectors : list Bs4.selector :=
  [ [[Bs4.el_attr "iframe" (Bs4.AttrContains "src" "captcha")]];
    [[Bs4.el_attr "iframe" (Bs4.AttrContains "src" "recaptcha")]];
    [[Bs4.el_attr "div" (Bs4.AttrContains "class" "captcha")]];
    [[Bs4.el_attr "div" (Bs4.AttrContains "class" "recaptcha")]] ].

Definition loading_selector : Bs4.selector :=
  [ [Bs4.any_attr (Bs4.AttrContains "class" "loading")];
    [Bs4.any_attr (Bs4.AttrContains "class" "spinner")] ].

Definition restaurant_selectors : list Bs4.selector :=
  [ [[Bs4.el_attr "a" (Bs4.AttrEq "data-testid" "restaurant-card")]];
    [[Bs4.el_attr "a" (Bs4.AttrContains "href" "/restaurant/")]];
    [[Bs4.el_attr "a" (Bs4.AttrContains "class" "restaurant")]];
    [[Bs4.el_attr "a" (Bs4.AttrContains "class" "vendor")]] ].

Definition h1 : Bs4.selector := [[Bs4.el "h1"]].

Definition more_info_btn : Bs4.selector :=
  [[Bs4.any_attr (Bs4.AttrEq "data-testid" "vendor-info-more-info-btn")]].

Definition address_selectors : list Bs4.selector :=
  [ [[Bs4.el_attr "div" (Bs4.AttrEq "data-testid" "vendor-info-modal-vendor-address");
      Bs4.el "h1"]] ].

Definition cuisine_selectors : list Bs4.selector :=
  [ [[Bs4.el_class "ul" "main-info__characteristics"; Bs4.el "span"]] ].

Definition category_selectors : list Bs4.selector :=
  [ [[Bs4.el_class "ul" "bds-c-tabs__list"; Bs4.el "button"; Bs4.el "span"]] ].

Definition div_menu : Bs4.selector := [[Bs4.el_class "div" "menu"]].

Definition item_selectors : list Bs4.selector :=
  [ [[Bs4.el_class "ul" "dish-list-grid"]] ].

Definition li : Bs4.selector := [[Bs4.el "li"]].

Definition menu_product_name : Bs4.selector :=
  [[Bs4.el "h3"; Bs4.el_attr "span" (Bs4.AttrEq "data-testid" "menu-product-name")]].

Definition product_tile_description : Bs4.selector :=
  [[Bs4.el_class "p" "product-tile__description"]].

Definition menu_product_price : Bs4.selector :=
  [[Bs4.el_attr "p" (Bs4.AttrEq "data-testid" "menu-product-price")]].

Definition product_tile_image : Bs4.selector :=
  [[Bs4.el_class "picture" "product-tile__image"; Bs4.el "div"]].

Definition meta_property (p : string) : Bs4.selector :=
  [[Bs4.el_attr "meta" (Bs4.AttrEq "property" p)]].

(** [r'\(\d+\)$'] *)
Definition count_suffix_pattern : Re.regex :=
  Re.seq [Re.chr "("; Re.plus Re.digit; Re.chr ")"; Re.EndOfString].

(** [r'\d+'] *)
Definition price_pattern : Re.regex := Re.plus Re.digit.

Definition quote : Re.regex :=
  Re.Class (fun c => Ascii.eqb c sq || Ascii.eqb c dq).

(** [r'background-image:\s*url\([\'"]?(.*?)[\'"]?\)'] *)
Definition background_image_pattern : Re.regex :=
  Re.seq [Re.lit "background-image:"; Re.star Re.space; Re.lit "url(";
          Re.opt quote; Re.Group (Re.lazy_star Re.dot); Re.opt quote; Re.chr ")"].

Definition coordinate_char (c : ascii) : bool :=
  Re.one_of "-." c || Str.isdigit c.

(** [r'"latitude":\s*([-\d.]+)'] and [r'"longitude":\s*([-\d.]+)'] *)
Definition coordinate_pattern (key : string) : Re.regex :=
  Re.seq [Re.chr dq; Re.lit key; Re.chr dq; Re.chr ":"; Re.star Re.space;
          Re.Group (Re.plus (Re.Class coordinate_char))].

(** [r'\b\d{5,6}\b'] *)
Definition postal_pattern : Re.regex :=
  Re.seq [Re.WordBoundary; Re.times 5 6 Re.digit; Re.WordBoundary].

Definition alnum (c : ascii) : bool := Str.isalpha c || Str.isdigit c.

(** [r'[a-zA-Z0-9._%+-]+@[a-zA-Z0-9.-]+\.[a-zA-Z]{2,}'] *)
Definition email_pattern : Re.regex :=
  Re.seq [Re.plus (Re.Class (fun c => alnum c || Re.one_of "._%+-" c));
          Re.chr "@";
          Re.plus (Re.Class (fun c => alnum c || Re.one_of ".-" c));
          Re.chr ".";
          Re.at_least 2 (Re.Class Str.isalpha)].

Definition dash_or_space : Re.regex :=
  Re.Class (fun c => Ascii.eqb c "-" || Str.isspace c).

(** [r'(?:\+\d{1,3}[-\s]?)?\(?\d{3,4}\)?[-\s]?\d{3}[-\s]?\d{4}'] *)
Definition phone_pattern : Re.regex :=
  Re.seq [Re.opt (Re.seq [Re.chr "+"; Re.times 1 3 Re.digit; Re.opt dash_or_space]);
          Re.opt (Re.chr "(");
          Re.times 3 4 Re.digit;
          Re.opt (Re.chr ")");
          Re.opt dash_or_space;
          Re.times 3 3 Re.digit;
          Re.opt dash_or_space;
          Re.times 4 4 Re.digit].

Notation "x <~ c ;; k" := (obind c (fun x => k))
  (at level 61, c at next level, right associativity) : monad_scope.

(** ** The scraper object *)

Definition lower_char (c : ascii) : ascii :=
  let n := nat_of_ascii c in
  if (65 <=? n) && (n <=? 90) then ascii_of_nat (n + 32) else c.

Fixpoint lower (s : string) : string :=
  match s with
  | EmptyString => EmptyString
  | String c s' => String (lower_char c) (lower s')
  end.

Definition location_map : list (string * string) :=
  [ ("singapore", "sg"); ("malaysia", "my"); ("thailand", "co.th");
    ("philippines", "ph"); ("hong kong", "hk"); ("taiwan", "tw");
    ("pakistan", "pk"); ("bangladesh", "com.bd"); ("japan", "jp");
    ("germany", "de") ].

Definition _get_domain_extension (location : string) : string :=
  match Bs4.lookup (lower location) location_map with
  | Some ext => ext
  | None => "com"
  end.

(** The fields [__init__] sets, but for the driver and the data, which are
    the state of the computations below. *)
Record FoodpandaScraper : Type :=
  { location : string; base_url : string; restaurants_url : string }.

Definition init (location : string) : FoodpandaScraper :=
  let base_url := "https://www.foodpanda." ++ _get_domain_extension location in
  {| location := location;
     base_url := base_url;
     restaurants_url := base_url ++ "/restaurants/new?lng=74.31613&lat=31.53391" |}.

(** [urllib.parse.urljoin] on a base that is an origin [https://host], as
    [base_url] is, for the two forms of reference a listing carries: an
    absolute http(s) URL is kept, a path is put after the origin. *)
Definition urljoin (base url : string) : string :=
  if String.prefix "http://" url || String.prefix "https://" url then url
  else if String.prefix "/" url then base ++ url
  else base ++ "/" ++ url.

(** ** Field extractors without side effects *)

Definition _get_text (soup : Bs4.tag) (selector : Bs4.selector) (default : string)
    : outcome string :=
  otry
    (match Bs4.select_one soup selector with
     | Some element => Ok (Bs4.get_text_strip element)
     | None => Ok default
     end)
    (fun _ => Ok default).

(** [img = soup.select_one(sel); img and img.get('src')] *)
Definition src_of (soup : Bs4.tag) (sel : Bs4.selector) : option string :=
  match Bs4.select_one soup sel with
  | Some img => Bs4.get_truthy img "src"
  | None => None
  end.

Definition _get_image (soup : Bs4.tag) : outcome string :=
  otry
    (match src_of soup [[Bs4.el_class "img" "vendor-logo__image"]] with
     | Some src => Ok src
     | None =>
         match src_of soup [[Bs4.el_attr "img" (Bs4.AttrEq "data-testid" "restaurant-header-image")]] with
         | Some src => Ok src
         | None =>
             match src_of soup [[Bs4.el_class "img" "restaurant-image"]] with
             | Some src => Ok src
             | None => Ok ""
             end
         end
     end)
    (fun _ => Ok "").

Fixpoint add_cuisines (cuisine_elements : list Bs4.tag) (cuisines : list string)
    : list string :=
  match cuisine_elements with
  | [] => cuisines
  | elem :: rest =>
      let cuisine := Bs4.get_text_strip elem in
      add_cuisines rest
        (if Str.truthy cuisine && negb (Str.mem cuisine cuisines)
         then (cuisines ++ [cuisine])%list
         else cuisines)
  end.

Definition _get_cuisines (soup : Bs4.tag) : outcome (list string) :=
  otry
    (Ok (fold_left
           (fun cuisines selector => add_cuisines (Bs4.select soup selector) cuisines)
           cuisine_selectors []))
    (fun _ => Ok []).

Definition group1_or_empty (mo : Re.match_object) : string :=
  match Re.group1 mo with
  | Some s => s
  | None => ""
  end.

(** The loop over the script tags of [_get_latitude] and [_get_longitude]. *)
Fixpoint coordinate_in_scripts (key : string) (scripts : list Bs4.tag) : string :=
  match scripts with
  | [] => ""
  | script :: rest =>
      match Bs4.string_ script with
      | Some s =>
          if Str.truthy s
          then match Re.search (coordinate_pattern key) s with
               | Some mo => group1_or_empty mo
               | None => coordinate_in_scripts key rest
               end
          else coordinate_in_scripts key rest
      | None => coordinate_in_scripts key rest
      end
  end.

Definition get_coordinate (key : string) (soup : Bs4.tag) : outcome string :=
  otry
    (match Bs4.select_one soup (meta_property ("place:location:" ++ key)) with
     | Some meta =>
         match Bs4.get_truthy meta "content" with
         | Some content => Ok content
         | None => Ok (coordinate_in_scripts key (Bs4.find_all soup "script"))
         end
     | None => Ok (coordinate_in_scripts key (Bs4.find_all soup "script"))
     end)
    (fun _ => Ok "").

Definition _get_latitude : Bs4.tag -> outcome string := get_coordinate "latitude".
Definition _get_longitude : Bs4.tag -> outcome string := get_coordinate "longitude".

Definition _get_city (soup : Bs4.tag) : outcome string :=
  otry
    (match Bs4.select_one soup (meta_property "og:locality") with
     | Some meta_city =>
         match Bs4.get_truthy meta_city "content" with
         | Some content => Ok content
         | None =>
             match Bs4.select_one soup [[Bs4.el_class "span" "city"]; [Bs4.el_class "div" "city"]] with
             | Some city_elem => Ok (Bs4.get_text_strip city_elem)
             | None => Ok ""
             end
         end
     | None =>
         match Bs4.select_one soup [[Bs4.el_class "span" "city"]; [Bs4.el_class "div" "city"]] with
         | Some city_elem => Ok (Bs4.get_text_strip city_elem)
         | None => Ok ""
         end
     end)
    (fun _ => Ok "").

Definition _get_price_range (soup : Bs4.tag) : outcome string :=
  otry
    (match Bs4.select_one soup [[Bs4.el_class "span" "price-range"]; [Bs4.el_class "div" "price-range"]] with
     | Some price_elem => Ok (Bs4.get_text_strip price_elem)
     | None =>
         match Bs4.select_one soup [[Bs4.el_attr "span" (Bs4.AttrEq "data-testid" "price-range")]] with
         | Some price_symbols => Ok (Bs4.get_text_strip price_symbols)
         | None => Ok ""
         end
     end)
    (fun _ => Ok "").

(** [link = soup.select_one("a[href^='scheme']"); link and link.get('href');
    link['href'].replace(scheme, '')] *)
Definition link_target (soup : Bs4.tag) (scheme : string) : string :=
  match Bs4.select_one soup [[Bs4.el_attr "a" (Bs4.AttrPrefix "href" scheme)]] with
  | Some link =>
      match Bs4.get_truthy link "href" with
      | Some href => Str.remove_all scheme href
      | None => ""
      end
  | None => ""
  end.

Definition _get_email (soup : Bs4.tag) : outcome string :=
  otry
    (let page_text := Bs4.get_text soup in
     match Re.search email_pattern page_text with
     | Some email_match => Ok (Re.group0 email_match)
     | None => Ok (link_target soup "mailto:")
     end)
    (fun _ => Ok "").

Definition _get_phone (soup : Bs4.tag) : outcome string :=
  otry
    (let page_text := Bs4.get_text soup in
     match Re.search phone_pattern page_text with
     | Some phone_match => Ok (Re.group0 phone_match)
     | None => Ok (link_target soup "tel:")
     end)
    (fun _ => Ok "").

(** *** Menu items *)

(** [container.select(selector)]: a string of the tree has no [select]. *)
Definition select_in (container : Bs4.page_element) (selector : Bs4.selector)
    : outcome (list Bs4.tag) :=
  match container with
  | Bs4.Element t => Ok (Bs4.select t selector)
  | Bs4.Text _ => Raise AttributeError
  end.

Definition price_of (price_text : string) : string :=
  if Str.truthy price_text
  then match Re.search price_pattern price_text with
       | Some price_match => Re.group0 price_match
       | None => ""
       end
  else "".

Definition image_of (item_elem : Bs4.tag) : string :=
  match Bs4.select_one item_elem product_tile_image with
  | Some img_elem =>
      match Bs4.get_truthy img_elem "style" with
      | Some style =>
          match Re.search background_image_pattern style with
          | Some bg_match => group1_or_empty bg_match
          | None => ""
          end
      | None => ""
      end
  | None => ""
  end.

(** [for item_elem in menu_items: ...] *)
Fixpoint items_loop (menu_items : list Bs4.tag) (items : list MenuItem.t)
    : outcome (list MenuItem.t) :=
  match menu_items with
  | [] => Ok items
  | item_elem :: rest =>
      name <~ _get_text item_elem menu_product_name "" ;;
      description <~ _get_text item_elem product_tile_description "" ;;
      price_text <~ _get_text item_elem menu_product_price "" ;;
      let price := price_of price_text in
      let image := image_of item_elem in
      items_loop rest
        (if Str.truthy name
         then (items ++ [{| MenuItem.name := name;
                            MenuItem.description := description;
                            MenuItem.price := price;
                            MenuItem.image := image |}])%list
         else items)
  end.

(** [for container in item_containers: ...] *)
Fixpoint containers_loop (item_containers : list Bs4.tag) (items : list MenuItem.t)
    : outcome (list MenuItem.t) :=
  match item_containers with
  | [] => Ok items
  | container :: rest =>
      items' <~ items_loop (Bs4.select container li) items ;;
      containers_loop rest items'
  end.

(** [for selector in item_selectors: ...]; the inner loop rebinds
    [container], which the next selector would then search. *)
Fixpoint item_selectors_loop (selectors : list Bs4.selector)
    (container : Bs4.page_element) (items : list MenuItem.t)
    : outcome (list MenuItem.t) :=
  match selectors with
  | [] => Ok items
  | selector :: rest =>
      item_containers <~ select_in container selector ;;
      items' <~ containers_loop item_containers items ;;
      item_selectors_loop rest
        (last (map Bs4.Element item_containers) container) items'
  end.

Definition _get_menu_items (container : Bs4.page_element)
    : outcome (list MenuItem.t) :=
  otry (item_selectors_loop item_selectors container []) (fun _ => Ok []).

(** *** Menu categories, on the snapshot they are read from *)

Definition nonempty {A : Type} (l : list A) : bool :=
  match l with
  | [] => false
  | _ => true
  end.

(** [re.sub(r'\(\d+\)$', '', category_elem.get_text(strip=True)).strip()] *)
Definition category_name_of (category_elem : Bs4.tag) : string :=
  Str.strip (Re.sub_empty count_suffix_pattern (Bs4.get_text_strip category_elem)).

(** [for i, category_elem in enumerate(category_elements): ...] *)
Fixpoint categories_loop (soup : Bs4.tag) (category_elements : list Bs4.tag)
    (i : nat) (menu : list MenuCategory.t) : outcome (list MenuCategory.t) :=
  match category_elements with
  | [] => Ok menu
  | category_elem :: rest =>
      let category_name := category_name_of category_elem in
      match Bs4.select_one soup div_menu with
      | None => categories_loop soup rest (S i) menu
      | Some menu_items_container =>
          match nth_error (Bs4.contents menu_items_container) i with
          | None => Raise IndexError
          | Some c =>
              menu_items <~ _get_menu_items c ;;
              categories_loop soup rest (S i)
                (if nonempty menu_items
                 then (menu ++ [{| MenuCategory.category := category_name;
                                   MenuCategory.items := menu_items |}])%list
                 else menu)
          end
      end
  end.

(** [for selector in category_selectors: ...] *)
Fixpoint category_selectors_loop (soup : Bs4.tag) (selectors : list Bs4.selector)
    (menu : list MenuCategory.t) : outcome (list MenuCategory.t) :=
  match selectors with
  | [] => Ok menu
  | selector :: rest =>
      menu' <~ categories_loop soup (Bs4.select soup selector) 0 menu ;;
      category_selectors_loop soup rest menu'
  end.

(** ** The methods that drive the browser *)

Section Scraper.
Context {W : Type}.
Variable driver : WebDriver W.
Variable self : FoodpandaScraper.

(** [except TimeoutException: ...], other exceptions pass. *)
Definition except_timeout {A : Type} (c : M W A) (h : M W A) : M W A :=
  try_except c (fun e => if is_timeout e then h else raise e).

(** [for selector in captcha_selectors: ...]: at the first selector that
    is present the user is asked to solve the captcha and the loop ends. *)
Fixpoint captcha_loop (prompt : string) (selectors : list Bs4.selector) : M W unit :=
  match selectors with
  | [] => ret tt
  | selector :: rest =>
      found <- except_timeout
                 (wait_presence driver 5 selector ;;
                  input driver prompt ;;
                  ret true)
                 (ret false) ;;
      if found then ret tt else captcha_loop prompt rest
  end.

Definition check_captcha (prompt : string) : M W unit :=
  try_except (captcha_loop prompt captcha_selectors) (fun _ => ret tt).

(** *** [get_restaurant_urls] *)

(** [for card in cards: ...] *)
Fixpoint collect_cards (cards : list Bs4.tag) (restaurant_urls : list string)
    : list string :=
  match cards with
  | [] => restaurant_urls
  | card :: rest =>
      collect_cards rest
        (match Bs4.get card "href" with
         | Some url =>
             if Str.truthy url && negb (Str.mem url restaurant_urls)
             then (restaurant_urls ++ [urljoin (base_url self) url])%list
             else restaurant_urls
         | None => restaurant_urls
         end)
  end.

(** The first loop over [restaurant_selectors]: wait for a card, read the
    page, stop at the first selector that gives a URL. *)
Fixpoint first_cards (selectors : list Bs4.selector) (restaurant_urls : list string)
    : M W (list string) :=
  match selectors with
  | [] => ret restaurant_urls
  | selector :: rest =>
      found <- except_timeout
                 (wait_presence driver 10 selector ;;
                  soup <- page_source driver ;;
                  ret (Some (collect_cards (Bs4.select soup selector) restaurant_urls)))
                 (ret None) ;;
      match found with
      | Some restaurant_urls' =>
          if nonempty restaurant_urls' then ret restaurant_urls'
          else first_cards rest restaurant_urls'
      | None => first_cards rest restaurant_urls
      end
  end.

Definition max_scroll_attempts : nat := 20.

Definition under_limit (limit : option nat) (n : nat) : bool :=
  match limit with
  | None => true
  | Some l => n <? l
  end.

(** [limit and n >= limit] *)
Definition limit_reached (limit : option nat) (n : nat) : bool :=
  match limit with
  | None => false
  | Some l => negb (l =? 0) && (l <=? n)
  end.

(** One pass of the scroll loop over all selectors of the current page. *)
Definition collect_page (soup : Bs4.tag) (restaurant_urls : list string)
    : list string :=
  fold_left (fun urls selector => collect_cards (Bs4.select soup selector) urls)
    restaurant_selectors restaurant_urls.

(** [while (limit is None or len(restaurant_urls) < limit)
           and scroll_attempts < max_scroll_attempts: ...] *)
Fixpoint scroll_loop (fuel : nat) (limit : option nat)
    (restaurant_urls : list string) (prev_count scroll_attempts : nat)
    : M W (list string) :=
  if under_limit limit (length restaurant_urls)
     && (scroll_attempts <? max_scroll_attempts)
  then
    match fuel with
    | 0 => out_of_fuel
    | S fuel' =>
        soup <- page_source driver ;;
        let restaurant_urls := collect_page soup restaurant_urls in
        let scroll_attempts :=
          if length restaurant_urls =? prev_count then S scroll_attempts else 0 in
        let prev_count := length restaurant_urls in
        scroll_to_bottom driver ;;
        time_sleep driver ;;
        if limit_reached limit (length restaurant_urls)
        then ret (firstn (match limit with Some l => l | None => 0 end) restaurant_urls)
        else scroll_loop fuel' limit restaurant_urls prev_count scroll_attempts
    end
  else ret restaurant_urls.

Definition get_restaurant_urls (fuel : nat) (limit : option nat)
    : M W (list string) :=
  try_except
    (get driver (restaurants_url self) ;;
     check_captcha "Press Enter after solving the captcha to continue..." ;;
     except_timeout (wait_absence driver 10 loading_selector) (ret tt) ;;
     restaurant_urls <- first_cards restaurant_selectors [] ;;
     if nonempty restaurant_urls
     then scroll_loop fuel limit restaurant_urls 0 0
     else ret [])
    (fun _ => ret []).

(** *** Extractors that scroll or click *)

Fixpoint first_address (soup : Bs4.tag) (selectors : list Bs4.selector) : string :=
  match selectors with
  | [] => ""
  | selector :: rest =>
      match Bs4.select_one soup selector with
      | Some address_elem => Bs4.get_text_strip address_elem
      | None => first_address soup rest
      end
  end.

Definition _get_address (soup : Bs4.tag) : M W string :=
  try_except (scroll_to driver 0 ;; time_sleep driver) (fun _ => ret tt) ;;
  try_except
    (soup' <- try_except
                (find_element_click driver more_info_btn ;;
                 time_sleep driver ;;
                 page_source driver)
                (fun _ => ret soup) ;;
     ret (first_address soup' address_selectors))
    (fun _ => ret "").

Definition _get_state (soup : Bs4.tag) : M W string :=
  try_except
    (match Bs4.select_one soup (meta_property "og:region") with
     | Some meta_region =>
         match Bs4.get_truthy meta_region "content" with
         | Some content => ret content
         | None => _get_address soup ;; ret ""
         end
     | None => _get_address soup ;; ret ""
     end)
    (fun _ => ret "").

Definition _get_postal_code (soup : Bs4.tag) : M W string :=
  try_except
    (address <- _get_address soup ;;
     match Re.search postal_pattern address with
     | Some mo => ret (Re.group0 mo)
     | None => ret ""
     end)
    (fun _ => ret "").

(** [range(0, stop, step)] for a positive step. *)
Definition range0 (stop step : nat) : list nat :=
  map (fun k => k * step) (seq 0 ((stop + step - 1) / step)).

(** [for i in range(0, last_height, 300): scrollTo(0, i); sleep(0.3)] *)
Fixpoint scroll_steps (ys : list nat) : M W unit :=
  match ys with
  | [] => ret tt
  | i :: rest => scroll_to driver i ;; time_sleep driver ;; scroll_steps rest
  end.

(** [while True: ...] until a pass leaves the height of the page as it was. *)
Fixpoint scroll_down (fuel : nat) (last_height : nat) : M W unit :=
  match fuel with
  | 0 => out_of_fuel
  | S fuel' =>
      scroll_steps (range0 last_height 300) ;;
      new_height <- scroll_height driver ;;
      if new_height =? last_height then ret tt
      else scroll_down fuel' new_height
  end.

(** The snapshot [_get_menu] reads the menu from: the page after scrolling
    down, or the snapshot it was given when scrolling raised. *)
Definition scrolled_snapshot (fuel : nat) (soup : Bs4.tag) : M W Bs4.tag :=
  try_except
    (last_height <- scroll_height driver ;;
     scroll_down fuel last_height ;;
     page_source driver)
    (fun _ => ret soup).

Definition _get_menu (fuel : nat) (soup : Bs4.tag) : M W (list MenuCategory.t) :=
  try_except
    (soup' <- scrolled_snapshot fuel soup ;;
     lift (category_selectors_loop soup' category_selectors []))
    (fun _ => ret []).

(** *** [extract_restaurant_details] *)

Definition extract_restaurant_details (fuel : nat) (url : string) : M W details :=
  try_except
    (get driver url ;;
     check_captcha "Press Enter after solving the captcha to continue..." ;;
     wait_presence driver 15 h1 ;;
     time_sleep driver ;;
     soup <- page_source driver ;;
     name <- lift (_get_text soup h1 "") ;;
     image <- lift (_get_image soup) ;;
     cuisines <- lift (_get_cuisines soup) ;;
     latitude <- lift (_get_latitude soup) ;;
     longitude <- lift (_get_longitude soup) ;;
     menu <- _get_menu fuel soup ;;
     address <- _get_address soup ;;
     ret (Details
            {| Restaurant.name := name;
               Restaurant.image := image;
               Restaurant.state := "punjab";
               Restaurant.city := "Lahore";
               Restaurant.country_code := "PK";
               Restaurant.postal_code := "54000";
               Restaurant.email := "";
               Restaurant.cuisines := cuisines;
               Restaurant.latitude := latitude;
               Restaurant.longitude := longitude;
               Restaurant.price_range := "$$$";
               Restaurant.phone := "";
               Restaurant.menu := menu;
               Restaurant.address := address |}))
    (fun e => ret (Error url (str_exn e))).

End Scraper.

(** ** The accumulated data and its two files *)

(** An element of [self.data]: what [extract_restaurant_details] returned,
    after [scrape] has set its ["url"]. The second kind is the one that has
    the key ["error"]. *)
Inductive scraped : Type :=
| Scraped (r : Restaurant.t) (url : string)
| Failed (url error : string).

(** [restaurant_data["url"] = url] *)
Definition set_url (restaurant_data : details) (url : string) : scraped :=
  match restaurant_data with
  | Details r => Scraped r url
  | Error _ error => Failed url error
  end.

(** A row of the CSV file: the columns of the restaurant, and the columns of
    a menu item when the row stands for one. *)
Module Row.
Record basic_info : Type :=
  { name : string;
    image : string;
    state : string;
    city : string;
    country_code : string;
    postal_code : string;
    email : string;
    cuisines : string;
    latitude : string;
    longitude : string;
    price_range : string;
    phone : string;
    address : string;
    url : string }.

Record item_columns : Type :=
  { menu_category : string;
    menu_item_name : string;
    menu_item_description : string;
    menu_item_price : string;
    menu_item_image : string }.

Record t : Type := { basic : basic_info; item : option item_columns }.
End Row.

(** [{k: v for k, v in restaurant.items() if k != "menu"}] with
    [", ".join(cuisines)] for the cuisines. *)
Definition basic_info_of (r : Restaurant.t) (url : string) : Row.basic_info :=
  {| Row.name := Restaurant.name r;
     Row.image := Restaurant.image r;
     Row.state := Restaurant.state r;
     Row.city := Restaurant.city r;
     Row.country_code := Restaurant.country_code r;
     Row.postal_code := Restaurant.postal_code r;
     Row.email := Restaurant.email r;
     Row.cuisines := Str.join ", " (Restaurant.cuisines r);
     Row.latitude := Restaurant.latitude r;
     Row.longitude := Restaurant.longitude r;
     Row.price_range := Restaurant.price_range r;
     Row.phone := Restaurant.phone r;
     Row.address := Restaurant.address r;
     Row.url := url |}.

Definition item_data (basic_info : Row.basic_info) (cat_name : string)
    (item : MenuItem.t) : Row.t :=
  {| Row.basic := basic_info;
     Row.item := Some {| Row.menu_category := cat_name;
                         Row.menu_item_name := MenuItem.name item;
                         Row.menu_item_description := MenuItem.description item;
                         Row.menu_item_price := MenuItem.price item;
                         Row.menu_item_image := MenuItem.image item |} |}.

(** [for item in items: ... flattened_data.append(item_data)] *)
Fixpoint flatten_items (basic_info : Row.basic_info) (cat_name : string)
    (items : list MenuItem.t) (flattened_data : list Row.t) : list Row.t :=
  match items with
  | [] => flattened_data
  | item :: rest =>
      flatten_items basic_info cat_name rest
        (flattened_data ++ [item_data basic_info cat_name item])%list
  end.

(** [for category in menu: ...] *)
Fixpoint flatten_menu (basic_info : Row.basic_info) (menu : list MenuCategory.t)
    (flattened_data : list Row.t) : list Row.t :=
  match menu with
  | [] => flattened_data
  | category :: rest =>
      flatten_menu basic_info rest
        (flatten_items basic_info (MenuCategory.category category)
           (MenuCategory.items category) flattened_data)
  end.

(** [for restaurant in self.data: ...] *)
Fixpoint flatten (data : list scraped) (flattened_data : list Row.t) : list Row.t :=
  match data with
  | [] => flattened_data
  | Failed _ _ :: rest => flatten rest flattened_data
  | Scraped r url :: rest =>
      let basic_info := basic_info_of r url in
      if nonempty (Restaurant.menu r)
      then flatten rest (flatten_menu basic_info (Restaurant.menu r) flattened_data)
      else flatten rest
             (flattened_data ++ [{| Row.basic := basic_info; Row.item := None |}])%list
  end.

(** The two output files, each absent or holding what was last written to
    it: the list that [json.dump] serialized, the rows that [to_csv] wrote. *)
Record files : Type :=
  { foodpanda_data_json : option (list scraped);
    foodpanda_data_csv : option (list Row.t) }.

(** [_save_data], with the two files opened for writing without error. *)
Definition _save_data (data : list scraped) (fs : files) : files :=
  let fs := {| foodpanda_data_json := Some data;
               foodpanda_data_csv := foodpanda_data_csv fs |} in
  let flattened_data := flatten data [] in
  if nonempty flattened_data
  then {| foodpanda_data_json := foodpanda_data_json fs;
          foodpanda_data_csv := Some flattened_data |}
  else fs.

(** ** [scrape] *)

(** The state of a run: the browser's world, [self.data] and the files. *)
Record scraper_state (W : Type) : Type :=
  { world : W; data : list scraped; saved : files }.

Arguments world {W}.
Arguments data {W}.
Arguments saved {W}.

Section Scrape.
Context {W : Type}.
Variable driver : WebDriver W.
Variable self : FoodpandaScraper.

Definition on_world {A : Type} (c : M W A) : M (scraper_state W) A :=
  fun st =>
    match c (world st) with
    | (w', o) => ({| world := w'; data := data st; saved := saved st |}, o)
    end.

(** [self.data.append(x)] *)
Definition append_data (x : scraped) : M (scraper_state W) unit :=
  fun st =>
    ({| world := world st; data := (data st ++ [x])%list; saved := saved st |}, Ok tt).

(** [self._save_data()] *)
Definition save : M (scraper_state W) unit :=
  fun st =>
    ({| world := world st; data := data st;
        saved := _save_data (data st) (saved st) |}, Ok tt).

(** [try: c  finally: f] *)
Definition try_finally {S A : Type} (c : M S A) (f : M S unit) : M S A :=
  fun st =>
    match c st with
    | (st', OutOfFuel) => (st', OutOfFuel)
    | (st', o) =>
        match f st' with
        | (st'', Ok _) => (st'', o)
        | (st'', Raise e) => (st'', Raise e)
        | (st'', OutOfFuel) => (st'', OutOfFuel)
        end
    end.

(** [for i, url in enumerate(restaurant_urls): ...] *)
Fixpoint scrape_loop (fuel : nat) (restaurant_urls : list string) (i total : nat)
    : M (scraper_state W) unit :=
  match restaurant_urls with
  | [] => ret tt
  | url :: rest =>
      (if 0 <? i then on_world (time_sleep driver) else ret tt) ;;
      restaurant_data <- on_world (extract_restaurant_details driver fuel url) ;;
      append_data (set_url restaurant_data url) ;;
      (if ((i + 1) mod 5 =? 0) || (i =? total - 1) then save else ret tt) ;;
      scrape_loop fuel rest (S i) total
  end.

(** [if max_restaurants: restaurant_urls = restaurant_urls[:max_restaurants]]:
    an integer that is not zero cuts the list, to its first elements when
    it is positive and by that many elements off its end when it is
    negative. *)
Definition take_max (max_restaurants : option Z) (restaurant_urls : list string)
    : list string :=
  match max_restaurants with
  | Some (Zpos n) => firstn (Pos.to_nat n) restaurant_urls
  | Some (Zneg n) => firstn (length restaurant_urls - Pos.to_nat n) restaurant_urls
  | _ => restaurant_urls
  end.

(** [close] *)
Definition close : M (scraper_state W) unit :=
  try_except (on_world (quit driver)) (fun _ => ret tt).

Definition scrape (fuel : nat) (limit : option nat) (max_restaurants : option Z)
    : M (scraper_state W) (list scraped) :=
  try_finally
    (try_except
       (restaurant_urls <- on_world (get_restaurant_urls driver self fuel limit) ;;
        let restaurant_urls := take_max max_restaurants restaurant_urls in
        scrape_loop fuel restaurant_urls 0 (length restaurant_urls) ;;
        fun st => (st, Ok (data st)))
       (fun _ st => (st, Ok (data st))))
    (save ;; close).

End Scrape.

(** ** A simulated browser

    The world is the number of scrolls to the bottom made so far; [feed]
    gives the page rendered after that many scrolls and [height] its
    height. Waiting for an element succeeds when the current page has it
    and times out otherwise; nothing else fails. *)

Definition present (page : Bs4.tag) (sel : Bs4.selector) : bool :=
  nonempty (Bs4.select page sel).

Definition feed_driver (feed : nat -> Bs4.tag) (height : nat -> nat) : WebDriver nat :=
  {| do_get := fun _ w => (w, Returns tt);
     do_page_source := fun w => (w, Returns (feed w));
     do_wait_presence := fun _ sel w =>
       (w, if present (feed w) sel then Returns tt else Raises TimeoutException);
     do_wait_absence := fun _ sel w =>
       (w, if present (feed w) sel then Raises TimeoutException else Returns tt);
     do_scroll_to := fun _ w => (w, Returns tt);
     do_scroll_to_bottom := fun w => (S w, Returns tt);
     do_scroll_height := fun w => (w, Returns (height w));
     do_find_element_click := fun sel w =>
       (w, if present (feed w) sel then Returns tt
           else Raises (Exception "no such element"));
     do_input := fun _ w => (w, Returns tt);
     do_quit := fun w => (w, Returns tt);
     do_sleep := fun w => w |}.

(** A page that never changes. *)
Definition static_driver (page : Bs4.tag) : WebDriver nat :=
  feed_driver (fun _ => page) (fun _ => 1080).

Definition pk : FoodpandaScraper := init "pakistan".

(** [<a data-testid="restaurant-card" href=...></a>] *)
Definition card (href : string) : Bs4.node :=
  Bs4.Tag "a" [("data-testid", "restaurant-card"); ("href", href)] [].

Definition listing (hrefs : list string) : Bs4.tag :=
  Bs4.BeautifulSoup
    [Bs4.Tag "html" []
       [Bs4.Tag "body" [] [Bs4.Tag "ul" [("class", "vendor-list")] (map card hrefs)]]].

(** A listing with one restaurant, linked by a path as the site does. *)
Definition kfc_href : string := "/restaurant/s9iz/kfc".
Definition kfc_url : string := "https://www.foodpanda.pk/restaurant/s9iz/kfc".
Definition one_card : Bs4.tag := listing [kfc_href].

(** A listing with two restaurants, linked by absolute URLs. *)
Definition mcd_url : string := "https://www.foodpanda.pk/restaurant/x1y2/mcdonalds".
Definition two_cards : Bs4.tag := listing [kfc_url; mcd_url].

(** A restaurant page: two category tabs, a menu of two containers, the
    first with a named item and an item without name. *)
Definition text_in (name : string) (attrs : list (string * string)) (s : string)
    : Bs4.node :=
  Bs4.Tag name attrs [Bs4.NavigableString s].

Definition dish (name description price style : string) : Bs4.node :=
  Bs4.Tag "li" []
    [ Bs4.Tag "h3" [] [text_in "span" [("data-testid", "menu-product-name")] name];
      text_in "p" [("class", "product-tile__description")] description;
      text_in "p" [("data-testid", "menu-product-price")] price;
      Bs4.Tag "picture" [("class", "product-tile__image")]
        [Bs4.Tag "div" [("style", style)] []] ].

Definition zinger : Bs4.node :=
  dish "Zinger" "Crispy fillet burger" "Rs. 500"
    "background-image: url('https://images.example/zinger.jpg')".

Definition nameless : Bs4.node :=
  dish "" "Seasonal" "Rs. 90" "background-image: url(x.png)".

Definition cola : Bs4.node :=
  dish "Cola" "" "Rs. 120" "".

Definition dish_list (dishes : list Bs4.node) : Bs4.node :=
  Bs4.Tag "div" [("class", "dish-category-section")]
    [Bs4.Tag "ul" [("class", "dish-list-grid")] dishes].

Definition tab (label : string) : Bs4.node :=
  Bs4.Tag "button" [] [text_in "span" [] label].

Definition restaurant_body (tabs containers : list Bs4.node) : list Bs4.node :=
  [ text_in "h1" [] "KFC";
    Bs4.Tag "img" [("class", "vendor-logo__image"); ("src", "kfc.png")] [];
    Bs4.Tag "ul" [("class", "main-info__characteristics")]
      [text_in "span" [] "Fast Food"; text_in "span" [] " Burgers "; text_in "span" [] "Fast Food"];
    Bs4.Tag "ul" [("class", "bds-c-tabs__list")] tabs;
    Bs4.Tag "div" [("class", "menu")] containers;
    text_in "p" [] "Write to info@kfc.example or call 042 111 2222";
    Bs4.Tag "div" [("data-testid", "vendor-info-modal-vendor-address")]
      [text_in "h1" [] "12 Mall Road, Lahore 54660"] ].

Definition restaurant_page : Bs4.tag :=
  Bs4.BeautifulSoup
    [Bs4.Tag "html" []
       [Bs4.Tag "body" []
          (restaurant_body
             [tab "Deals (2)"; tab "Sides (0)"; tab "Drinks (1)"]
             [dish_list [zinger; nameless]; dish_list []; dish_list [cola]])]].

(** The same page with one tab more than the menu has containers. *)
Definition page_with_extra_tab : Bs4.tag :=
  Bs4.BeautifulSoup
    [Bs4.Tag "html" []
       [Bs4.Tag "body" []
          (restaurant_body
             [tab "Deals (2)"; tab "Drinks (1)"]
             [dish_list [zinger]])]].

Definition empty_page : Bs4.tag := Bs4.BeautifulSoup [].

(** The record read off [restaurant_page]. *)
Definition kfc : Restaurant.t :=
  {| Restaurant.name := "KFC";
     Restaurant.image := "kfc.png";
     Restaurant.state := "punjab";
     Restaurant.city := "Lahore";
     Restaurant.country_code := "PK";
     Restaurant.postal_code := "54000";
     Restaurant.email := "";
     Restaurant.cuisines := ["Fast Food"; "Burgers"];
     Restaurant.latitude := "";
     Restaurant.longitude := "";
     Restaurant.price_range := "$$$";
     Restaurant.phone := "";
     Restaurant.menu :=
       [ {| MenuCategory.category := "Deals";
            MenuCategory.items :=
              [ {| MenuItem.name := "Zinger";
                   MenuItem.description := "Crispy fillet burger";
                   MenuItem.price := "500";
                   MenuItem.image := "https://images.example/zinger.jpg" |} ] |};
         {| MenuCategory.category := "Drinks";
            MenuCategory.items :=
              [ {| MenuItem.name := "Cola";
                   MenuItem.description := "";
                   MenuItem.price := "120";
                   MenuItem.image := "" |} ] |} ];
     Restaurant.address := "12 Mall Road, Lahore 54660" |}.

(** The record read off [page_with_extra_tab]: its menu is lost. *)
Definition kfc_without_menu : Restaurant.t :=
  {| Restaurant.name := "KFC";
     Restaurant.image := "kfc.png";
     Restaurant.state := "punjab";
     Restaurant.city := "Lahore";
     Restaurant.country_code := "PK";
     Restaurant.postal_code := "54000";
     Restaurant.email := "";
     Restaurant.cuisines := ["Fast Food"; "Burgers"];
     Restaurant.latitude := "";
     Restaurant.longitude := "";
     Restaurant.price_range := "$$$";
     Restaurant.phone := "";
     Restaurant.menu := [];
     Restaurant.address := "12 Mall Road, Lahore 54660" |}.

(** A record that [scrape] never accumulates: its menu has a category
    without items. *)
Definition kfc_with_empty_category : Restaurant.t :=
  {| Restaurant.name := "KFC";
     Restaurant.image := "kfc.png";
     Restaurant.state := "punjab";
     Restaurant.city := "Lahore";
     Restaurant.country_code := "PK";
     Restaurant.postal_code := "54000";
     Restaurant.email := "";
     Restaurant.cuisines := ["Fast Food"; "Burgers"];
     Restaurant.latitude := "";
     Restaurant.longitude := "";
     Restaurant.price_range := "$$$";
     Restaurant.phone := "";
     Restaurant.menu := [ {| MenuCategory.category := "Deals"; MenuCategory.items := [] |} ];
     Restaurant.address := "12 Mall Road, Lahore 54660" |}.

(** Three entities as [scrape] accumulates them: two restaurants and a
    page that did not load. *)
Definition three_entities : list scraped :=
  [ Scraped kfc "https://www.foodpanda.pk/restaurant/s9iz/kfc";
    Failed "https://www.foodpanda.pk/restaurant/x0x0/gone" "Message: ";
    Scraped kfc_without_menu "https://www.foodpanda.pk/restaurant/k1k1/kfc-mall" ].

Definition no_files : files :=
  {| foodpanda_data_json := None; foodpanda_data_csv := None |}.

(** A URL that a [url('...')] declaration can hold as it is: no closing
    parenthesis and no newline in it. *)
Definition plain_url (url : string) : bool :=
  forallb (fun c => negb (Ascii.eqb c ")") && negb (Ascii.eqb c Re.newline))
    (list_ascii_of_string url).

(** A text without digit. *)
Definition no_digit (s : string) : bool :=
  forallb (fun c => negb (Str.isdigit c)) (list_ascii_of_string s).

(** A non-empty text of digits. *)
Definition digits_only (s : string) : bool :=
  Str.truthy s && forallb Str.isdigit (list_ascii_of_string s).

(** A text that does not go on with a digit. *)
Definition no_digit_first (s : string) : bool :=
  match s with
  | EmptyString => true
  | String c _ => negb (Str.isdigit c)
  end.

(** ** The claims in the words of the specification *)

Definition category_tabs (snapshot : Bs4.tag) : list Bs4.tag :=
  Bs4.select snapshot
    [[Bs4.el_class "ul" "bds-c-tabs__list"; Bs4.el "button"; Bs4.el "span"]].

(** The children of the menu root. *)
Definition menu_containers (snapshot : Bs4.tag) : list Bs4.page_element :=
  match Bs4.select_one snapshot div_menu with
  | Some root => Bs4.contents root
  | None => []
  end.

(** The Nth tab with the Nth container: the category it gives, none when
    the container yields no item. *)
Definition paired_entry (tab_and_container : Bs4.tag * Bs4.page_element)
    : list MenuCategory.t :=
  match _get_menu_items (snd tab_and_container) with
  | Ok (item :: rest) =>
      [{| MenuCategory.category := category_name_of (fst tab_and_container);
          MenuCategory.items := item :: rest |}]
  | _ => []
  end.

Definition positional_pairing (snapshot : Bs4.tag) : list MenuCategory.t :=
  flat_map paired_entry (combine (category_tabs snapshot) (menu_containers snapshot)).

Definition total_items (menu : list MenuCategory.t) : nat :=
  list_sum (map (fun c => length (MenuCategory.items c)) menu).

(** One row per item of a menu, category after category. *)
Definition menu_rows (basic_info : Row.basic_info) (menu : list MenuCategory.t)
    : list Row.t :=
  flat_map
    (fun c => map (item_data basic_info (MenuCategory.category c)) (MenuCategory.items c))
    menu.

(** The rows of one entity: none for a failed one, one without item columns
    for a restaurant with no menu item, else one per menu item. *)
Definition entity_rows (e : scraped) : list Row.t :=
  match e with
  | Failed _ _ => []
  | Scraped r url =>
      let basic_info := basic_info_of r url in
      if total_items (Restaurant.menu r) =? 0
      then [{| Row.basic := basic_info; Row.item := None |}]
      else menu_rows basic_info (Restaurant.menu r)
  end.

(** What [scrape] appends to [self.data]: a failure, or a restaurant whose
    menu, read by [_get_menu], has no category without items. *)
Definition accumulated (e : scraped) : Prop :=
  match e with
  | Failed _ _ => True
  | Scraped r _ =>
      Forall (fun c => MenuCategory.items c <> []) (Restaurant.menu r)
  end.

(** A computation of [scrape] that keeps [self.data] as [scrape]
    accumulates it. *)
Definition keeps_accumulated {W A : Type} (c : M (scraper_state W) A) : Prop :=
  forall st st' o,
    Forall accumulated (data st) -> c st = (st', o) ->
    Forall accumulated (data st').

(** A matcher that reads one character of a class, as [Re.m] does on
    [Re.Class f]. *)
Definition class_step {R : Type} (f : ascii -> bool)
    (step : Re.pos -> option (list ascii) -> @Re.cont R -> option R) : Prop :=
  forall p cap k,
    step p cap k = match Re.rest p with
                   | c :: tl => if f c then k (Re.advance c p tl) cap else None
                   | [] => None
                   end.

(** The fields of a record that the claim on contact fields would have read
    off the page. *)
Definition contact_fields_by_regex : Prop :=
  forall (page : Bs4.tag) (url : string) (w w' : nat) (r : Restaurant.t),
    extract_restaurant_details (static_driver page) 1 url w = (w', Ok (Details r)) ->
    snd (_get_postal_code (static_driver page) page w') = Ok (Restaurant.postal_code r)
    /\ _get_email page = Ok (Restaurant.email r)
    /\ _get_phone page = Ok (Restaurant.phone r).

(** The flush leaves files that depend on the accumulated data alone. *)
Definition flush_is_function_of_data : Prop :=
  forall (data : list scraped) (fs fs' : files),
    _save_data data fs = _save_data data fs'.

(** ** Further methods and what the properties below speak of *)

(** [s.split(sep)] for a separator of one character. *)
Fixpoint split_on (sep : ascii) (s : string) : list string :=
  match s with
  | EmptyString => [EmptyString]
  | String c s' =>
      if Ascii.eqb c sep then EmptyString :: split_on sep s'
      else match split_on sep s' with
           | part :: parts => String c part :: parts
           | [] => [String c EmptyString]
           end
  end.

(** [_get_country_code]: [domain_parts[-1]] is the last part. *)
Definition _get_country_code (self : FoodpandaScraper) : string :=
  let domain_parts := split_on "." (base_url self) in
  if 2 <=? length domain_parts
  then
    let tld := last domain_parts "" in
    if String.eqb tld "sg" then "SG"
    else if String.eqb tld "my" then "MY"
    else if String.eqb tld "hk" then "HK"
    else if Str.contains "co.th" (base_url self) then "TH"
    else ""
  else "".

(** [entry["url"]] of an element of [self.data]. *)
Definition url_of (e : scraped) : string :=
  match e with
  | Scraped _ url => url
  | Failed url _ => url
  end.

(** Every [href] of the page is a URL that [urljoin] gives back as it is. *)
Definition joined_hrefs (self : FoodpandaScraper) (page : Bs4.tag) : bool :=
  forallb
    (fun card =>
       match Bs4.get card "href" with
       | Some url => String.eqb (urljoin (base_url self) url) url
       | None => true
       end)
    (Bs4.descendants page).

(** ** What a pattern matches

    [steps r p p']: the pattern [r] matches from the position [p] up to the
    position [p']. Every match that the matcher [Re.m] finds is one of
    these. *)

Fixpoint iter_steps (step : Re.pos -> Re.pos -> Prop) (n : nat) (p p' : Re.pos)
    : Prop :=
  match n with
  | 0 => p' = p
  | S n' => exists p1, step p p1 /\ iter_steps step n' p1 p'
  end.

Fixpoint steps (r : Re.regex) (p p' : Re.pos) : Prop :=
  match r with
  | Re.Eps => p' = p
  | Re.Class f =>
      exists c tl, Re.rest p = c :: tl /\ f c = true /\ p' = Re.advance c p tl
  | Re.Cat r1 r2 => exists p1, steps r1 p p1 /\ steps r2 p1 p'
  | Re.Repeat _ lo hi r1 =>
      exists n,
        lo <= n
        /\ match hi with Some h => n <= h | None => True end
        /\ iter_steps (steps r1) n p p'
  | Re.Group r1 => steps r1 p p'
  | Re.WordBoundary =>
      xorb (Re.word_at (Re.before p)) (Re.word_at (Re.rest p)) = true /\ p' = p
  | Re.EndOfString => (Re.rest p = [] \/ Re.rest p = [Re.newline]) /\ p' = p
  end.

(** [p'] lies [u] after [p] in the same subject. *)
Definition reaches (p : Re.pos) (u : list ascii) (p' : Re.pos) : Prop :=
  Re.rest p = (u ++ Re.rest p')%list /\ Re.before p' = (rev u ++ Re.before p)%list.

(** A listing that shows a second restaurant after two scrolls. *)
Definition growing_feed (w : nat) : Bs4.tag :=
  if w <? 2 then listing [kfc_url] else two_cards.

(** Every URL that the cards link is in the list. *)
Definition covered_by (cards : list Bs4.tag) (restaurant_urls : list string) : Prop :=
  forall card url,
    In card cards -> Bs4.get card "href" = Some url -> Str.truthy url = true ->
    In url restaurant_urls.

(** A page that is a listing with one card and the page of a restaurant at
    once, for a browser that shows one page whatever it is asked. *)
Definition portal : Bs4.tag :=
  Bs4.BeautifulSoup
    [Bs4.Tag "html" []
       [Bs4.Tag "body" []
          (card kfc_url
           :: restaurant_body [tab "Deals (2)"; tab "Drinks"]
                [dish_list [zinger; nameless]; dish_list [cola]])]].

Definition fresh_run : scraper_state nat :=
  {| world := 0; data := []; saved := no_files |}.

(** An entry of [self.data] whose menu, when it has one, is made of
    categories with at least one item, every item with a name and with a
    price of digits only or empty. *)
Definition well_formed_item (item : MenuItem.t) : Prop :=
  MenuItem.name item <> ""
  /\ forallb Str.isdigit (list_ascii_of_string (MenuItem.price item)) = true.

Definition well_formed_entry (e : scraped) : Prop :=
  match e with
  | Failed _ _ => True
  | Scraped r _ =>
      Forall (fun c => MenuCategory.items c <> []
                       /\ Forall well_formed_item (MenuCategory.items c))
        (Restaurant.menu r)
  end.

(** A text without opening parenthesis. *)
Definition no_paren (s : string) : bool :=
  forallb (fun c => negb (Ascii.eqb c "(")) (list_ascii_of_string s).

(** The fragment of one category tab. *)
Definition deals_tab : Bs4.tag := Bs4.BeautifulSoup [tab "Deals (12)"].

(** The characters that the pattern of [_get_phone] can read. *)
Definition phone_char (c : ascii) : bool :=
  Str.isdigit c || Re.one_of "+()-" c || Str.isspace c.

(** Every class of the pattern lies within the characters [A]. *)
Fixpoint within (A : ascii -> bool) (r : Re.regex) : Prop :=
  match r with
  | Re.Class f => forall c, f c = true -> A c = true
  | Re.Cat r1 r2 => within A r1 /\ within A r2
  | Re.Repeat _ _ _ r1 => within A r1
  | Re.Group r1 => within A r1
  | _ => True
  end.

(** The least number of characters that a match of the pattern reads. *)
Fixpoint min_length (r : Re.regex) : nat :=
  match r with
  | Re.Class _ => 1
  | Re.Cat r1 r2 => min_length r1 + min_length r2
  | Re.Repeat _ lo _ r1 => lo * min_length r1
  | Re.Group r1 => min_length r1
  | _ => 0
  end.

(** ** Texts in ASCII

    The embedding reads a text as its bytes. On a text in ASCII its
    [lower], [Str.strip], [Re.digit], [Re.space] and [Re.WordBoundary] are
    Python's [str.lower], [str.strip], [\d], [\s] and [\b]; on other texts
    Python also knows the letters, digits and blanks of Unicode. What is
    stated of the values they give is stated of pages in ASCII. *)

Definition is_ascii (s : string) : bool :=
  forallb (fun c => nat_of_ascii c <? 128) (list_ascii_of_string s).

Definition ascii_attrs (attrs : list (string * string)) : bool :=
  forallb (fun kv => is_ascii (fst kv) && is_ascii (snd kv)) attrs.

Fixpoint ascii_node (n : Bs4.node) : bool :=
  match n with
  | Bs4.NavigableString s => is_ascii s
  | Bs4.Tag nm attrs cs => is_ascii nm && ascii_attrs attrs && forallb ascii_node cs
  end.

(** A tag all of whose names, attributes and strings are in ASCII, those of
    the tags around it too. *)
Definition ascii_tag (t : Bs4.tag) : bool :=
  is_ascii (Bs4.name t) && ascii_attrs (Bs4.attrs t)
  && forallb ascii_node (Bs4.children t)
  && forallb (fun h => is_ascii (Bs4.hd_name h) && ascii_attrs (Bs4.hd_attrs h))
       (Bs4.parents t).

Definition ascii_element (e : Bs4.page_element) : bool :=
  match e with
  | Bs4.Element t => ascii_tag t
  | Bs4.Text s => is_ascii s
  end.

(** Every page that the browser shows is in ASCII. *)
Definition ascii_pages {W : Type} (driver : WebDriver W) : Prop :=
  forall w w' page,
    do_page_source driver w = (w', Returns page) -> ascii_tag page = true.

(** ** URLs written out in full

    [https://], a host that starts with a letter or a digit, and letters,
    digits, "/", "-", "." and "_" after it: [urllib.parse.urljoin] gives
    such a URL back as it is on every base of the scheme [https], as
    [urljoin] does here. *)

Definition url_char (c : ascii) : bool :=
  alnum c || Re.one_of "/-._" c.

Definition plain_https_url (url : string) : bool :=
  String.prefix "https://" url
  && match Str.drop 8 url with
     | String c rest => alnum c && forallb url_char (list_ascii_of_string rest)
     | EmptyString => false
     end.

(** Every [href] of the page is such a URL. *)
Definition plain_hrefs (page : Bs4.tag) : bool :=
  forallb
    (fun card =>
       match Bs4.get card "href" with
       | Some url => plain_https_url url
       | None => true
       end)
    (Bs4.descendants page).

(** ** More pages *)

(** The items of one container. *)
Definition two_dishes : Bs4.page_element :=
  Bs4.Element (Bs4.BeautifulSoup [dish_list [zinger; cola]]).

(** A page whose script holds the coordinates of the restaurant. *)
Definition map_page : Bs4.tag :=
  Bs4.BeautifulSoup
    [Bs4.Tag "html" []
       [Bs4.Tag "head" []
          [Bs4.Tag "script" []
             [Bs4.NavigableString
                ("{" ++ String dq ("latitude" ++ String dq (": 31.5204, "
                 ++ String dq ("longitude" ++ String dq ": 74.3587}"))))]]]].

(** A listing with three cards that is the page of a restaurant too. *)
Definition mall_url : string := "https://www.foodpanda.pk/restaurant/k1k1/kfc-mall".

Definition portal_of_three : Bs4.tag :=
  Bs4.BeautifulSoup
    [Bs4.Tag "html" []
       [Bs4.Tag "body" []
          (card kfc_url :: card mcd_url :: card mall_url
           :: restaurant_body [tab "Deals (2)"; tab "Drinks"]
                [dish_list [zinger; nameless]; dish_list [cola]])]].

(** ** The style of an image and the elements of the items *)

Definition is_quote (c : ascii) : bool := Ascii.eqb c sq || Ascii.eqb c dq.

(** A quote or nothing. *)
Definition quoting (q : string) : bool :=
  match q with
  | EmptyString => true
  | String c EmptyString => is_quote c
  | _ => false
  end.

Definition starts_with_quote (s : string) : bool :=
  match s with
  | String c _ => is_quote c
  | EmptyString => false
  end.

Definition ends_with_quote (s : string) : bool :=
  match rev (list_ascii_of_string s) with
  | c :: _ => is_quote c
  | [] => false
  end.

(** [url] between [q1] and [q2], each a quote or nothing, where no quote of
    [url] can be taken for one of them. *)
Definition quoted (q1 url q2 : string) : bool :=
  quoting q1 && quoting q2
  && match q1 with
     | EmptyString => negb (starts_with_quote (url ++ q2))
     | _ => true
     end
  && match q2 with
     | EmptyString => negb (ends_with_quote url)
     | _ => true
     end.

(** [lit] starts at no place of [pre] in [pre ++ rest]. *)
Fixpoint not_before (lit pre rest : string) : bool :=
  match pre with
  | EmptyString => true
  | String c pre' =>
      negb (String.prefix lit (pre ++ rest)) && not_before lit pre' rest
  end.

(** A style whose first [background-image:] declares [url]: blanks or none
    after the colon, and [url(...)] around the URL, in quotes or not. *)
Definition background_image_style (style url : string) : Prop :=
  exists pre ws q1 q2 post : string,
    let declaration :=
      "background-image:" ++ ws ++ "url(" ++ q1 ++ url ++ q2 ++ ")" ++ post in
    style = pre ++ declaration
    /\ not_before "background-image:" pre declaration = true
    /\ forallb Str.isspace (list_ascii_of_string ws) = true
    /\ quoted q1 url q2 = true
    /\ plain_url url = true.

(** The elements that [_get_menu_items] reads an item off: the [li] of the
    lists of dishes of the container, list after list. *)
Definition item_elements (container : Bs4.tag) : list Bs4.tag :=
  flat_map (fun item_container => Bs4.select item_container li)
    (Bs4.select container [[Bs4.el_class "ul" "dish-list-grid"]]).

(** A quote or nothing, as a list. *)
Definition quote_or_none (q : list ascii) : Prop :=
  q = [] \/ exists c, q = [c] /\ is_quote c = true.

(** A container with three item elements: a dish, a dish without name and
    a dish without image. *)
Definition dish_section : Bs4.tag := Bs4.BeautifulSoup [dish_list [zinger; nameless; cola]].

(** The element of a dish of [dish_section]. *)
Definition dish_element (dish : Bs4.node) : Bs4.tag :=
  match
    Bs4.enter
      [ {| Bs4.hd_name := "ul"; Bs4.hd_attrs := [("class", "dish-list-grid")] |};
        {| Bs4.hd_name := "div"; Bs4.hd_attrs := [("class", "dish-category-section")] |};
        Bs4.head dish_section ]
      dish
  with
  | Bs4.Element t => t
  | Bs4.Text _ => empty_page
  end.

(** The element that holds the image of the first dish of [dish_section]. *)
Definition zinger_image : Bs4.tag :=
  {| Bs4.parents :=
       [ {| Bs4.hd_name := "picture";
            Bs4.hd_attrs := [("class", "product-tile__image")] |};
         {| Bs4.hd_name := "li"; Bs4.hd_attrs := [] |};
         {| Bs4.hd_name := "ul"; Bs4.hd_attrs := [("class", "dish-list-grid")] |};
         {| Bs4.hd_name := "div"; Bs4.hd_attrs := [("class", "dish-category-section")] |};
         Bs4.head dish_section ];
     Bs4.name := "div";
     Bs4.attrs :=
       [("style", "background-image: url('https://images.example/zinger.jpg')")];
     Bs4.children := [] |}.

(** ** A browser that scrolls *)

(** A browser whose page is scrolled step by step: the world is the number
    of calls of [scrollTo] made so far and [height] gives the height of the
    page after that many. The page itself stays as it is. *)
Definition scroll_driver (page : Bs4.tag) (height : nat -> nat) : WebDriver nat :=
  {| do_get := fun _ w => (w, Returns tt);
     do_page_source := fun w => (w, Returns page);
     do_wait_presence := fun _ sel w =>
       (w, if present page sel then Returns tt else Raises TimeoutException);
     do_wait_absence := fun _ sel w =>
       (w, if present page sel then Raises TimeoutException else Returns tt);
     do_scroll_to := fun _ w => (S w, Returns tt);
     do_scroll_to_bottom := fun w => (w, Returns tt);
     do_scroll_height := fun w => (w, Returns (height w));
     do_find_element_click := fun sel w =>
       (w, if present page sel then Returns tt
           else Raises (Exception "no such element"));
     do_input := fun _ w => (w, Returns tt);
     do_quit := fun w => (w, Returns tt);
     do_sleep := fun w => w |}.

(** A page that loads more, 300 pixels of it, at every step of scrolling. *)
Definition endless_page : WebDriver nat :=
  scroll_driver restaurant_page (fun scrolls => 1000 + 300 * scrolls).

(** A page that has loaded all of itself after three steps of scrolling. *)
Definition lazy_page : WebDriver nat :=
  scroll_driver restaurant_page (fun scrolls => 1000 + 300 * Nat.min scrolls 3).

(** C8 in the words of the specification: every extractor returns a value,
    [_get_menu] as the others. *)
Definition extractors_are_total : Prop :=
  forall (W : Type) (driver : WebDriver W) (soup : Bs4.tag) (w : W),
    exists fuel w' menu, _get_menu driver fuel soup w = (w', Ok menu).

(** ** Markup with its line breaks *)

(** The string between two tags that stand on lines of their own. *)
Definition line_break : Bs4.node := Bs4.NavigableString (String Re.newline "").

(** A restaurant page whose two containers stand on lines of their own
    under the menu root, as [html.parser] reads
    [<div class="menu">\n<div ...>...</div>\n<div ...>...</div>\n</div>]. *)
Definition page_with_line_breaks : Bs4.tag :=
  Bs4.BeautifulSoup
    [Bs4.Tag "html" []
       [Bs4.Tag "body" []
          (restaurant_body
             [tab "Deals (1)"; tab "Drinks (1)"]
             [line_break; dish_list [zinger]; line_break; dish_list [cola];
              line_break])]].

(** The child containers of the menu root: its children that are tags. *)
Definition child_containers (snapshot : Bs4.tag) : list Bs4.page_element :=
  filter (fun child => match child with
                       | Bs4.Element _ => true
                       | Bs4.Text _ => false
                       end)
    (menu_containers snapshot).

(** C7 in the words of the specification: the Nth tab with the Nth child
    container. *)
Definition container_pairing (snapshot : Bs4.tag) : list MenuCategory.t :=
  flat_map paired_entry (combine (category_tabs snapshot) (child_containers snapshot)).
(** * Properties *)

(** ** Reasoning on computations *)

Lemma bind_Ok {W A B : Type} (c : M W A) (f : A -> M W B) (w w' : W) (b : B) :
  bind c f w = (w', Ok b) ->
  exists w1 a, c w = (w1, Ok a) /\ f a w1 = (w', Ok b).
Proof.
  unfold bind. destruct (c w) as [w1 [a | e |]]; intros H; try discriminate.
  exists w1, a. split; [reflexivity | exact H].
Qed.

Lemma try_except_Ok {W A : Type} (c : M W A) (h : exn -> M W A) (w w' : W) (a : A) :
  try_except c h w = (w', Ok a) ->
  c w = (w', Ok a) \/ exists w1 e, c w = (w1, Raise e) /\ h e w1 = (w', Ok a).
Proof.
  unfold try_except. destruct (c w) as [w1 [a1 | e |]]; intros H.
  - left. exact H.
  - right. exists w1, e. split; [reflexivity | exact H].
  - discriminate.
Qed.

(** A handler that returns a default turns every exception into a value:
    the outcome is a value, or the lack of fuel of the body. *)
Lemma try_except_default {W A : Type} (c : M W A) (d : exn -> A) (w : W) :
  (exists w' a, try_except c (fun e => ret (d e)) w = (w', Ok a))
  \/ (exists w', try_except c (fun e => ret (d e)) w = (w', OutOfFuel)
                 /\ c w = (w', OutOfFuel)).
Proof.
  unfold try_except, ret. destruct (c w) as [w1 [a | e |]].
  - left. exists w1, a. reflexivity.
  - left. exists w1, (d e). reflexivity.
  - right. exists w1. split; reflexivity.
Qed.

Lemma call_not_OutOfFuel {W A : Type} (act : action W A) (w : W) :
  snd (call act w) <> OutOfFuel.
Proof.
  unfold call. destruct (act w) as [w' [a | e]]; simpl; discriminate.
Qed.

(** Unfolds a computation on the browser down to the calls and splits on
    what every call answers. *)
Ltac run_step :=
  match goal with
  | |- context [call ?act ?w] =>
      let H := fresh "Hcall" in
      let Hn := fresh "Hn" in
      destruct (call act w) as [? [? | ? |]] eqn:H;
      [ | | exfalso; pose proof (call_not_OutOfFuel act w) as Hn;
            rewrite H in Hn; simpl in Hn; congruence ]
  | |- context [is_timeout ?e] => destruct e
  end.

Ltac run :=
  unfold try_except, except_timeout, bind, ret, raise, lift, get, page_source,
    wait_presence, wait_absence, scroll_to, scroll_to_bottom, scroll_height,
    find_element_click, input, quit, time_sleep;
  repeat (simpl; run_step); simpl.

(** ** Extractors return *)

Lemma _get_text_returns (soup : Bs4.tag) (selector : Bs4.selector) (default : string) :
  exists v, _get_text soup selector default = Ok v.
Proof.
  unfold _get_text. destruct (Bs4.select_one soup selector); simpl; eauto.
Qed.

Lemma _get_image_returns (soup : Bs4.tag) : exists v, _get_image soup = Ok v.
Proof.
  unfold _get_image.
  repeat match goal with
         | |- context [src_of ?s ?sel] => destruct (src_of s sel)
         end; simpl; eauto.
Qed.

Lemma _get_cuisines_returns (soup : Bs4.tag) : exists v, _get_cuisines soup = Ok v.
Proof. unfold _get_cuisines. simpl. eauto. Qed.

Lemma get_coordinate_returns (key : string) (soup : Bs4.tag) :
  exists v, get_coordinate key soup = Ok v.
Proof.
  unfold get_coordinate.
  destruct (Bs4.select_one soup _) as [meta |]; simpl; eauto.
  destruct (Bs4.get_truthy meta "content"); simpl; eauto.
Qed.

Lemma _get_city_returns (soup : Bs4.tag) : exists v, _get_city soup = Ok v.
Proof.
  unfold _get_city.
  repeat match goal with
         | |- context [match ?x with Some _ => _ | None => _ end] => destruct x
         end; simpl; eauto.
Qed.

Lemma _get_price_range_returns (soup : Bs4.tag) :
  exists v, _get_price_range soup = Ok v.
Proof.
  unfold _get_price_range.
  repeat match goal with
         | |- context [match ?x with Some _ => _ | None => _ end] => destruct x
         end; simpl; eauto.
Qed.

Lemma _get_email_returns (soup : Bs4.tag) : exists v, _get_email soup = Ok v.
Proof.
  unfold _get_email. destruct (Re.search email_pattern _); simpl; eauto.
Qed.

Lemma _get_phone_returns (soup : Bs4.tag) : exists v, _get_phone soup = Ok v.
Proof.
  unfold _get_phone. destruct (Re.search phone_pattern _); simpl; eauto.
Qed.

Lemma items_loop_returns (menu_items : list Bs4.tag) :
  forall items, exists v, items_loop menu_items items = Ok v.
Proof.
  induction menu_items as [| item_elem rest IH]; intros items; simpl; eauto.
  destruct (_get_text_returns item_elem menu_product_name "") as [name ->].
  destruct (_get_text_returns item_elem product_tile_description "") as [d ->].
  destruct (_get_text_returns item_elem menu_product_price "") as [p ->].
  simpl. apply IH.
Qed.

Lemma containers_loop_returns (item_containers : list Bs4.tag) :
  forall items, exists v, containers_loop item_containers items = Ok v.
Proof.
  induction item_containers as [| container rest IH]; intros items; simpl; eauto.
  destruct (items_loop_returns (Bs4.select container li) items) as [items' ->].
  simpl. apply IH.
Qed.

Lemma item_selectors_loop_no_fuel (selectors : list Bs4.selector) :
  forall container items, item_selectors_loop selectors container items <> OutOfFuel.
Proof.
  induction selectors as [| selector rest IH]; intros container items; simpl.
  - discriminate.
  - destruct container as [t | s]; simpl; [| discriminate].
    destruct (containers_loop_returns (Bs4.select t selector) items) as [items' ->].
    simpl. apply IH.
Qed.

Lemma _get_menu_items_returns (container : Bs4.page_element) :
  exists v, _get_menu_items container = Ok v.
Proof.
  unfold _get_menu_items.
  pose proof (item_selectors_loop_no_fuel item_selectors container []) as H.
  destruct (item_selectors_loop item_selectors container []); simpl; eauto.
  contradiction.
Qed.

Lemma categories_loop_no_fuel (soup : Bs4.tag) (category_elements : list Bs4.tag) :
  forall i menu, categories_loop soup category_elements i menu <> OutOfFuel.
Proof.
  induction category_elements as [| category_elem rest IH]; intros i menu; simpl.
  - discriminate.
  - destruct (Bs4.select_one soup div_menu) as [root |]; [| apply IH].
    destruct (nth_error (Bs4.contents root) i) as [c |]; [| discriminate].
    destruct (_get_menu_items_returns c) as [menu_items ->]. simpl. apply IH.
Qed.

Lemma category_selectors_loop_no_fuel (soup : Bs4.tag) (selectors : list Bs4.selector) :
  forall menu, category_selectors_loop soup selectors menu <> OutOfFuel.
Proof.
  induction selectors as [| selector rest IH]; intros menu; simpl.
  - discriminate.
  - pose proof (categories_loop_no_fuel soup (Bs4.select soup selector) 0 menu) as H.
    destruct (categories_loop soup (Bs4.select soup selector) 0 menu); simpl;
      [apply IH | discriminate | contradiction].
Qed.

Section ExtractorsReturn.
Context {W : Type}.
Variable driver : WebDriver W.

Lemma _get_address_returns (soup : Bs4.tag) (w : W) :
  exists w' v, _get_address driver soup w = (w', Ok v).
Proof. unfold _get_address. run; eauto. Qed.

Lemma _get_state_returns (soup : Bs4.tag) (w : W) :
  exists w' v, _get_state driver soup w = (w', Ok v).
Proof.
  unfold _get_state.
  destruct (Bs4.select_one soup (meta_property "og:region")) as [meta |].
  - destruct (Bs4.get_truthy meta "content").
    + run; eauto.
    + destruct (_get_address_returns soup w) as (w' & v & H).
      unfold try_except, bind. rewrite H. simpl. eauto.
  - destruct (_get_address_returns soup w) as (w' & v & H).
    unfold try_except, bind. rewrite H. simpl. eauto.
Qed.

Lemma _get_postal_code_returns (soup : Bs4.tag) (w : W) :
  exists w' v, _get_postal_code driver soup w = (w', Ok v).
Proof.
  unfold _get_postal_code.
  destruct (_get_address_returns soup w) as (w' & v & H).
  unfold try_except, bind. rewrite H.
  destruct (Re.search postal_pattern v); simpl; eauto.
Qed.

(** [scrolled_snapshot] gives a snapshot unless it is still scrolling when
    the fuel ends; it never raises. *)
Lemma scrolled_snapshot_outcome (fuel : nat) (soup : Bs4.tag) (w : W) :
  (exists w' snapshot, scrolled_snapshot driver fuel soup w = (w', Ok snapshot))
  \/ (exists w', scrolled_snapshot driver fuel soup w = (w', OutOfFuel)).
Proof.
  unfold scrolled_snapshot.
  destruct (try_except_default
              (last_height <- scroll_height driver ;;
               scroll_down driver fuel last_height ;;
               page_source driver) (fun _ => soup) w)
    as [(w' & a & H) | (w' & H & _)]; [left | right]; eauto.
Qed.

Lemma _get_menu_outcome (fuel : nat) (soup : Bs4.tag) (w : W) :
  match scrolled_snapshot driver fuel soup w with
  | (w', OutOfFuel) => _get_menu driver fuel soup w = (w', OutOfFuel)
  | (w', _) => exists v, _get_menu driver fuel soup w = (w', Ok v)
  end.
Proof.
  unfold _get_menu, try_except, bind, lift, ret.
  destruct (scrolled_snapshot_outcome fuel soup w) as [(w' & s & H) | (w' & H)];
    rewrite H; [| reflexivity].
  pose proof (category_selectors_loop_no_fuel s category_selectors []) as Hn.
  destruct (category_selectors_loop s category_selectors []); eauto.
  contradiction.
Qed.

End ExtractorsReturn.

(** ** The scroll loop of [_get_menu] *)

Section ScrollDriver.
Variable page : Bs4.tag.
Variable height : nat -> nat.

Lemma scroll_steps_on_scroll_driver (ys : list nat) :
  forall w, scroll_steps (scroll_driver page height) ys w = (w + length ys, Ok tt).
Proof.
  induction ys as [| i rest IH]; intros w; cbn [scroll_steps length].
  - unfold ret. rewrite Nat.add_0_r. reflexivity.
  - unfold bind, scroll_to, time_sleep, call.
    cbn [scroll_driver do_scroll_to do_sleep]. rewrite IH. f_equal. lia.
Qed.

(** One pass of the loop of [_get_menu]. *)
Lemma scroll_down_step (fuel last_height w : nat) :
  scroll_down (scroll_driver page height) (S fuel) last_height w
  = let w' := w + length (range0 last_height 300) in
    if height w' =? last_height then (w', Ok tt)
    else scroll_down (scroll_driver page height) fuel (height w') w'.
Proof.
  cbn [scroll_down]. unfold bind at 1. rewrite scroll_steps_on_scroll_driver.
  unfold bind, scroll_height, call, ret. cbn [scroll_driver do_scroll_height].
  cbv zeta. destruct (height _ =? last_height); reflexivity.
Qed.

Lemma range0_steps (stop : nat) :
  (stop = 0 -> length (range0 stop 300) = 0)
  /\ (0 < stop -> 0 < length (range0 stop 300)).
Proof.
  unfold range0. rewrite length_map, length_seq. split.
  - intros ->. reflexivity.
  - intros H. apply Nat.div_str_pos. lia.
Qed.

(** A page that grows at every step of scrolling: the loop does not end. *)
Lemma scroll_down_of_growing_page :
  (forall w w', w < w' -> height w < height w') ->
  forall fuel last_height w,
    0 < last_height <= height w ->
    exists w', scroll_down (scroll_driver page height) fuel last_height w
               = (w', OutOfFuel).
Proof.
  intros Hgrow. induction fuel as [| fuel IH]; intros last_height w Hlast.
  - exists w. reflexivity.
  - rewrite scroll_down_step. cbv zeta.
    destruct (range0_steps last_height) as [_ Hsteps].
    specialize (Hsteps (proj1 Hlast)).
    set (w' := w + length (range0 last_height 300)) in *.
    assert (Hlt : height w < height w') by (apply Hgrow; unfold w'; lia).
    destruct (height w' =? last_height) eqn:E.
    + apply Nat.eqb_eq in E. lia.
    + apply IH. lia.
Qed.

(** A page that stops growing after [N] steps of scrolling: the loop ends
    within [N + 1] passes. *)
Lemma scroll_down_of_page_that_ends (N : nat) :
  (forall w, N <= w -> height w = height N) ->
  forall fuel w,
    1 <= fuel -> N < fuel + w ->
    exists w', scroll_down (scroll_driver page height) fuel (height w) w = (w', Ok tt).
Proof.
  intros Hends. induction fuel as [| fuel IH]; intros w Hfuel Hbound; [lia |].
  rewrite scroll_down_step. cbv zeta.
  set (w' := w + length (range0 (height w) 300)) in *.
  destruct (height w' =? height w) eqn:E; [eauto |].
  apply Nat.eqb_neq in E.
  assert (Hw : w < N).
  { destruct (Nat.lt_ge_cases w N) as [Hlt | Hge]; [exact Hlt |].
    exfalso. apply E. rewrite (Hends w Hge), (Hends w'); [reflexivity |].
    unfold w'. lia. }
  assert (Hstep : w < w').
  { destruct (Nat.eq_dec w' w) as [Heq | Hne]; [| unfold w' in *; lia].
    exfalso. apply E. rewrite Heq. reflexivity. }
  apply IH; lia.
Qed.

End ScrollDriver.

Section MenuReturns.
Context {W : Type}.
Variable driver : WebDriver W.

Lemma scroll_steps_no_fuel (ys : list nat) :
  forall w, snd (scroll_steps driver ys w) <> OutOfFuel.
Proof.
  induction ys as [| i rest IH]; intros w; cbn [scroll_steps].
  - discriminate.
  - unfold bind, scroll_to, time_sleep, call.
    destruct (do_scroll_to driver i w) as [w1 [[] | e]]; [| discriminate].
    apply IH.
Qed.

Lemma _get_menu_no_raise (fuel : nat) (soup : Bs4.tag) (w w' : W) (e : exn) :
  _get_menu driver fuel soup w <> (w', Raise e).
Proof.
  unfold _get_menu.
  match goal with
  | |- try_except ?c _ _ <> _ =>
      destruct (try_except_default c (fun _ => @nil MenuCategory.t) w)
        as [(w1 & a & H) | (w1 & H & _)]
  end; rewrite H; discriminate.
Qed.

(** Where the page has one height whenever it is measured, the first pass
    of scrolling is the last. *)
Lemma scrolled_snapshot_of_steady_page (h fuel : nat) (soup : Bs4.tag) (w : W) :
  (forall w0, exists w1, do_scroll_height driver w0 = (w1, Returns h)) ->
  exists w' snapshot,
    scrolled_snapshot driver (S fuel) soup w = (w', Ok snapshot).
Proof.
  intros Hsteady.
  destruct (scrolled_snapshot_outcome driver (S fuel) soup w)
    as [H | (w' & H)]; [exact H | exfalso].
  unfold scrolled_snapshot, try_except, bind, scroll_height, call in H.
  destruct (Hsteady w) as (w1 & Hh). rewrite Hh in H.
  cbn [scroll_down] in H. unfold bind in H.
  pose proof (scroll_steps_no_fuel (range0 h 300) w1) as Hsteps.
  destruct (scroll_steps driver (range0 h 300) w1) as [w2 [[] | e |]];
    [| discriminate | apply Hsteps; reflexivity].
  unfold scroll_height, call in H.
  destruct (Hsteady w2) as (w3 & Hh'). rewrite Hh' in H.
  rewrite Nat.eqb_refl in H. unfold ret, page_source, call in H.
  destruct (do_page_source driver w3) as [w4 [p | e]]; discriminate.
Qed.

Lemma _get_menu_of_snapshot (fuel : nat) (soup snapshot : Bs4.tag) (w w' : W) :
  scrolled_snapshot driver fuel soup w = (w', Ok snapshot) ->
  exists menu, _get_menu driver fuel soup w = (w', Ok menu).
Proof.
  intros H. pose proof (_get_menu_outcome driver fuel soup w) as Hout.
  rewrite H in Hout. exact Hout.
Qed.

End MenuReturns.

Lemma _get_menu_of_growing_page (page : Bs4.tag) (height : nat -> nat)
    (fuel : nat) (soup : Bs4.tag) (w : nat) :
  (forall w w', w < w' -> height w < height w') ->
  0 < height w ->
  exists w', _get_menu (scroll_driver page height) fuel soup w = (w', OutOfFuel).
Proof.
  intros Hgrow Hpos.
  destruct (scroll_down_of_growing_page page height Hgrow fuel (height w) w) as [w' H];
    [lia |].
  exists w'. unfold _get_menu, scrolled_snapshot, try_except, bind, scroll_height, call.
  cbn [scroll_driver do_scroll_height]. fold (scroll_driver page height).
  rewrite H. reflexivity.
Qed.

Lemma _get_menu_of_page_that_ends (page : Bs4.tag) (height : nat -> nat)
    (N fuel : nat) (soup : Bs4.tag) :
  (forall w, N <= w -> height w = height N) ->
  N < fuel ->
  exists w' menu, _get_menu (scroll_driver page height) fuel soup 0 = (w', Ok menu).
Proof.
  intros Hends Hfuel.
  destruct (scroll_down_of_page_that_ends page height N Hends fuel 0) as [w' H];
    [lia | lia |].
  assert (Hs : scrolled_snapshot (scroll_driver page height) fuel soup 0 = (w', Ok page)).
  { unfold scrolled_snapshot, try_except, bind, scroll_height, page_source, call.
    cbn [scroll_driver do_scroll_height]. fold (scroll_driver page height).
    rewrite H. reflexivity. }
  exists w'. apply (_get_menu_of_snapshot _ _ _ _ _ _ Hs).
Qed.

(** C8 as it is stated fails: on a page that grows with every step of
    scrolling, the loop of [_get_menu] goes on, whatever the fuel, and
    [_get_menu] returns nothing. *)
Lemma menu_of_endless_page_does_not_return : ~ extractors_are_total.
Proof.
  intros H. destruct (H nat endless_page empty_page 0) as (fuel & w' & menu & Hmenu).
  destruct (_get_menu_of_growing_page restaurant_page (fun scrolls => 1000 + 300 * scrolls)
              fuel empty_page 0) as [w'' Hout]; [intros; lia | lia |].
  unfold endless_page in Hmenu. rewrite Hout in Hmenu. discriminate.
Qed.

(** C8, amended: no extractor raises, a failure inside is caught and turned
    into the default, the given default for a text whose element is
    missing, the empty list for the items of a container that cannot be
    searched and for a menu whose extraction raises. The extractors that do
    not scroll return on every snapshot, whatever the browser answers.
    [_get_menu] returns as soon as its scrolling has come to an end: in the
    first pass where the page has one height whenever it is measured,
    within [N + 1] passes on a page that stops growing after [N] steps of
    scrolling; on a page that grows with every step it does not return. *)
Theorem extractors_never_raise (soup : Bs4.tag) :
  (forall selector default,
      (exists v, _get_text soup selector default = Ok v)
      /\ (Bs4.select_one soup selector = None ->
          _get_text soup selector default = Ok default))
  /\ (exists v, _get_image soup = Ok v)
  /\ (exists v, _get_cuisines soup = Ok v)
  /\ (exists v, _get_latitude soup = Ok v)
  /\ (exists v, _get_longitude soup = Ok v)
  /\ (exists v, _get_city soup = Ok v)
  /\ (exists v, _get_price_range soup = Ok v)
  /\ (exists v, _get_email soup = Ok v)
  /\ (exists v, _get_phone soup = Ok v)
  /\ (forall container,
        (exists v, _get_menu_items container = Ok v)
        /\ (forall s, container = Bs4.Text s -> _get_menu_items container = Ok []))
  /\ (forall (W : Type) (driver : WebDriver W) (w : W),
        (exists w' v, _get_address driver soup w = (w', Ok v))
        /\ (exists w' v, _get_state driver soup w = (w', Ok v))
        /\ (exists w' v, _get_postal_code driver soup w = (w', Ok v))
        /\ (forall fuel w' e, _get_menu driver fuel soup w <> (w', Raise e))
        /\ (forall fuel,
              match scrolled_snapshot driver fuel soup w with
              | (w', OutOfFuel) => _get_menu driver fuel soup w = (w', OutOfFuel)
              | (w', Raise _) => False
              | (w', Ok snapshot) =>
                  (exists v, _get_menu driver fuel soup w = (w', Ok v))
                  /\ (forall e,
                        category_selectors_loop snapshot category_selectors [] = Raise e ->
                        _get_menu driver fuel soup w = (w', Ok []))
              end)
        /\ (forall h fuel,
              (forall w0, exists w1, do_scroll_height driver w0 = (w1, Returns h)) ->
              exists w' v, _get_menu driver (S fuel) soup w = (w', Ok v)))
  /\ (forall (page : Bs4.tag) (height : nat -> nat) (N fuel : nat),
        (forall w, N <= w -> height w = height N) ->
        N < fuel ->
        exists w' v, _get_menu (scroll_driver page height) fuel soup 0 = (w', Ok v))
  /\ (forall (page : Bs4.tag) (height : nat -> nat) (fuel w : nat),
        (forall w0 w1, w0 < w1 -> height w0 < height w1) ->
        0 < height w ->
        exists w', _get_menu (scroll_driver page height) fuel soup w = (w', OutOfFuel)).
Proof.
  repeat split.
  - apply _get_text_returns.
  - intros H. unfold _get_text. rewrite H. reflexivity.
  - apply _get_image_returns.
  - apply _get_cuisines_returns.
  - apply get_coordinate_returns.
  - apply get_coordinate_returns.
  - apply _get_city_returns.
  - apply _get_price_range_returns.
  - apply _get_email_returns.
  - apply _get_phone_returns.
  - apply _get_menu_items_returns.
  - intros s ->. reflexivity.
  - apply _get_address_returns.
  - apply _get_state_returns.
  - apply _get_postal_code_returns.
  - intros fuel w' e. apply _get_menu_no_raise.
  - intros fuel.
    pose proof (_get_menu_outcome driver fuel soup w) as H.
    destruct (scrolled_snapshot_outcome driver fuel soup w)
      as [(w' & s & Hs) | (w' & Hs)]; rewrite Hs in *; [| exact H].
    split; [exact H |].
    intros e He. unfold _get_menu, try_except, bind, lift, ret.
    rewrite Hs, He. reflexivity.
  - intros h fuel Hsteady.
    destruct (scrolled_snapshot_of_steady_page driver h fuel soup w Hsteady)
      as (w' & snapshot & Hs).
    exists w'. apply (_get_menu_of_snapshot driver _ _ _ _ _ Hs).
  - intros page height N fuel Hends Hfuel.
    apply (_get_menu_of_page_that_ends page height N fuel soup Hends Hfuel).
  - intros page height fuel w Hgrow Hpos.
    apply (_get_menu_of_growing_page page height fuel soup w Hgrow Hpos).
Qed.

(** The page of a simulated browser keeps its height, so one pass of
    scrolling is enough for [_get_menu] to return. *)
Example _get_menu_returns_on_static_page :
  _get_menu (static_driver page_with_extra_tab) 1 empty_page 0 = (0, Ok [])
  /\ category_selectors_loop page_with_extra_tab category_selectors [] = Raise IndexError.
Proof. split; vm_compute; reflexivity. Qed.

(** On a page that has loaded all of itself after three steps of scrolling
    the second pass of the loop is the last. *)
Example _get_menu_returns_on_lazy_page :
  _get_menu lazy_page 1 empty_page 0 = (4, OutOfFuel)
  /\ _get_menu lazy_page 2 empty_page 0 = (11, Ok (Restaurant.menu kfc)).
Proof. split; vm_compute; reflexivity. Qed.

(** ** The constant fields of a record *)

Section Details.
Context {W : Type}.
Variable driver : WebDriver W.

Lemma extract_restaurant_details_fields (fuel : nat) (url : string) (w w' : W)
    (r : Restaurant.t) :
  extract_restaurant_details driver fuel url w = (w', Ok (Details r)) ->
  Restaurant.state r = "punjab"
  /\ Restaurant.city r = "Lahore"
  /\ Restaurant.country_code r = "PK"
  /\ Restaurant.postal_code r = "54000"
  /\ Restaurant.price_range r = "$$$"
  /\ Restaurant.email r = ""
  /\ Restaurant.phone r = "".
Proof.
  unfold extract_restaurant_details. intros H.
  apply try_except_Ok in H. destruct H as [H | (w1 & e & _ & H)].
  - repeat (apply bind_Ok in H; destruct H as (? & ? & _ & H)).
    unfold ret in H. injection H as _ <-. simpl. repeat split; reflexivity.
  - unfold ret in H. discriminate.
Qed.

(** The menu of a record is the one [_get_menu] returned. *)
Lemma extract_restaurant_details_menu (fuel : nat) (url : string) (w w' : W)
    (r : Restaurant.t) :
  extract_restaurant_details driver fuel url w = (w', Ok (Details r)) ->
  exists soup w1 w2, _get_menu driver fuel soup w1 = (w2, Ok (Restaurant.menu r)).
Proof.
  unfold extract_restaurant_details. intros H.
  apply try_except_Ok in H. destruct H as [H | (w1 & e & _ & H)].
  - do 4 (apply bind_Ok in H; destruct H as (? & ? & _ & H)).
    apply bind_Ok in H. destruct H as (w1 & soup & _ & H).
    do 5 (apply bind_Ok in H; destruct H as (? & ? & _ & H)).
    apply bind_Ok in H. destruct H as (w2 & menu & Hmenu & H).
    apply bind_Ok in H. destruct H as (? & ? & _ & H).
    unfold ret in H. injection H as _ <-. simpl. eauto.
  - unfold ret in H. discriminate.
Qed.

End Details.

(** C10: the administrative and contact fields of a successfully extracted
    record do not depend on the page: state is "punjab", city is "Lahore",
    country_code is "PK", postal_code is "54000", price_range is "$$$",
    email and phone are empty, so two runs on any two pages, with any two
    browsers, agree on them. *)
Theorem constant_fields_agree {W1 W2 : Type} (driver1 : WebDriver W1)
    (driver2 : WebDriver W2) (fuel1 fuel2 : nat) (url1 url2 : string)
    (w1 w1' : W1) (w2 w2' : W2) (r1 r2 : Restaurant.t) :
  extract_restaurant_details driver1 fuel1 url1 w1 = (w1', Ok (Details r1)) ->
  extract_restaurant_details driver2 fuel2 url2 w2 = (w2', Ok (Details r2)) ->
  (Restaurant.state r1 = "punjab"
   /\ Restaurant.city r1 = "Lahore"
   /\ Restaurant.country_code r1 = "PK"
   /\ Restaurant.postal_code r1 = "54000"
   /\ Restaurant.price_range r1 = "$$$"
   /\ Restaurant.email r1 = ""
   /\ Restaurant.phone r1 = "")
  /\ (Restaurant.state r1 = Restaurant.state r2
      /\ Restaurant.city r1 = Restaurant.city r2
      /\ Restaurant.country_code r1 = Restaurant.country_code r2
      /\ Restaurant.postal_code r1 = Restaurant.postal_code r2
      /\ Restaurant.price_range r1 = Restaurant.price_range r2
      /\ Restaurant.email r1 = Restaurant.email r2
      /\ Restaurant.phone r1 = Restaurant.phone r2).
Proof.
  intros H1 H2.
  apply extract_restaurant_details_fields in H1.
  apply extract_restaurant_details_fields in H2.
  destruct H1 as (-> & -> & -> & -> & -> & -> & ->).
  destruct H2 as (-> & -> & -> & -> & -> & -> & ->).
  repeat split; reflexivity.
Qed.

Lemma extract_kfc :
  extract_restaurant_details (static_driver restaurant_page) 1 "https://www.foodpanda.pk/restaurant/s9iz/kfc" 0
  = (0, Ok (Details kfc)).
Proof. vm_compute. reflexivity. Qed.

Lemma extract_page_with_extra_tab :
  extract_restaurant_details (static_driver page_with_extra_tab) 1
    "https://www.foodpanda.pk/restaurant/k1k1/kfc-mall" 0
  = (0, Ok (Details kfc_without_menu)).
Proof. vm_compute. reflexivity. Qed.

(** C3 as it is stated fails: on [restaurant_page] the patterns find a
    postal code, an email address and a phone number, and the record holds
    none of them. *)
Lemma contact_fields_not_by_regex : ~ contact_fields_by_regex.
Proof.
  intros H.
  destruct (H restaurant_page _ 0 0 kfc extract_kfc) as (_ & Hemail & _).
  vm_compute in Hemail. discriminate.
Qed.

(** C3, amended: the postal_code, email and phone of a successfully
    extracted record do not come from the page: postal_code is "54000",
    email and phone are empty, whatever the address and the text of the
    page hold. *)
Theorem contact_fields_are_constants {W : Type} (driver : WebDriver W)
    (fuel : nat) (url : string) (w w' : W) (r : Restaurant.t) :
  extract_restaurant_details driver fuel url w = (w', Ok (Details r)) ->
  Restaurant.postal_code r = "54000"
  /\ Restaurant.email r = ""
  /\ Restaurant.phone r = "".
Proof.
  intros H. apply extract_restaurant_details_fields in H.
  destruct H as (_ & _ & _ & Hp & _ & He & Hph). auto.
Qed.

Lemma contact_fields_are_constants_witness :
  extract_restaurant_details (static_driver restaurant_page) 1
    "https://www.foodpanda.pk/restaurant/s9iz/kfc" 0 = (0, Ok (Details kfc))
  /\ snd (_get_postal_code (static_driver restaurant_page) restaurant_page 0) = Ok "54660"
  /\ _get_email restaurant_page = Ok "info@kfc.example"
  /\ _get_phone restaurant_page = Ok "042 111 2222"
  /\ Restaurant.postal_code kfc = "54000"
  /\ Restaurant.email kfc = ""
  /\ Restaurant.phone kfc = "".
Proof.
  split; [exact extract_kfc |].
  split; [vm_compute; reflexivity |].
  split; [vm_compute; reflexivity |].
  split; [vm_compute; reflexivity |].
  exact (contact_fields_are_constants (static_driver restaurant_page) 1
           "https://www.foodpanda.pk/restaurant/s9iz/kfc" 0 0 kfc extract_kfc).
Defined.

Lemma constant_fields_agree_witness :
  extract_restaurant_details (static_driver restaurant_page) 1
    "https://www.foodpanda.pk/restaurant/s9iz/kfc" 0 = (0, Ok (Details kfc))
  /\ extract_restaurant_details (static_driver page_with_extra_tab) 1
       "https://www.foodpanda.pk/restaurant/k1k1/kfc-mall" 0
     = (0, Ok (Details kfc_without_menu))
  /\ (Restaurant.state kfc = "punjab"
      /\ Restaurant.city kfc = "Lahore"
      /\ Restaurant.country_code kfc = "PK"
      /\ Restaurant.postal_code kfc = "54000"
      /\ Restaurant.price_range kfc = "$$$"
      /\ Restaurant.email kfc = ""
      /\ Restaurant.phone kfc = "")
  /\ (Restaurant.state kfc = Restaurant.state kfc_without_menu
      /\ Restaurant.city kfc = Restaurant.city kfc_without_menu
      /\ Restaurant.country_code kfc = Restaurant.country_code kfc_without_menu
      /\ Restaurant.postal_code kfc = Restaurant.postal_code kfc_without_menu
      /\ Restaurant.price_range kfc = Restaurant.price_range kfc_without_menu
      /\ Restaurant.email kfc = Restaurant.email kfc_without_menu
      /\ Restaurant.phone kfc = Restaurant.phone kfc_without_menu).
Proof.
  split; [exact extract_kfc |].
  split; [exact extract_page_with_extra_tab |].
  exact (constant_fields_agree (static_driver restaurant_page)
           (static_driver page_with_extra_tab) 1 1 _ _ 0 0 0 0 kfc kfc_without_menu
           extract_kfc extract_page_with_extra_tab).
Defined.

(** ** Flattening and the two files *)

Lemma flatten_items_spec (basic_info : Row.basic_info) (cat_name : string)
    (items : list MenuItem.t) :
  forall flattened_data,
    flatten_items basic_info cat_name items flattened_data
    = (flattened_data ++ map (item_data basic_info cat_name) items)%list.
Proof.
  induction items as [| item rest IH]; intros acc; simpl.
  - rewrite app_nil_r. reflexivity.
  - rewrite IH, <- app_assoc. reflexivity.
Qed.

Lemma flatten_menu_spec (basic_info : Row.basic_info) (menu : list MenuCategory.t) :
  forall flattened_data,
    flatten_menu basic_info menu flattened_data
    = (flattened_data ++ menu_rows basic_info menu)%list.
Proof.
  induction menu as [| category rest IH]; intros acc; simpl.
  - rewrite app_nil_r. reflexivity.
  - rewrite IH, flatten_items_spec, <- app_assoc. reflexivity.
Qed.

Lemma length_menu_rows (basic_info : Row.basic_info) (menu : list MenuCategory.t) :
  length (menu_rows basic_info menu) = total_items menu.
Proof.
  unfold total_items. induction menu as [| c rest IH]; simpl; [reflexivity |].
  rewrite length_app, length_map, IH. reflexivity.
Qed.

(** A menu as [_get_menu] builds it has an item as soon as it has a
    category. *)
Lemma total_items_accumulated (menu : list MenuCategory.t) :
  Forall (fun c => MenuCategory.items c <> []) menu ->
  (total_items menu =? 0) = negb (nonempty menu).
Proof.
  unfold total_items. intros H. destruct H as [| c rest Hc _]; simpl; [reflexivity |].
  destruct (MenuCategory.items c); [contradiction | reflexivity].
Qed.

Lemma flatten_spec (data : list scraped) :
  Forall accumulated data ->
  forall flattened_data,
    flatten data flattened_data = (flattened_data ++ flat_map entity_rows data)%list.
Proof.
  induction 1 as [| e rest He _ IH]; intros acc; simpl.
  - rewrite app_nil_r. reflexivity.
  - destruct e as [r url | url error]; simpl in *.
    + rewrite (total_items_accumulated _ He).
      destruct (nonempty (Restaurant.menu r)); simpl.
      * rewrite IH, flatten_menu_spec, <- app_assoc. reflexivity.
      * rewrite IH, <- app_assoc. reflexivity.
    + apply IH.
Qed.

Lemma basic_of_entity_rows (r : Restaurant.t) (url : string) :
  Forall (fun row => Row.basic row = basic_info_of r url) (entity_rows (Scraped r url)).
Proof.
  simpl. destruct (total_items (Restaurant.menu r) =? 0).
  - repeat constructor.
  - apply Forall_forall. intros row Hin. apply in_flat_map in Hin.
    destruct Hin as (c & _ & Hin). apply in_map_iff in Hin.
    destruct Hin as (item & <- & _). reflexivity.
Qed.

(** The columns of a restaurant in each of its rows are the values of its
    dictionary, the cuisines joined by ", ", and its URL. *)
Lemma entity_rows_columns (r : Restaurant.t) (url : string) (row : Row.t) :
  In row (entity_rows (Scraped r url)) ->
  Row.name (Row.basic row) = Restaurant.name r
  /\ Row.image (Row.basic row) = Restaurant.image r
  /\ Row.state (Row.basic row) = Restaurant.state r
  /\ Row.city (Row.basic row) = Restaurant.city r
  /\ Row.country_code (Row.basic row) = Restaurant.country_code r
  /\ Row.postal_code (Row.basic row) = Restaurant.postal_code r
  /\ Row.email (Row.basic row) = Restaurant.email r
  /\ Row.cuisines (Row.basic row) = Str.join ", " (Restaurant.cuisines r)
  /\ Row.latitude (Row.basic row) = Restaurant.latitude r
  /\ Row.longitude (Row.basic row) = Restaurant.longitude r
  /\ Row.price_range (Row.basic row) = Restaurant.price_range r
  /\ Row.phone (Row.basic row) = Restaurant.phone r
  /\ Row.address (Row.basic row) = Restaurant.address r
  /\ Row.url (Row.basic row) = url.
Proof.
  intros Hin.
  assert (Hbasic : Row.basic row = basic_info_of r url).
  { pose proof (basic_of_entity_rows r url) as H.
    rewrite Forall_forall in H. apply H. exact Hin. }
  rewrite Hbasic. unfold basic_info_of. cbn.
  repeat split; reflexivity.
Qed.

(** The item columns of the rows of a restaurant: those of its menu items,
    category after category, each with the name of its category; none in
    the one row of a restaurant without menu item. *)
Lemma entity_rows_items (r : Restaurant.t) (url : string) :
  map Row.item (entity_rows (Scraped r url))
  = if total_items (Restaurant.menu r) =? 0 then [None]
    else flat_map
           (fun c =>
              map (fun item =>
                     Some {| Row.menu_category := MenuCategory.category c;
                             Row.menu_item_name := MenuItem.name item;
                             Row.menu_item_description := MenuItem.description item;
                             Row.menu_item_price := MenuItem.price item;
                             Row.menu_item_image := MenuItem.image item |})
                (MenuCategory.items c))
           (Restaurant.menu r).
Proof.
  simpl. destruct (total_items (Restaurant.menu r) =? 0); [reflexivity |].
  unfold menu_rows.
  induction (Restaurant.menu r) as [| c rest IH]; simpl; [reflexivity |].
  rewrite map_app, IH, map_map. reflexivity.
Qed.

(** C4: for a sequence as [scrape] accumulates it, the rows computed at a
    flush are the rows of the entities one after the other, in the order of
    the sequence; an entity flagged as an error has no row, a restaurant
    with no menu item has exactly one row, without item columns, any other
    restaurant has one row per menu item, in the order of the menu, with
    the category and the name, description, price and image of the item;
    every row of a restaurant repeats the values of its dictionary, the
    cuisines joined by ", ", and its URL; the JSON file gets one entry per
    entity, the failed ones too. *)
Theorem flattened_rows (data : list scraped) (fs : files) :
  Forall accumulated data ->
  flatten data [] = flat_map entity_rows data
  /\ (forall before e after,
        data = (before ++ e :: after)%list ->
        flatten data []
        = (flatten before [] ++ entity_rows e ++ flatten after [])%list)
  /\ (forall url error, entity_rows (Failed url error) = [])
  /\ (forall r url,
        length (entity_rows (Scraped r url))
        = (if total_items (Restaurant.menu r) =? 0 then 1
           else total_items (Restaurant.menu r))
        /\ Forall (fun row => Row.basic row = basic_info_of r url)
             (entity_rows (Scraped r url))
        /\ (forall row,
              In row (entity_rows (Scraped r url)) ->
              Row.name (Row.basic row) = Restaurant.name r
              /\ Row.image (Row.basic row) = Restaurant.image r
              /\ Row.state (Row.basic row) = Restaurant.state r
              /\ Row.city (Row.basic row) = Restaurant.city r
              /\ Row.country_code (Row.basic row) = Restaurant.country_code r
              /\ Row.postal_code (Row.basic row) = Restaurant.postal_code r
              /\ Row.email (Row.basic row) = Restaurant.email r
              /\ Row.cuisines (Row.basic row) = Str.join ", " (Restaurant.cuisines r)
              /\ Row.latitude (Row.basic row) = Restaurant.latitude r
              /\ Row.longitude (Row.basic row) = Restaurant.longitude r
              /\ Row.price_range (Row.basic row) = Restaurant.price_range r
              /\ Row.phone (Row.basic row) = Restaurant.phone r
              /\ Row.address (Row.basic row) = Restaurant.address r
              /\ Row.url (Row.basic row) = url)
        /\ map Row.item (entity_rows (Scraped r url))
           = (if total_items (Restaurant.menu r) =? 0 then [None]
              else flat_map
                     (fun c =>
                        map (fun item =>
                               Some {| Row.menu_category := MenuCategory.category c;
                                       Row.menu_item_name := MenuItem.name item;
                                       Row.menu_item_description :=
                                         MenuItem.description item;
                                       Row.menu_item_price := MenuItem.price item;
                                       Row.menu_item_image := MenuItem.image item |})
                          (MenuCategory.items c))
                     (Restaurant.menu r)))
  /\ foodpanda_data_json (_save_data data fs) = Some data
  /\ (flatten data [] <> [] ->
      foodpanda_data_csv (_save_data data fs) = Some (flatten data [])).
Proof.
  intros Hacc.
  split; [apply (flatten_spec data Hacc []) |].
  split.
  { intros before e after ->.
    rewrite (flatten_spec _ Hacc []).
    apply Forall_app in Hacc. destruct Hacc as [Hb Ha].
    inversion Ha as [| ? ? _ Ha']; subst.
    rewrite (flatten_spec _ Hb []), (flatten_spec _ Ha' []).
    simpl. rewrite flat_map_app. reflexivity. }
  split; [reflexivity |].
  split.
  { intros r url.
    split.
    { simpl. destruct (total_items (Restaurant.menu r) =? 0); [reflexivity |].
      apply length_menu_rows. }
    split; [apply basic_of_entity_rows |].
    split; [apply entity_rows_columns | apply entity_rows_items]. }
  split.
  - unfold _save_data. destruct (nonempty (flatten data [])); reflexivity.
  - intros Hne. unfold _save_data.
    destruct (flatten data []); [contradiction | reflexivity].
Qed.

Lemma three_entities_accumulated : Forall accumulated three_entities.
Proof.
  repeat constructor; simpl; discriminate.
Qed.

Lemma flattened_rows_witness :
  Forall accumulated three_entities
  /\ flatten three_entities [] = flat_map entity_rows three_entities
  /\ flatten three_entities []
     = [ {| Row.basic :=
              {| Row.name := "KFC"; Row.image := "kfc.png"; Row.state := "punjab";
                 Row.city := "Lahore"; Row.country_code := "PK";
                 Row.postal_code := "54000"; Row.email := "";
                 Row.cuisines := "Fast Food, Burgers";
                 Row.latitude := ""; Row.longitude := ""; Row.price_range := "$$$";
                 Row.phone := ""; Row.address := "12 Mall Road, Lahore 54660";
                 Row.url := "https://www.foodpanda.pk/restaurant/s9iz/kfc" |};
            Row.item :=
              Some {| Row.menu_category := "Deals";
                      Row.menu_item_name := "Zinger";
                      Row.menu_item_description := "Crispy fillet burger";
                      Row.menu_item_price := "500";
                      Row.menu_item_image := "https://images.example/zinger.jpg" |} |};
         {| Row.basic :=
              {| Row.name := "KFC"; Row.image := "kfc.png"; Row.state := "punjab";
                 Row.city := "Lahore"; Row.country_code := "PK";
                 Row.postal_code := "54000"; Row.email := "";
                 Row.cuisines := "Fast Food, Burgers";
                 Row.latitude := ""; Row.longitude := ""; Row.price_range := "$$$";
                 Row.phone := ""; Row.address := "12 Mall Road, Lahore 54660";
                 Row.url := "https://www.foodpanda.pk/restaurant/s9iz/kfc" |};
            Row.item :=
              Some {| Row.menu_category := "Drinks";
                      Row.menu_item_name := "Cola";
                      Row.menu_item_description := "";
                      Row.menu_item_price := "120";
                      Row.menu_item_image := "" |} |};
         {| Row.basic :=
              {| Row.name := "KFC"; Row.image := "kfc.png"; Row.state := "punjab";
                 Row.city := "Lahore"; Row.country_code := "PK";
                 Row.postal_code := "54000"; Row.email := "";
                 Row.cuisines := "Fast Food, Burgers";
                 Row.latitude := ""; Row.longitude := ""; Row.price_range := "$$$";
                 Row.phone := ""; Row.address := "12 Mall Road, Lahore 54660";
                 Row.url := "https://www.foodpanda.pk/restaurant/k1k1/kfc-mall" |};
            Row.item := None |} ]
  /\ foodpanda_data_json (_save_data three_entities no_files) = Some three_entities
  /\ foodpanda_data_csv (_save_data three_entities no_files)
     = Some (flatten three_entities []).
Proof.
  split; [exact three_entities_accumulated |].
  destruct (flattened_rows three_entities no_files three_entities_accumulated)
    as (Hrows & _ & _ & _ & Hjson & Hcsv).
  split; [exact Hrows |].
  split; [vm_compute; reflexivity |].
  split; [exact Hjson |].
  apply Hcsv. vm_compute. discriminate.
Defined.

(** Data that [scrape] does not accumulate can fall outside the statement:
    a restaurant whose only category has no item gets no row at all. *)
Example empty_category_has_no_row :
  ~ accumulated (Scraped kfc_with_empty_category "https://www.foodpanda.pk/restaurant/s9iz/kfc")
  /\ flatten [Scraped kfc_with_empty_category "https://www.foodpanda.pk/restaurant/s9iz/kfc"] []
     = [].
Proof.
  split; [| vm_compute; reflexivity].
  intros H. inversion H as [| ? ? Hitems _]. apply Hitems. reflexivity.
Qed.

(** C5 as it is stated fails: when the flattening gives no row the CSV
    file is not written, so what it holds after the flush is what it held
    before. *)
Lemma flush_keeps_old_csv : ~ flush_is_function_of_data.
Proof.
  intros H.
  specialize (H [Failed "https://www.foodpanda.pk/restaurant/x0x0/gone" "Message: "]
                no_files
                {| foodpanda_data_json := None;
                   foodpanda_data_csv := Some (flatten three_entities []) |}).
  vm_compute in H. discriminate.
Qed.

(** C5, amended: a flush is idempotent; it overwrites the JSON file with
    the accumulated sequence; it overwrites the CSV file with the rows of
    the sequence when there is at least one row, and then both files are a
    function of the sequence alone, whatever they held before; when there is
    no row the CSV file is left as it was. *)
Theorem flush_idempotent (data : list scraped) (fs : files) :
  _save_data data (_save_data data fs) = _save_data data fs
  /\ foodpanda_data_json (_save_data data fs) = Some data
  /\ (flatten data [] <> [] ->
      forall fs',
        _save_data data fs
        = {| foodpanda_data_json := Some data;
             foodpanda_data_csv := Some (flatten data []) |}
        /\ _save_data data fs = _save_data data fs')
  /\ (flatten data [] = [] ->
      foodpanda_data_csv (_save_data data fs) = foodpanda_data_csv fs).
Proof.
  unfold _save_data. destruct (flatten data []) as [| row rows]; simpl.
  - split; [reflexivity |]. split; [reflexivity |].
    split; [intros Hne; contradiction | reflexivity].
  - split; [reflexivity |]. split; [reflexivity |].
    split; [intros _ fs'; split; reflexivity | intros Hnil; discriminate].
Qed.

(** ** The menu: tabs and containers *)

Lemma skipn_nth_error {A : Type} (l : list A) :
  forall i,
    skipn i l = match nth_error l i with
                | Some c => c :: skipn (S i) l
                | None => []
                end.
Proof.
  induction l as [| a l IH]; intros [| i]; simpl; try reflexivity.
  apply IH.
Qed.

(** The loop over the tabs from index [i] on: it pairs the tabs left with
    the containers from [i] on, or raises when the tabs outnumber them. *)
Lemma categories_loop_spec (soup : Bs4.tag) (tabs : list Bs4.tag) :
  forall i menu,
    match Bs4.select_one soup div_menu with
    | None => categories_loop soup tabs i menu = Ok menu
    | Some root =>
        if length tabs <=? length (skipn i (Bs4.contents root))
        then categories_loop soup tabs i menu
             = Ok (menu ++ flat_map paired_entry
                             (combine tabs (skipn i (Bs4.contents root))))%list
        else categories_loop soup tabs i menu = Raise IndexError
    end.
Proof.
  induction tabs as [| t rest IH]; intros i menu; simpl.
  - destruct (Bs4.select_one soup div_menu); [| reflexivity].
    simpl. rewrite app_nil_r. reflexivity.
  - destruct (Bs4.select_one soup div_menu) as [root |] eqn:Hroot.
    + rewrite (skipn_nth_error (Bs4.contents root) i).
      specialize (IH (S i)). try rewrite Hroot in IH. cbv beta iota in IH.
      remember (skipn (S i) (Bs4.contents root)) as tail eqn:Htail. clear Htail.
      destruct (nth_error (Bs4.contents root) i) as [c |]; simpl; [| reflexivity].
      destruct (_get_menu_items_returns c) as [menu_items Hitems].
      rewrite Hitems. simpl.
      specialize (IH (if nonempty menu_items
                      then (menu ++ [{| MenuCategory.category := category_name_of t;
                                        MenuCategory.items := menu_items |}])%list
                      else menu)).
      destruct (length rest <=? length tail); [| exact IH].
      rewrite IH. unfold paired_entry at 2. simpl. rewrite Hitems.
      destruct menu_items; simpl; [reflexivity |].
      rewrite <- app_assoc. reflexivity.
    + specialize (IH (S i) menu). try rewrite Hroot in IH. exact IH.
Qed.

Lemma category_selectors_loop_spec (snapshot : Bs4.tag) :
  if length (category_tabs snapshot) <=? length (menu_containers snapshot)
  then category_selectors_loop snapshot category_selectors []
       = Ok (positional_pairing snapshot)
  else category_selectors_loop snapshot category_selectors [] = Ok []
       \/ category_selectors_loop snapshot category_selectors [] = Raise IndexError.
Proof.
  unfold category_selectors, category_selectors_loop, positional_pairing,
    menu_containers.
  fold (category_tabs snapshot).
  pose proof (categories_loop_spec snapshot (category_tabs snapshot) 0 []) as H.
  destruct (Bs4.select_one snapshot div_menu) as [root |]; simpl in *.
  - destruct (length (category_tabs snapshot) <=? length (Bs4.contents root));
      rewrite H; simpl; auto.
  - rewrite H. simpl.
    destruct (category_tabs snapshot); simpl; auto.
Qed.

Lemma In_combine_nth_error {A B : Type} (l1 : list A) :
  forall (l2 : list B) a b,
    In (a, b) (combine l1 l2) ->
    exists N, nth_error l1 N = Some a /\ nth_error l2 N = Some b.
Proof.
  induction l1 as [| x l1 IH]; intros [| y l2] a b Hin; simpl in Hin; try contradiction.
  destruct Hin as [Heq | Hin].
  - injection Heq as -> ->. exists 0. split; reflexivity.
  - destruct (IH l2 a b Hin) as (N & H1 & H2). exists (S N). split; assumption.
Qed.

Lemma positional_pairing_sound (snapshot : Bs4.tag) (entry : MenuCategory.t) :
  In entry (positional_pairing snapshot) ->
  exists N tab container,
    nth_error (category_tabs snapshot) N = Some tab
    /\ nth_error (menu_containers snapshot) N = Some container
    /\ MenuCategory.category entry = category_name_of tab
    /\ _get_menu_items container = Ok (MenuCategory.items entry)
    /\ MenuCategory.items entry <> [].
Proof.
  unfold positional_pairing. intros Hin. apply in_flat_map in Hin.
  destruct Hin as ([tab container] & Hpair & Hin).
  apply In_combine_nth_error in Hpair. destruct Hpair as (N & Ht & Hc).
  exists N, tab, container. unfold paired_entry in Hin. simpl in Hin.
  destruct (_get_menu_items container) as [[| item rest] | |] eqn:Hitems;
    simpl in Hin; try contradiction.
  destruct Hin as [<- | []]. simpl.
  repeat split; try assumption; try reflexivity. discriminate.
Qed.

(** The menu that [_get_menu] returns pairs the category tabs with the
    children of the menu root by position, the strings among the children
    as the tags, on the snapshot taken after scrolling: every category of
    the result has the label of some Nth tab and the items of the Nth
    child, for the same N; when there are at least as many children as tabs
    the result is exactly the pairs, in order, whose child yields an item,
    so that a pair that is left out moves no later pair; when tabs are left
    without a child the result is empty. *)
Lemma menu_pairing_is_positional {W : Type} (driver : WebDriver W) (fuel : nat)
    (soup : Bs4.tag) (w w' : W) (menu : list MenuCategory.t) :
  _get_menu driver fuel soup w = (w', Ok menu) ->
  exists snapshot,
    scrolled_snapshot driver fuel soup w = (w', Ok snapshot)
    /\ (forall entry,
          In entry menu ->
          exists N tab container,
            nth_error (category_tabs snapshot) N = Some tab
            /\ nth_error (menu_containers snapshot) N = Some container
            /\ MenuCategory.category entry = category_name_of tab
            /\ _get_menu_items container = Ok (MenuCategory.items entry)
            /\ MenuCategory.items entry <> [])
    /\ (length (category_tabs snapshot) <= length (menu_containers snapshot) ->
        menu = positional_pairing snapshot)
    /\ (length (menu_containers snapshot) < length (category_tabs snapshot) ->
        menu = []).
Proof.
  intros H.
  pose proof (_get_menu_outcome driver fuel soup w) as Hout.
  destruct (scrolled_snapshot_outcome driver fuel soup w)
    as [(w1 & snapshot & Hs) | (w1 & Hs)]; rewrite Hs in Hout.
  2: { rewrite H in Hout. discriminate. }
  unfold _get_menu, try_except, bind, lift, ret in H. rewrite Hs in H.
  pose proof (category_selectors_loop_spec snapshot) as Hspec.
  exists snapshot.
  destruct (length (category_tabs snapshot) <=? length (menu_containers snapshot))
    eqn:Hlen.
  - apply Nat.leb_le in Hlen. rewrite Hspec in H. injection H as <- <-.
    split; [exact Hs |]. split; [apply positional_pairing_sound |].
    split; [reflexivity | lia].
  - apply Nat.leb_gt in Hlen.
    assert (Hmenu : w1 = w' /\ menu = []).
    { destruct Hspec as [Hspec | Hspec]; rewrite Hspec in H;
        injection H as <- <-; auto. }
    destruct Hmenu as [<- ->].
    split; [exact Hs |]. split; [intros entry [] |].
    split; [lia | reflexivity].
Qed.

Lemma menu_pairing_is_positional_witness :
  _get_menu (static_driver restaurant_page) 1 empty_page 0
  = (0, Ok (Restaurant.menu kfc))
  /\ length (category_tabs restaurant_page) = 3
  /\ length (menu_containers restaurant_page) = 3
  /\ exists snapshot,
       scrolled_snapshot (static_driver restaurant_page) 1 empty_page 0
       = (0, Ok snapshot)
       /\ (length (category_tabs snapshot) <= length (menu_containers snapshot) ->
           Restaurant.menu kfc = positional_pairing snapshot).
Proof.
  assert (H : _get_menu (static_driver restaurant_page) 1 empty_page 0
              = (0, Ok (Restaurant.menu kfc))) by (vm_compute; reflexivity).
  split; [exact H |].
  split; [vm_compute; reflexivity |].
  split; [vm_compute; reflexivity |].
  destruct (menu_pairing_is_positional (static_driver restaurant_page) 1 empty_page
              0 0 (Restaurant.menu kfc) H) as (snapshot & Hs & _ & Hfit & _).
  exists snapshot. split; assumption.
Defined.

(** C7: the Nth tab is paired with the Nth child of the menu root, and
    the strings between the containers are children as the containers are.
    On a page whose menu root holds the container of Zinger and the
    container of Cola on lines of their own, under the tabs Deals and
    Drinks, [_get_menu] pairs Deals with the line break before the first
    container, which yields no item, and Drinks with the container of
    Zinger: it returns Zinger under Drinks and leaves Cola out, where the
    Nth tab with the Nth child container gives Zinger under Deals and Cola
    under Drinks. *)
Theorem line_breaks_shift_the_pairing (fuel : nat) :
  map category_name_of (category_tabs page_with_line_breaks) = ["Deals"; "Drinks"]
  /\ length (menu_containers page_with_line_breaks) = 5
  /\ length (child_containers page_with_line_breaks) = 2
  /\ _get_menu (static_driver page_with_line_breaks) (S fuel) empty_page 0
     = (0, Ok [ {| MenuCategory.category := "Drinks";
                   MenuCategory.items :=
                     [ {| MenuItem.name := "Zinger";
                          MenuItem.description := "Crispy fillet burger";
                          MenuItem.price := "500";
                          MenuItem.image := "https://images.example/zinger.jpg" |} ] |} ])
  /\ container_pairing page_with_line_breaks
     = [ {| MenuCategory.category := "Deals";
            MenuCategory.items :=
              [ {| MenuItem.name := "Zinger";
                   MenuItem.description := "Crispy fillet burger";
                   MenuItem.price := "500";
                   MenuItem.image := "https://images.example/zinger.jpg" |} ] |};
         {| MenuCategory.category := "Drinks";
            MenuCategory.items :=
              [ {| MenuItem.name := "Cola";
                   MenuItem.description := "";
                   MenuItem.price := "120";
                   MenuItem.image := "" |} ] |} ].
Proof.
  split; [vm_compute; reflexivity |].
  split; [vm_compute; reflexivity |].
  split; [vm_compute; reflexivity |].
  split; [| vm_compute; reflexivity].
  assert (Hs : scrolled_snapshot (static_driver page_with_line_breaks) (S fuel)
                 empty_page 0 = (0, Ok page_with_line_breaks))
    by reflexivity.
  unfold _get_menu, try_except, bind, lift. rewrite Hs.
  vm_compute. reflexivity.
Qed.

(** ** Matching the patterns on texts of a given shape *)

Lemma list_ascii_of_string_app (s1 s2 : string) :
  list_ascii_of_string (s1 ++ s2)
  = (list_ascii_of_string s1 ++ list_ascii_of_string s2)%list.
Proof. induction s1; simpl; congruence. Qed.

Section Matching.
Context {R : Type}.
Implicit Types (k : @Re.cont R) (cap : option (list ascii)).

Lemma m_chr (c : ascii) bef tl cap k :
  Re.m (Re.chr c) {| Re.before := bef; Re.rest := c :: tl |} cap k
  = k {| Re.before := c :: bef; Re.rest := tl |} cap.
Proof. simpl. rewrite Ascii.eqb_refl. reflexivity. Qed.

Lemma m_chr_other (c c' : ascii) bef tl cap k :
  Ascii.eqb c c' = false ->
  Re.m (Re.chr c) {| Re.before := bef; Re.rest := c' :: tl |} cap k = None.
Proof. intros H. simpl. rewrite H. reflexivity. Qed.

Lemma m_lit (s : string) :
  forall bef tl cap k,
    Re.m (Re.lit s)
      {| Re.before := bef; Re.rest := (list_ascii_of_string s ++ tl)%list |} cap k
    = k {| Re.before := (rev (list_ascii_of_string s) ++ bef)%list; Re.rest := tl |} cap.
Proof.
  induction s as [| c s IH]; intros bef tl cap k.
  - reflexivity.
  - destruct s as [| c' s'].
    + apply m_chr.
    + change (Re.lit (String c (String c' s')))
        with (Re.Cat (Re.chr c) (Re.lit (String c' s'))).
      change (list_ascii_of_string (String c (String c' s')))
        with (c :: list_ascii_of_string (String c' s')).
      cbn [Re.m app]. rewrite m_chr, IH.
      cbn [rev]. rewrite <- app_assoc. reflexivity.
Qed.

Lemma class_step_m (f : ascii -> bool) : class_step (R := R) f (Re.m (Re.Class f)).
Proof. intros p cap k. reflexivity. Qed.

(** A greedy repetition of a class takes the whole of a run of the class
    that ends the input or is followed by another character. *)
Lemma greedy_class_loop (f : ascii -> bool) step k (x : R) (suffix : list ascii)
    cap (lo : nat) :
  class_step f step ->
  match suffix with [] => True | c :: _ => f c = false end ->
  forall u bef fuel n,
    length u < fuel ->
    lo <= n + length u ->
    forallb f u = true ->
    k {| Re.before := (rev u ++ bef)%list; Re.rest := suffix |} cap = Some x ->
    Re.rep_loop step true lo None k fuel n
      {| Re.before := bef; Re.rest := (u ++ suffix)%list |} cap = Some x.
Proof.
  intros Hstep Hstop.
  induction u as [| c u IH]; intros bef fuel n Hfuel Hlo Hf Hend.
  - destruct fuel as [| fuel]; [simpl in Hfuel; lia |].
    simpl in Hlo. assert (Hn : (n <? lo) = false) by (apply Nat.ltb_ge; lia).
    simpl. rewrite Hn, Hstep. simpl. destruct suffix as [| c tl]; simpl.
    + exact Hend.
    + rewrite Hstop. exact Hend.
  - destruct fuel as [| fuel]; [simpl in Hfuel; lia |].
    simpl in Hf. apply andb_prop in Hf. destruct Hf as [Hc Hf].
    assert (Hrec : Re.rep_loop step true lo None k fuel (S n)
                     {| Re.before := c :: bef; Re.rest := (u ++ suffix)%list |} cap
                   = Some x).
    { apply IH.
      - simpl in Hfuel. lia.
      - simpl in Hlo. lia.
      - exact Hf.
      - simpl in Hend. rewrite <- app_assoc in Hend. exact Hend. }
    simpl. destruct (n <? lo); rewrite Hstep; simpl; rewrite Hc;
      unfold Re.advance; simpl; rewrite Hrec; reflexivity.
Qed.

(** A lazy repetition of a class stops at the first place where the rest
    of the pattern matches. *)
Lemma lazy_class_loop (f : ascii -> bool) step k (x : R) (suffix : list ascii) cap :
  class_step f step ->
  forall u bef fuel n,
    length u < fuel ->
    forallb f u = true ->
    (forall u1 c u2,
        u = (u1 ++ c :: u2)%list ->
        k {| Re.before := (rev u1 ++ bef)%list;
             Re.rest := (c :: u2 ++ suffix)%list |} cap = None) ->
    k {| Re.before := (rev u ++ bef)%list; Re.rest := suffix |} cap = Some x ->
    Re.rep_loop step false 0 None k fuel n
      {| Re.before := bef; Re.rest := (u ++ suffix)%list |} cap = Some x.
Proof.
  intros Hstep.
  induction u as [| c u IH]; intros bef fuel n Hfuel Hf Hinner Hend.
  - destruct fuel; simpl in *; rewrite Hend; reflexivity.
  - destruct fuel as [| fuel]; [simpl in Hfuel; lia |].
    simpl in Hf. apply andb_prop in Hf. destruct Hf as [Hc Hf].
    pose proof (Hinner [] c u eq_refl) as H0. simpl in H0.
    simpl. rewrite H0. rewrite Hstep. simpl. rewrite Hc. unfold Re.advance. simpl.
    apply IH.
    + simpl in Hfuel. lia.
    + exact Hf.
    + intros u1 c' u2 ->. specialize (Hinner (c :: u1) c' u2 eq_refl).
      simpl in Hinner. rewrite <- app_assoc in Hinner. exact Hinner.
    + simpl in Hend. rewrite <- app_assoc in Hend. exact Hend.
Qed.

(** An optional character that is there and after which the rest matches. *)
Lemma opt_class_taken (f : ascii -> bool) k (x : R) c bef tl cap :
  f c = true ->
  k {| Re.before := c :: bef; Re.rest := tl |} cap = Some x ->
  Re.m (Re.opt (Re.Class f)) {| Re.before := bef; Re.rest := c :: tl |} cap k
  = Some x.
Proof.
  intros Hc Hk. simpl. rewrite Hc. unfold Re.advance. simpl.
  destruct (length tl); simpl; rewrite Hk; reflexivity.
Qed.

(** An optional character, where the rest matches neither with it nor
    without it. *)
Lemma opt_class_none (f : ascii -> bool) k c bef tl cap :
  k {| Re.before := c :: bef; Re.rest := tl |} cap = None ->
  k {| Re.before := bef; Re.rest := c :: tl |} cap = None ->
  Re.m (Re.opt (Re.Class f)) {| Re.before := bef; Re.rest := c :: tl |} cap k
  = None.
Proof.
  intros H1 H0. simpl. destruct (f c); simpl.
  - unfold Re.advance. simpl. destruct (length tl); simpl; rewrite H1; exact H0.
  - exact H0.
Qed.

End Matching.

Lemma search_from_here (r : Re.regex) (bef l : list ascii) (mo : Re.match_object) :
  Re.match_at r {| Re.before := bef; Re.rest := l |} = Some mo ->
  Re.search_from r bef l = Some mo.
Proof. intros H. destruct l; simpl; rewrite H; reflexivity. Qed.

Lemma consumed_app (u bef tl tl' : list ascii) :
  Re.consumed {| Re.before := bef; Re.rest := tl |}
    {| Re.before := (rev u ++ bef)%list; Re.rest := tl' |} = u.
Proof.
  unfold Re.consumed. simpl.
  rewrite length_app, length_rev.
  replace (length u + length bef - length bef) with (length (rev u))
    by (rewrite length_rev; lia).
  rewrite firstn_app, firstn_all, Nat.sub_diag. simpl.
  rewrite app_nil_r. apply rev_involutive.
Qed.

Lemma plain_url_chars (u : list ascii) :
  forallb (fun c => negb (Ascii.eqb c ")") && negb (Ascii.eqb c Re.newline)) u = true ->
  forallb (fun c => negb (Ascii.eqb c Re.newline)) u = true
  /\ Forall (fun c => Ascii.eqb c ")" = false) u.
Proof.
  induction u as [| c u IH]; cbn [forallb]; intros H.
  - split; [reflexivity | constructor].
  - apply andb_prop in H. destruct H as [Hc Hu].
    apply andb_prop in Hc. destruct Hc as [Hp Hn].
    destruct (IH Hu) as [IH1 IH2]. rewrite Hn, IH1. split; [reflexivity |].
    constructor; [| exact IH2].
    apply negb_true_iff. exact Hp.
Qed.

Lemma search_from_skip (r : Re.regex) (skipped : list ascii) :
  forall bef l,
    (forall s1 c s2,
        skipped = (s1 ++ c :: s2)%list ->
        Re.match_at r {| Re.before := (rev s1 ++ bef)%list;
                         Re.rest := (c :: s2 ++ l)%list |} = None) ->
    Re.search_from r bef (skipped ++ l)
    = Re.search_from r (rev skipped ++ bef)%list l.
Proof.
  induction skipped as [| c skipped IH]; intros bef l H.
  - reflexivity.
  - pose proof (H [] c skipped eq_refl) as H0. simpl in H0.
    simpl. rewrite H0. rewrite IH.
    + rewrite <- app_assoc. reflexivity.
    + intros s1 c' s2 ->. specialize (H (c :: s1) c' s2 eq_refl).
      simpl in H. rewrite <- app_assoc in H. exact H.
Qed.

(** [re.search(r'\d+', text)] finds the first run of digits of the text,
    whole. *)
Lemma price_pattern_first_digit_run (pre digits post : string) :
  no_digit pre = true ->
  digits_only digits = true ->
  no_digit_first post = true ->
  option_map Re.group0 (Re.search price_pattern (pre ++ digits ++ post))
  = Some digits.
Proof.
  unfold no_digit, digits_only, no_digit_first. intros Hpre Hdigits Hpost.
  apply andb_prop in Hdigits. destruct Hdigits as [Hne Hdigits].
  unfold Re.search. rewrite !list_ascii_of_string_app.
  rewrite search_from_skip.
  - eassert (Hm : Re.match_at price_pattern
                   {| Re.before := (rev (list_ascii_of_string pre) ++ [])%list;
                      Re.rest := (list_ascii_of_string digits
                                  ++ list_ascii_of_string post)%list |}
                 = Some _).
    { unfold Re.match_at, price_pattern, Re.plus, Re.digit. cbn [Re.m Re.rest].
      apply (greedy_class_loop Str.isdigit (Re.m (Re.Class Str.isdigit)));
        [apply class_step_m | | rewrite length_app; lia | | exact Hdigits |].
      - destruct post as [| c post]; simpl; [exact I |].
        apply negb_true_iff. exact Hpost.
      - destruct digits; [discriminate | simpl; lia].
      - reflexivity. }
    rewrite (search_from_here _ _ _ _ Hm). simpl.
    rewrite consumed_app, string_of_list_ascii_of_string. reflexivity.
  - intros s1 c s2 Hs. rewrite Hs in Hpre.
    rewrite forallb_app in Hpre. apply andb_prop in Hpre. destruct Hpre as [_ Hc].
    simpl in Hc. apply andb_prop in Hc. destruct Hc as [Hc _].
    apply negb_true_iff in Hc.
    unfold Re.match_at, price_pattern, Re.plus, Re.digit. simpl. rewrite Hc.
    reflexivity.
Qed.

(** ** The style of an image *)

Section MoreMatching.
Context {R : Type}.
Implicit Types (k : @Re.cont R) (cap : option (list ascii)).

Lemma opt_class_absent (f : ascii -> bool) k c bef tl cap :
  f c = false ->
  Re.m (Re.opt (Re.Class f)) {| Re.before := bef; Re.rest := c :: tl |} cap k
  = k {| Re.before := bef; Re.rest := c :: tl |} cap.
Proof. intros Hc. simpl. rewrite Hc. reflexivity. Qed.

Lemma m_chr_end (c : ascii) bef cap k :
  Re.m (Re.chr c) {| Re.before := bef; Re.rest := [] |} cap k = None.
Proof. reflexivity. Qed.

Lemma prefix_cons (a b : ascii) (s1 s2 : string) :
  String.prefix (String a s1) (String b s2) = Ascii.eqb a b && String.prefix s1 s2.
Proof.
  simpl. destruct (Ascii.ascii_dec a b) as [-> | Hne].
  - rewrite Ascii.eqb_refl. reflexivity.
  - apply Ascii.eqb_neq in Hne. rewrite Hne. reflexivity.
Qed.

(** A literal that the input does not go on with does not match. *)
Lemma m_lit_none (s : string) :
  forall l bef cap k,
    String.prefix s (string_of_list_ascii l) = false ->
    Re.m (Re.lit s) {| Re.before := bef; Re.rest := l |} cap k = None.
Proof.
  induction s as [| c s IH]; intros l bef cap k H.
  - destruct l; discriminate.
  - destruct l as [| c' l]; [destruct s; reflexivity |].
    cbn [string_of_list_ascii] in H. rewrite prefix_cons in H.
    destruct (Ascii.eqb c c') eqn:Hc.
    + apply Ascii.eqb_eq in Hc. subst c'. cbn [andb] in H.
      destruct s as [| c2 s2].
      * destruct (string_of_list_ascii l); discriminate.
      * change (Re.lit (String c (String c2 s2)))
          with (Re.Cat (Re.chr c) (Re.lit (String c2 s2))).
        cbn [Re.m]. rewrite m_chr. apply IH. exact H.
    + destruct s as [| c2 s2].
      * apply m_chr_other. exact Hc.
      * change (Re.lit (String c (String c2 s2)))
          with (Re.Cat (Re.chr c) (Re.lit (String c2 s2))).
        cbn [Re.m]. apply m_chr_other. exact Hc.
Qed.

End MoreMatching.

Lemma is_quote_not_paren (c : ascii) : is_quote c = true -> Ascii.eqb ")" c = false.
Proof.
  unfold is_quote. intros H. apply orb_prop in H.
  destruct H as [H | H]; apply Ascii.eqb_eq in H; subst c; reflexivity.
Qed.

Section Closing.
Context {R : Type}.
Implicit Types (kf : @Re.cont R) (cap : option (list ascii)).

(** The end of the declaration: the quote, when there is one, and the
    parenthesis. *)
Lemma close_url kf (x : R) (q2 post bef : list ascii) cap :
  quote_or_none q2 ->
  kf {| Re.before := (")"%char :: rev q2 ++ bef)%list; Re.rest := post |} cap = Some x ->
  Re.m (Re.opt quote) {| Re.before := bef; Re.rest := (q2 ++ ")"%char :: post)%list |}
    cap (fun p c => Re.m (Re.chr ")") p c kf) = Some x.
Proof.
  intros [-> | (c & -> & Hc)] Hk.
  - cbn [app]. unfold quote. rewrite (opt_class_absent is_quote) by reflexivity.
    rewrite m_chr. exact Hk.
  - cbn [app]. unfold quote. apply (opt_class_taken is_quote); [exact Hc |].
    rewrite m_chr. exact Hk.
Qed.

(** Before the end of the URL the declaration does not close. *)
Lemma no_close_inside kf (u2 q2 post bef : list ascii) (c : ascii) cap :
  quote_or_none q2 ->
  Forall (fun c => Ascii.eqb c ")" = false) (c :: u2) ->
  (q2 = [] -> u2 = [] -> is_quote c = false) ->
  Re.m (Re.opt quote)
    {| Re.before := bef; Re.rest := (c :: u2 ++ q2 ++ ")"%char :: post)%list |}
    cap (fun p c => Re.m (Re.chr ")") p c kf) = None.
Proof.
  intros Hq2 Hparen Hlast.
  inversion Hparen as [| ? ? Hc Hu2]; subst.
  assert (Hhere : forall bef' cap',
             Re.m (Re.chr ")") {| Re.before := bef';
                                  Re.rest := (c :: u2 ++ q2 ++ ")"%char :: post)%list |}
               cap' kf = None).
  { intros bef' cap'. apply m_chr_other. rewrite Ascii.eqb_sym. exact Hc. }
  destruct u2 as [| c2 u2].
  - destruct Hq2 as [-> | (q & -> & Hq)].
    + unfold quote. rewrite (opt_class_absent is_quote) by (apply Hlast; reflexivity).
      apply Hhere.
    + unfold quote. apply (opt_class_none is_quote); [| apply Hhere].
      cbn [app]. apply m_chr_other. apply is_quote_not_paren. exact Hq.
  - unfold quote. apply (opt_class_none is_quote); [| apply Hhere].
    cbn [app]. apply m_chr_other. rewrite Ascii.eqb_sym.
    inversion Hu2; assumption.
Qed.

End Closing.

Section Declaration.
Context {R : Type}.
Implicit Types (kf : @Re.cont R) (cap : option (list ascii)).
Variables (u q2 post : list ascii).
Hypothesis Hq2 : quote_or_none q2.
Hypothesis Hlast : q2 = [] -> forall u1 c, u = (u1 ++ [c])%list -> is_quote c = false.
Hypothesis Hdot : forallb (fun c => negb (Ascii.eqb c Re.newline)) u = true.
Hypothesis Hparen : Forall (fun c => Ascii.eqb c ")" = false) u.

(** The group takes the URL, up to the first place where the declaration
    closes. *)
Lemma url_group kf (x : R) (bef : list ascii) cap :
  kf {| Re.before := (")"%char :: rev q2 ++ rev u ++ bef)%list; Re.rest := post |}
    (Some u) = Some x ->
  Re.m (Re.Group (Re.lazy_star Re.dot))
    {| Re.before := bef; Re.rest := (u ++ q2 ++ ")"%char :: post)%list |} cap
    (fun p c => Re.m (Re.opt quote) p c (fun p' c' => Re.m (Re.chr ")") p' c' kf))
  = Some x.
Proof.
  intros Hk. unfold Re.lazy_star. cbn [Re.m Re.rest].
  apply (lazy_class_loop (fun c => negb (Ascii.eqb c Re.newline)) (Re.m Re.dot));
    [apply class_step_m | rewrite length_app; simpl; lia | exact Hdot | |].
  - intros u1 c u2 Hu. apply no_close_inside.
    + exact Hq2.
    + rewrite Hu in Hparen. apply Forall_app in Hparen. apply Hparen.
    + intros Hq Hu2. subst u2. apply (Hlast Hq u1 c Hu).
  - rewrite consumed_app. apply close_url; [exact Hq2 | exact Hk].
Qed.

(** The same after the quote that opens the URL, when there is one. *)
Lemma url_declaration kf (x : R) (q1 bef : list ascii) cap :
  quote_or_none q1 ->
  (q1 = [] -> match (u ++ q2)%list with c :: _ => is_quote c = false | [] => True end) ->
  kf {| Re.before := (")"%char :: rev q2 ++ rev u ++ rev q1 ++ bef)%list;
        Re.rest := post |} (Some u) = Some x ->
  Re.m (Re.opt quote)
    {| Re.before := bef; Re.rest := (q1 ++ u ++ q2 ++ ")"%char :: post)%list |} cap
    (fun p c =>
       Re.m (Re.Group (Re.lazy_star Re.dot)) p c
         (fun p' c' =>
            Re.m (Re.opt quote) p' c' (fun p'' c'' => Re.m (Re.chr ")") p'' c'' kf)))
  = Some x.
Proof.
  intros [-> | (q & -> & Hq)] Hfirst Hk.
  - cbn [app rev] in *.
    assert (Hhead : exists c tl,
               (u ++ q2 ++ ")"%char :: post)%list = c :: tl /\ is_quote c = false).
    { specialize (Hfirst eq_refl).
      destruct u as [| c u'].
      - destruct Hq2 as [-> | (q & -> & Hq)].
        + exists ")"%char, post. split; reflexivity.
        + cbn [app] in Hfirst. congruence.
      - exists c, (u' ++ q2 ++ ")"%char :: post)%list. split; [reflexivity | exact Hfirst]. }
    destruct Hhead as (c & tl & Heq & Hc).
    unfold quote at 1. rewrite Heq, (opt_class_absent is_quote) by exact Hc.
    rewrite <- Heq. apply url_group. exact Hk.
  - cbn [app rev] in *. unfold quote at 1.
    apply (opt_class_taken is_quote); [exact Hq |].
    apply url_group. exact Hk.
Qed.

End Declaration.

Lemma background_image_match (bef ws q1 u q2 post : list ascii) :
  forallb Str.isspace ws = true ->
  quote_or_none q1 ->
  quote_or_none q2 ->
  (q1 = [] -> match (u ++ q2)%list with c :: _ => is_quote c = false | [] => True end) ->
  (q2 = [] -> forall u1 c, u = (u1 ++ [c])%list -> is_quote c = false) ->
  forallb (fun c => negb (Ascii.eqb c Re.newline)) u = true ->
  Forall (fun c => Ascii.eqb c ")" = false) u ->
  exists mo,
    Re.match_at background_image_pattern
      {| Re.before := bef;
         Re.rest := (list_ascii_of_string "background-image:"
                     ++ ws ++ list_ascii_of_string "url("
                     ++ q1 ++ u ++ q2 ++ ")"%char :: post)%list |} = Some mo
    /\ Re.group1 mo = Some (string_of_list_ascii u).
Proof.
  intros Hws Hq1 Hq2 Hfirst Hlast Hdot Hparen.
  eexists. split.
  - unfold Re.match_at, background_image_pattern.
    cbn [Re.seq Re.m]. rewrite m_lit.
    unfold Re.star. cbn [Re.m Re.rest].
    apply (greedy_class_loop Str.isspace (Re.m Re.space));
      [apply class_step_m | reflexivity | rewrite length_app; lia | lia | exact Hws |].
    rewrite m_lit.
    apply (url_declaration u q2 post Hq2 Hlast Hdot Hparen); [exact Hq1 | exact Hfirst |].
    reflexivity.
  - reflexivity.
Qed.

Lemma not_before_split (lit pre rest : string) :
  not_before lit pre rest = true ->
  forall s1 c s2,
    list_ascii_of_string pre = (s1 ++ c :: s2)%list ->
    String.prefix lit
      (string_of_list_ascii (c :: s2 ++ list_ascii_of_string rest)) = false.
Proof.
  induction pre as [| a pre IH]; intros H s1 c s2 Hsplit.
  - destruct s1; discriminate.
  - cbn [not_before] in H. apply andb_prop in H. destruct H as [Hhere Hlater].
    destruct s1 as [| a' s1]; cbn [list_ascii_of_string app] in Hsplit;
      injection Hsplit as -> Hs.
    + apply negb_true_iff in Hhere. rewrite <- Hs.
      change (c :: list_ascii_of_string pre ++ list_ascii_of_string rest)%list
        with (list_ascii_of_string (String c pre) ++ list_ascii_of_string rest)%list.
      rewrite <- list_ascii_of_string_app, string_of_list_ascii_of_string.
      exact Hhere.
    + apply (IH Hlater s1 c s2 Hs).
Qed.

Lemma quoting_quote_or_none (q : string) :
  quoting q = true -> quote_or_none (list_ascii_of_string q).
Proof.
  destruct q as [| c [| c' q]]; simpl; intros H.
  - left. reflexivity.
  - right. exists c. split; [reflexivity | exact H].
  - discriminate.
Qed.

(** The pattern of [_get_menu_items] on a style that declares a background
    image: the first group is the URL. *)
Lemma background_image_of_style (style url : string) :
  background_image_style style url ->
  exists mo,
    Re.search background_image_pattern style = Some mo
    /\ Re.group1 mo = Some url.
Proof.
  intros (pre & ws & q1 & q2 & post & Hstyle & Hpre & Hws & Hquoted & Hplain).
  cbv zeta in Hstyle, Hpre. subst style.
  unfold quoted in Hquoted.
  apply andb_prop in Hquoted. destruct Hquoted as [Hquoted Hend].
  apply andb_prop in Hquoted. destruct Hquoted as [Hquoted Hstart].
  apply andb_prop in Hquoted. destruct Hquoted as [Hq1 Hq2].
  unfold plain_url in Hplain. apply plain_url_chars in Hplain.
  destruct Hplain as [Hdot Hparen].
  destruct (background_image_match (rev (list_ascii_of_string pre) ++ [])%list
              (list_ascii_of_string ws) (list_ascii_of_string q1)
              (list_ascii_of_string url) (list_ascii_of_string q2)
              (list_ascii_of_string post) Hws
              (quoting_quote_or_none q1 Hq1) (quoting_quote_or_none q2 Hq2))
    as (mo & Hmatch & Hgroup); try assumption.
  - intros Hnone. destruct q1; [| discriminate].
    apply negb_true_iff in Hstart. rewrite <- list_ascii_of_string_app.
    destruct (url ++ q2); [exact I | exact Hstart].
  - intros Hnone u1 c Hu. destruct q2; [| discriminate].
    apply negb_true_iff in Hend. unfold ends_with_quote in Hend.
    rewrite Hu, rev_app_distr in Hend. exact Hend.
  - exists mo. split; [| rewrite Hgroup, string_of_list_ascii_of_string; reflexivity].
    unfold Re.search. rewrite list_ascii_of_string_app, search_from_skip.
    + apply search_from_here. rewrite <- Hmatch. do 2 f_equal.
      rewrite !list_ascii_of_string_app. reflexivity.
    + intros s1 c s2 Hsplit.
      unfold Re.match_at, background_image_pattern. cbn [Re.seq Re.m].
      apply m_lit_none. apply (not_before_split _ _ _ Hpre s1 c s2 Hsplit).
Qed.

(** ** Menu items *)

Lemma items_loop_names (menu_items : list Bs4.tag) :
  forall items emitted,
    Forall (fun item => MenuItem.name item <> "") items ->
    items_loop menu_items items = Ok emitted ->
    Forall (fun item => MenuItem.name item <> "") emitted.
Proof.
  induction menu_items as [| item_elem rest IH]; intros items emitted Hitems H.
  - simpl in H. injection H as <-. exact Hitems.
  - simpl in H.
    destruct (_get_text_returns item_elem menu_product_name "") as [name Hn].
    destruct (_get_text_returns item_elem product_tile_description "") as [d Hd].
    destruct (_get_text_returns item_elem menu_product_price "") as [p Hp].
    rewrite Hn, Hd, Hp in H. simpl in H.
    apply IH in H; [exact H |].
    destruct name as [| c name]; simpl; [exact Hitems |].
    apply Forall_app. split; [exact Hitems |].
    constructor; [simpl; discriminate | constructor].
Qed.

Lemma containers_loop_names (item_containers : list Bs4.tag) :
  forall items emitted,
    Forall (fun item => MenuItem.name item <> "") items ->
    containers_loop item_containers items = Ok emitted ->
    Forall (fun item => MenuItem.name item <> "") emitted.
Proof.
  induction item_containers as [| container rest IH]; intros items emitted Hitems H.
  - simpl in H. injection H as <-. exact Hitems.
  - simpl in H.
    destruct (items_loop (Bs4.select container li) items) as [items' | |] eqn:Hloop;
      simpl in H; try discriminate.
    apply (IH items' emitted); [| exact H].
    apply (items_loop_names _ items items' Hitems Hloop).
Qed.

Lemma item_selectors_loop_names (selectors : list Bs4.selector) :
  forall container items emitted,
    Forall (fun item => MenuItem.name item <> "") items ->
    item_selectors_loop selectors container items = Ok emitted ->
    Forall (fun item => MenuItem.name item <> "") emitted.
Proof.
  induction selectors as [| selector rest IH]; intros container items emitted Hitems H.
  - simpl in H. injection H as <-. exact Hitems.
  - simpl in H. destruct container as [t | s]; simpl in H; [| discriminate].
    destruct (containers_loop (Bs4.select t selector) items) as [items' | |] eqn:Hloop;
      simpl in H; try discriminate.
    apply IH in H; [exact H |].
    apply (containers_loop_names _ items items' Hitems Hloop).
Qed.

Lemma _get_menu_items_names (container : Bs4.page_element)
    (emitted : list MenuItem.t) :
  _get_menu_items container = Ok emitted ->
  Forall (fun item => MenuItem.name item <> "") emitted.
Proof.
  unfold _get_menu_items. intros H.
  destruct (item_selectors_loop item_selectors container []) as [items | e |] eqn:Hloop;
    simpl in H; try discriminate.
  - injection H as <-.
    apply (item_selectors_loop_names _ _ [] items (Forall_nil _) Hloop).
  - injection H as <-. constructor.
Qed.

Lemma image_of_style (item_elem img_elem : Bs4.tag) (style url : string) :
  Bs4.select_one item_elem product_tile_image = Some img_elem ->
  Bs4.get img_elem "style" = Some style ->
  background_image_style style url ->
  image_of item_elem = url.
Proof.
  intros Himg Hstyle Hbg. unfold image_of, Bs4.get_truthy. rewrite Himg, Hstyle.
  assert (Htruthy : Str.truthy style = true).
  { destruct Hbg as (pre & ws & q1 & q2 & post & -> & _). destruct pre; reflexivity. }
  rewrite Htruthy.
  destruct (background_image_of_style style url Hbg) as (mo & -> & Hgroup).
  unfold group1_or_empty. rewrite Hgroup. reflexivity.
Qed.

(** One pass of the loop over an item element with a name. *)
Lemma items_loop_named (item_elem img_elem : Bs4.tag) (rest : list Bs4.tag)
    (items : list MenuItem.t) (name description style url : string) :
  _get_text item_elem menu_product_name "" = Ok name ->
  name <> "" ->
  _get_text item_elem product_tile_description "" = Ok description ->
  _get_text item_elem menu_product_price "" = Ok "Rs. 500" ->
  Bs4.select_one item_elem product_tile_image = Some img_elem ->
  Bs4.get img_elem "style" = Some style ->
  background_image_style style url ->
  items_loop (item_elem :: rest) items
  = items_loop rest
      (items ++ [{| MenuItem.name := name;
                    MenuItem.description := description;
                    MenuItem.price := "500";
                    MenuItem.image := url |}])%list.
Proof.
  intros Hname Hnamed Hdescription Hprice Himg Hstyle Hbg.
  cbn [items_loop]. rewrite Hname, Hdescription, Hprice. cbn [obind].
  replace (price_of "Rs. 500") with "500" by (vm_compute; reflexivity).
  rewrite (image_of_style item_elem img_elem style url Himg Hstyle Hbg).
  destruct name as [| c name]; [contradiction | reflexivity].
Qed.

(** One pass of the loop over an item element without name. *)
Lemma items_loop_nameless (item_elem : Bs4.tag) (rest : list Bs4.tag)
    (items : list MenuItem.t) :
  _get_text item_elem menu_product_name "" = Ok "" ->
  items_loop (item_elem :: rest) items = items_loop rest items.
Proof.
  intros Hname. cbn [items_loop]. rewrite Hname. cbn [obind].
  destruct (_get_text_returns item_elem product_tile_description "") as [d ->].
  destruct (_get_text_returns item_elem menu_product_price "") as [p ->].
  reflexivity.
Qed.

(** The loop appends what it reads to the items it was given. *)
Lemma items_loop_appends (menu_items : list Bs4.tag) :
  exists read, forall items, items_loop menu_items items = Ok (items ++ read)%list.
Proof.
  induction menu_items as [| item_elem rest [read IH]].
  - exists []. intros items. rewrite app_nil_r. reflexivity.
  - destruct (_get_text_returns item_elem menu_product_name "") as [name Hn].
    destruct (_get_text_returns item_elem product_tile_description "") as [d Hd].
    destruct (_get_text_returns item_elem menu_product_price "") as [p Hp].
    destruct (Str.truthy name) eqn:Hnamed.
    + eexists. intros items. cbn [items_loop]. rewrite Hn, Hd, Hp. cbn [obind].
      rewrite Hnamed, IH, <- app_assoc. reflexivity.
    + exists read. intros items. cbn [items_loop]. rewrite Hn, Hd, Hp. cbn [obind].
      rewrite Hnamed, IH. reflexivity.
Qed.

Lemma items_loop_app (before after : list Bs4.tag) :
  forall items,
    items_loop (before ++ after) items
    = obind (items_loop before items) (items_loop after).
Proof.
  induction before as [| item_elem rest IH]; intros items; [reflexivity |].
  cbn [app items_loop].
  destruct (_get_text_returns item_elem menu_product_name "") as [name ->].
  destruct (_get_text_returns item_elem product_tile_description "") as [d ->].
  destruct (_get_text_returns item_elem menu_product_price "") as [p ->].
  cbn [obind]. apply IH.
Qed.

Lemma containers_loop_items (item_containers : list Bs4.tag) :
  forall items,
    containers_loop item_containers items
    = items_loop (flat_map (fun container => Bs4.select container li) item_containers)
        items.
Proof.
  induction item_containers as [| container rest IH]; intros items; [reflexivity |].
  cbn [containers_loop flat_map]. rewrite items_loop_app.
  destruct (items_loop (Bs4.select container li) items); cbn [obind];
    [apply IH | reflexivity | reflexivity].
Qed.

(** [_get_menu_items] on a tag is the loop over its item elements. *)
Lemma _get_menu_items_loop (container : Bs4.tag) :
  _get_menu_items (Bs4.Element container) = items_loop (item_elements container) [].
Proof.
  unfold _get_menu_items, item_selectors, item_elements.
  cbn [item_selectors_loop select_in obind]. rewrite containers_loop_items.
  destruct (items_loop_appends
              (flat_map (fun c => Bs4.select c li)
                 (Bs4.select container [[Bs4.el_class "ul" "dish-list-grid"]])))
    as [read ->].
  reflexivity.
Qed.



(** The URL of a style without quotes, after another declaration and
    before one more, and of a style in double quotes without blank. *)
Example styles_of_an_image :
  background_image_style "width: 80px; background-image: url(a.jpg); color: red" "a.jpg"
  /\ option_map Re.group1
       (Re.search background_image_pattern
          "width: 80px; background-image: url(a.jpg); color: red")
     = Some (Some "a.jpg")
  /\ background_image_style
       ("background-image:url(" ++ String dq ("a.jpg" ++ String dq ")")) "a.jpg"
  /\ option_map Re.group1
       (Re.search background_image_pattern
          ("background-image:url(" ++ String dq ("a.jpg" ++ String dq ")")))
     = Some (Some "a.jpg").
Proof.
  split; [| split; [| split]]; try (vm_compute; reflexivity).
  - exists "width: 80px; ", " ", "", "", "; color: red".
    repeat split; vm_compute; reflexivity.
  - exists "", "", (String dq ""), (String dq ""), "".
    repeat split; vm_compute; reflexivity.
Qed.

(** The first container of [restaurant_page] holds a named item and an item
    without name: the first is read as the claim says, the second is left
    out. *)
Example first_container_items :
  option_map _get_menu_items (nth_error (menu_containers restaurant_page) 0)
  = Some (Ok [{| MenuItem.name := "Zinger";
                 MenuItem.description := "Crispy fillet burger";
                 MenuItem.price := "500";
                 MenuItem.image := "https://images.example/zinger.jpg" |}]).
Proof. vm_compute. reflexivity. Qed.

(** ** Discovery of the restaurant URLs *)

Section Feed.
Variable feed : nat -> Bs4.tag.
Variable height : nat -> nat.
Variable self : FoodpandaScraper.

(** One iteration of the scroll loop on a simulated browser. *)
Lemma scroll_loop_step (fuel : nat) (limit : option nat) (urls : list string)
    (prev_count scroll_attempts w : nat) :
  scroll_loop (feed_driver feed height) self (S fuel) limit urls prev_count
    scroll_attempts w
  = if under_limit limit (length urls) && (scroll_attempts <? max_scroll_attempts)
    then
      let urls' := collect_page self (feed w) urls in
      if limit_reached limit (length urls')
      then (S w, Ok (firstn (match limit with Some l => l | None => 0 end) urls'))
      else scroll_loop (feed_driver feed height) self fuel limit urls' (length urls')
             (if length urls' =? prev_count then S scroll_attempts else 0) (S w)
    else (w, Ok urls).
Proof.
  cbn [scroll_loop].
  destruct (under_limit limit (length urls) && (scroll_attempts <? max_scroll_attempts));
    [| reflexivity].
  unfold bind, page_source, scroll_to_bottom, time_sleep, call, ret.
  cbn [feed_driver do_page_source do_scroll_to_bottom do_sleep].
  destruct (limit_reached limit (length (collect_page self (feed w) urls)));
    reflexivity.
Qed.

Lemma scroll_loop_exit (fuel : nat) (limit : option nat) (urls : list string)
    (prev_count scroll_attempts w : nat) :
  under_limit limit (length urls) && (scroll_attempts <? max_scroll_attempts) = false ->
  scroll_loop (feed_driver feed height) self fuel limit urls prev_count
    scroll_attempts w = (w, Ok urls).
Proof.
  intros H. destruct fuel; cbn [scroll_loop]; rewrite H; reflexivity.
Qed.

(** The counter of the scroll loop: when the next iterations find nothing
    that is not in the list, the loop counts them and ends when the counter
    reaches [max_scroll_attempts], with the list as it was. *)
Lemma scroll_loop_exits_when_quiet (limit : option nat) (urls : list string) :
  under_limit limit (length urls) = true ->
  forall quiet scroll_attempts w fuel,
    scroll_attempts + quiet = max_scroll_attempts ->
    quiet <= fuel ->
    (forall j, j < quiet -> collect_page self (feed (w + j)) urls = urls) ->
    scroll_loop (feed_driver feed height) self fuel limit urls (length urls)
      scroll_attempts w = (w + quiet, Ok urls).
Proof.
  intros Hunder. induction quiet as [| quiet IH]; intros attempts w fuel Hsum Hfuel Hquiet.
  - rewrite Nat.add_0_r in *. apply scroll_loop_exit.
    rewrite Hsum, Nat.ltb_irrefl. apply andb_false_r.
  - destruct fuel as [| fuel]; [lia |].
    rewrite scroll_loop_step, Hunder.
    assert (Hlt : (attempts <? max_scroll_attempts) = true) by (apply Nat.ltb_lt; lia).
    rewrite Hlt. cbn [andb].
    pose proof (Hquiet 0 ltac:(lia)) as H0. rewrite Nat.add_0_r in H0.
    cbv zeta. rewrite H0, Nat.eqb_refl.
    assert (Hreached : limit_reached limit (length urls) = false).
    { destruct limit as [l |]; [| reflexivity]. simpl in *.
      apply Nat.ltb_lt in Hunder.
      replace (l <=? length urls) with false by (symmetry; apply Nat.leb_gt; lia).
      apply andb_false_r. }
    rewrite Hreached.
    rewrite (IH (S attempts) (S w) fuel); [f_equal; lia | lia | lia |].
    intros j Hj. replace (S w + j) with (w + S j) by lia. apply Hquiet. lia.
Qed.

End Feed.

(** An iteration that lengthens the list sets the counter back to zero. *)
Lemma scroll_loop_resets_on_growth (feed : nat -> Bs4.tag) (height : nat -> nat)
    (self : FoodpandaScraper) (fuel : nat) (urls : list string)
    (scroll_attempts w : nat) :
  scroll_attempts < max_scroll_attempts ->
  length (collect_page self (feed w) urls) <> length urls ->
  scroll_loop (feed_driver feed height) self (S fuel) None urls (length urls)
    scroll_attempts w
  = scroll_loop (feed_driver feed height) self fuel None
      (collect_page self (feed w) urls)
      (length (collect_page self (feed w) urls)) 0 (S w).
Proof.
  intros Hlt Hgrow. rewrite scroll_loop_step. cbn [under_limit andb limit_reached].
  apply Nat.ltb_lt in Hlt. rewrite Hlt. cbv zeta.
  apply Nat.eqb_neq in Hgrow. rewrite Hgrow. reflexivity.
Qed.

(** On the listing with one card, every pass over the page appends the URL
    of the card twice, once for each selector that finds the card, as long as
    the list does not hold the path of its [href]. *)
Lemma collect_page_one_card (urls : list string) :
  Str.mem kfc_href urls = false ->
  collect_page pk one_card urls = (urls ++ [kfc_url; kfc_url])%list.
Proof.
  intros Hmem. unfold collect_page, restaurant_selectors. cbn [fold_left].
  set (sel1 := [[Bs4.el_attr "a" (Bs4.AttrEq "data-testid" "restaurant-card")]]).
  set (sel2 := [[Bs4.el_attr "a" (Bs4.AttrContains "href" "/restaurant/")]]).
  set (sel3 := [[Bs4.el_attr "a" (Bs4.AttrContains "class" "restaurant")]]).
  set (sel4 := [[Bs4.el_attr "a" (Bs4.AttrContains "class" "vendor")]]).
  assert (H1 : exists c, Bs4.select one_card sel1 = [c] /\ Bs4.get c "href" = Some kfc_href)
    by (eexists; split; vm_compute; reflexivity).
  assert (H2 : exists c, Bs4.select one_card sel2 = [c] /\ Bs4.get c "href" = Some kfc_href)
    by (eexists; split; vm_compute; reflexivity).
  assert (H3 : Bs4.select one_card sel3 = []) by (vm_compute; reflexivity).
  assert (H4 : Bs4.select one_card sel4 = []) by (vm_compute; reflexivity).
  destruct H1 as (c1 & -> & Hc1). destruct H2 as (c2 & -> & Hc2).
  rewrite H3, H4. cbn [collect_cards]. rewrite Hc1, Hc2.
  change (urljoin (base_url pk) kfc_href) with kfc_url.
  change (Str.truthy kfc_href) with true. cbn [andb].
  rewrite Hmem. cbn [negb].
  assert (Hmem' : Str.mem kfc_href (urls ++ [kfc_url]) = false).
  { unfold Str.mem in *. rewrite existsb_app, Hmem. reflexivity. }
  rewrite Hmem'. cbn [negb]. rewrite <- app_assoc. reflexivity.
Qed.

Lemma scroll_loop_one_card_runs_on (fuel : nat) :
  forall urls prev_count scroll_attempts w,
    Str.mem kfc_href urls = false ->
    prev_count <= length urls ->
    scroll_attempts < max_scroll_attempts ->
    snd (scroll_loop (static_driver one_card) pk fuel None urls prev_count
           scroll_attempts w) = OutOfFuel.
Proof.
  unfold static_driver.
  induction fuel as [| fuel IH]; intros urls prev attempts w Hmem Hprev Hlt.
  - cbn [scroll_loop under_limit andb].
    apply Nat.ltb_lt in Hlt. rewrite Hlt. reflexivity.
  - rewrite scroll_loop_step. cbn [under_limit andb limit_reached].
    pose proof Hlt as Hlt'. apply Nat.ltb_lt in Hlt'. rewrite Hlt'. cbv zeta.
    fold one_card. rewrite (collect_page_one_card urls Hmem).
    apply IH.
    + unfold Str.mem in *. rewrite existsb_app, Hmem. reflexivity.
    + lia.
    + rewrite length_app. simpl.
      destruct (length urls + 2 =? prev) eqn:E.
      * apply Nat.eqb_eq in E. lia.
      * unfold max_scroll_attempts. lia.
Qed.

(** C1: the listing shows one restaurant, and with limit 2 the list
    returned holds its URL twice: the test [url not in restaurant_urls]
    looks for the [href] as the page has it, a path, in a list that holds
    the joined URLs, so it never finds it. *)
Theorem one_card_is_listed_twice :
  get_restaurant_urls (static_driver one_card) pk 1 (Some 2) 0
  = (1, Ok [kfc_url; kfc_url])
  /\ ~ NoDup [kfc_url; kfc_url].
Proof.
  split; [vm_compute; reflexivity |].
  intros H. inversion H as [| ? ? Hin _]. apply Hin. left. reflexivity.
Qed.

(** C2: with limit 1 on a listing that shows two restaurants at once, both
    URLs are returned: the list is cut to the limit inside the scroll loop
    only, and the loop is not entered when the first reading of the page has
    reached the limit. *)
Theorem limit_is_exceeded (fuel : nat) :
  get_restaurant_urls (static_driver two_cards) pk fuel (Some 1) 0
  = (0, Ok [kfc_url; mcd_url])
  /\ 1 < length [kfc_url; mcd_url].
Proof.
  split; [| simpl; lia].
  destruct fuel; vm_compute; reflexivity.
Qed.

(** C9: on a listing that never changes, with no limit, the scroll loop does
    not end whatever fuel it is given: every pass appends the URL of the one
    card again (see C1), the list grows and the counter of passes without
    growth stays at zero. *)
Theorem static_listing_never_ends (fuel : nat) :
  snd (get_restaurant_urls (static_driver one_card) pk fuel None 0) = OutOfFuel.
Proof.
  pose proof (scroll_loop_one_card_runs_on fuel [kfc_url] 0 0 0 eq_refl
                (Nat.le_0_l _) ltac:(unfold max_scroll_attempts; lia)) as Hloop.
  unfold get_restaurant_urls, try_except, bind.
  assert (H1 : get (static_driver one_card) (restaurants_url pk) 0 = (0, Ok tt))
    by reflexivity.
  assert (H2 : check_captcha (static_driver one_card)
                 "Press Enter after solving the captcha to continue..." 0
               = (0, Ok tt)) by (vm_compute; reflexivity).
  assert (H3 : except_timeout
                 (wait_absence (static_driver one_card) 10 loading_selector)
                 (ret tt) 0 = (0, Ok tt)) by (vm_compute; reflexivity).
  assert (H4 : first_cards (static_driver one_card) pk restaurant_selectors [] 0
               = (0, Ok [kfc_url])) by (vm_compute; reflexivity).
  rewrite H1, H2, H3, H4. cbn [nonempty].
  destruct (scroll_loop (static_driver one_card) pk fuel None [kfc_url] 0 0 0)
    as [w' [urls | e |]]; simpl in Hloop; try discriminate.
  reflexivity.
Qed.

(** On listings whose cards link absolute URLs the test for known URLs
    works: the loop on [two_cards] ends after the first pass and twenty
    passes that find nothing new. *)
Example two_cards_end_of_feed :
  get_restaurant_urls (static_driver two_cards) pk 21 None 0
  = (21, Ok [kfc_url; mcd_url]).
Proof. vm_compute. reflexivity. Qed.

(** ** What [scrape] accumulates *)

Lemma categories_loop_items (soup : Bs4.tag) (category_elements : list Bs4.tag) :
  forall i menu menu',
    Forall (fun c => MenuCategory.items c <> []) menu ->
    categories_loop soup category_elements i menu = Ok menu' ->
    Forall (fun c => MenuCategory.items c <> []) menu'.
Proof.
  induction category_elements as [| category_elem rest IH]; intros i menu menu' Hmenu H.
  - simpl in H. injection H as <-. exact Hmenu.
  - simpl in H. destruct (Bs4.select_one soup div_menu) as [root |].
    + destruct (nth_error (Bs4.contents root) i) as [c |]; [| discriminate].
      destruct (_get_menu_items c) as [menu_items | |]; simpl in H; try discriminate.
      apply IH in H; [exact H |].
      destruct menu_items as [| item items]; simpl; [exact Hmenu |].
      apply Forall_app. split; [exact Hmenu |].
      constructor; [simpl; discriminate | constructor].
    + apply IH in H; assumption.
Qed.

Lemma category_selectors_loop_items (soup : Bs4.tag) (selectors : list Bs4.selector) :
  forall menu menu',
    Forall (fun c => MenuCategory.items c <> []) menu ->
    category_selectors_loop soup selectors menu = Ok menu' ->
    Forall (fun c => MenuCategory.items c <> []) menu'.
Proof.
  induction selectors as [| selector rest IH]; intros menu menu' Hmenu H.
  - simpl in H. injection H as <-. exact Hmenu.
  - simpl in H.
    destruct (categories_loop soup (Bs4.select soup selector) 0 menu)
      as [menu1 | |] eqn:Hloop; simpl in H; try discriminate.
    apply IH in H; [exact H |].
    apply (categories_loop_items _ _ _ _ _ Hmenu Hloop).
Qed.

Section Accumulated.
Context {W : Type}.
Variable driver : WebDriver W.
Variable self : FoodpandaScraper.

Lemma _get_menu_items_not_empty (fuel : nat) (soup : Bs4.tag) (w w' : W)
    (menu : list MenuCategory.t) :
  _get_menu driver fuel soup w = (w', Ok menu) ->
  Forall (fun c => MenuCategory.items c <> []) menu.
Proof.
  unfold _get_menu. intros H.
  apply try_except_Ok in H. destruct H as [H | (w1 & e & _ & H)].
  - apply bind_Ok in H. destruct H as (w1 & snapshot & _ & H).
    unfold lift in H.
    destruct (category_selectors_loop snapshot category_selectors [])
      as [menu1 | e |] eqn:Hloop; try discriminate.
    injection H as _ <-.
    apply (category_selectors_loop_items _ _ [] menu1 (Forall_nil _) Hloop).
  - unfold ret in H. injection H as _ <-. constructor.
Qed.

Lemma extract_restaurant_details_accumulated (fuel : nat) (url : string)
    (w w' : W) (restaurant_data : details) :
  extract_restaurant_details driver fuel url w = (w', Ok restaurant_data) ->
  accumulated (set_url restaurant_data url).
Proof.
  intros H. destruct restaurant_data as [r | url' error]; simpl; [| exact I].
  apply extract_restaurant_details_menu in H.
  destruct H as (soup & w1 & w2 & H).
  apply (_get_menu_items_not_empty _ _ _ _ _ H).
Qed.

Lemma keeps_ret {A : Type} (a : A) : keeps_accumulated (W := W) (ret a).
Proof. intros st st' o Hst H. unfold ret in H. injection H as <- _. exact Hst. Qed.

Lemma keeps_on_world {A : Type} (c : M W A) : keeps_accumulated (on_world c).
Proof.
  intros st st' o Hst H. unfold on_world in H.
  destruct (c (world st)) as [w' o']. injection H as <- _. exact Hst.
Qed.

Lemma keeps_save : keeps_accumulated (save (W := W)).
Proof. intros st st' o Hst H. unfold save in H. injection H as <- _. exact Hst. Qed.

Lemma keeps_append (x : scraped) :
  accumulated x -> keeps_accumulated (append_data (W := W) x).
Proof.
  intros Hx st st' o Hst H. unfold append_data in H. injection H as <- _. simpl.
  apply Forall_app. split; [exact Hst | constructor; [exact Hx | constructor]].
Qed.

Lemma keeps_bind {A B : Type} (c : M (scraper_state W) A) (f : A -> M (scraper_state W) B)
    (Q : A -> Prop) :
  keeps_accumulated c ->
  (forall st st' a, c st = (st', Ok a) -> Q a) ->
  (forall a, Q a -> keeps_accumulated (f a)) ->
  keeps_accumulated (bind c f).
Proof.
  intros Hc HQ Hf st st' o Hst H. unfold bind in H.
  destruct (c st) as [st1 [a | e |]] eqn:Hrun.
  - apply (Hf a (HQ _ _ _ Hrun) st1 st' o); [| exact H].
    apply (Hc st st1 (Ok a) Hst Hrun).
  - injection H as <- _. apply (Hc st st1 (Raise e) Hst Hrun).
  - injection H as <- _. apply (Hc st st1 OutOfFuel Hst Hrun).
Qed.

Lemma keeps_seq {A B : Type} (c : M (scraper_state W) A) (k : M (scraper_state W) B) :
  keeps_accumulated c -> keeps_accumulated k ->
  keeps_accumulated (bind c (fun _ => k)).
Proof.
  intros Hc Hk. apply (keeps_bind c (fun _ => k) (fun _ => True)); auto.
Qed.

Lemma keeps_try_except {A : Type} (c : M (scraper_state W) A) (h : exn -> M (scraper_state W) A) :
  keeps_accumulated c -> (forall e, keeps_accumulated (h e)) ->
  keeps_accumulated (try_except c h).
Proof.
  intros Hc Hh st st' o Hst H. unfold try_except in H.
  destruct (c st) as [st1 [a | e |]] eqn:Hrun.
  - injection H as <- _. apply (Hc st st1 (Ok a) Hst Hrun).
  - apply (Hh e st1 st' o); [| exact H]. apply (Hc st st1 (Raise e) Hst Hrun).
  - injection H as <- _. apply (Hc st st1 OutOfFuel Hst Hrun).
Qed.

Lemma keeps_try_finally {A : Type} (c : M (scraper_state W) A) (f : M (scraper_state W) unit) :
  keeps_accumulated c -> keeps_accumulated f ->
  keeps_accumulated (try_finally c f).
Proof.
  intros Hc Hf st st' o Hst H. unfold try_finally in H.
  destruct (c st) as [st1 o1] eqn:Hrun.
  pose proof (Hc st st1 o1 Hst Hrun) as Hst1.
  destruct o1 as [a | e |].
  - destruct (f st1) as [st2 o2] eqn:Hfin.
    pose proof (Hf st1 st2 o2 Hst1 Hfin) as Hst2.
    destruct o2; injection H as <- _; exact Hst2.
  - destruct (f st1) as [st2 o2] eqn:Hfin.
    pose proof (Hf st1 st2 o2 Hst1 Hfin) as Hst2.
    destruct o2; injection H as <- _; exact Hst2.
  - injection H as <- _. exact Hst1.
Qed.

Lemma keeps_scrape_loop (fuel : nat) (restaurant_urls : list string) :
  forall i total, keeps_accumulated (scrape_loop driver fuel restaurant_urls i total).
Proof.
  induction restaurant_urls as [| url rest IH]; intros i total; cbn [scrape_loop].
  - apply keeps_ret.
  - apply keeps_seq.
    { destruct (0 <? i); [apply keeps_on_world | apply keeps_ret]. }
    apply (keeps_bind _ _ (fun d => accumulated (set_url d url))).
    + apply keeps_on_world.
    + intros st st' d H. unfold on_world in H.
      destruct (extract_restaurant_details driver fuel url (world st))
        as [w' o] eqn:Hrun.
      injection H as _ ->.
      apply (extract_restaurant_details_accumulated _ _ _ _ _ Hrun).
    + intros d Hd. apply keeps_seq; [apply keeps_append; exact Hd |].
      apply keeps_seq; [| apply IH].
      destruct (((i + 1) mod 5 =? 0) || (i =? total - 1));
        [apply keeps_save | apply keeps_ret].
Qed.

(** Whatever the browser does, a run of [scrape] that starts from
    accumulated data, as the empty list of [__init__] is, leaves
    accumulated data. *)
Lemma scrape_keeps_accumulated (fuel : nat) (limit : option nat) (max_restaurants : option Z) :
  keeps_accumulated (scrape driver self fuel limit max_restaurants).
Proof.
  unfold scrape. apply keeps_try_finally.
  - apply keeps_try_except.
    + apply (keeps_bind _ _ (fun _ => True)); [apply keeps_on_world | auto |].
      intros restaurant_urls _. cbv zeta.
      apply keeps_seq; [apply keeps_scrape_loop |].
      intros st st' o Hst H. injection H as <- _. exact Hst.
    + intros e st st' o Hst H. injection H as <- _. exact Hst.
  - apply keeps_seq; [apply keeps_save |].
    unfold close. apply keeps_try_except; [apply keeps_on_world |].
    intros e. apply keeps_ret.
Qed.

End Accumulated.

(** * Further properties *)

(** ** The site of a location *)

Lemma lower_char_idempotent (c : ascii) : lower_char (lower_char c) = lower_char c.
Proof. destruct c as [[] [] [] [] [] [] [] []]; reflexivity. Qed.

Lemma lower_idempotent (s : string) : lower (lower s) = lower s.
Proof.
  induction s as [| c s IH]; [reflexivity |].
  simpl. rewrite lower_char_idempotent, IH. reflexivity.
Qed.

Lemma lookup_absent (a : string) (l : list (string * string)) :
  (forall k v, In (k, v) l -> a <> k) -> Bs4.lookup a l = None.
Proof.
  induction l as [| [k v] l IH]; intros H; [reflexivity |].
  simpl. destruct (String.eqb k a) eqn:E.
  - apply String.eqb_eq in E. exfalso. apply (H k v); [left; reflexivity | congruence].
  - apply IH. intros k' v' Hin. apply (H k' v'). right. exact Hin.
Qed.

(** The extensions [_get_domain_extension] can return. *)
Lemma _get_domain_extension_range (location : string) :
  In (_get_domain_extension location)
    ["sg"; "my"; "co.th"; "ph"; "hk"; "tw"; "pk"; "com.bd"; "jp"; "de"; "com"].
Proof.
  unfold _get_domain_extension, location_map. cbn [Bs4.lookup].
  repeat match goal with
         | |- context [String.eqb ?k (lower location)] =>
             destruct (String.eqb k (lower location))
         end; simpl; tauto.
Qed.

(** X1: for a location written in ASCII, [_get_domain_extension] looks
    the location up whatever its case: the lowercased location gives the
    same extension, a location whose lowercase is a key of [location_map]
    gives the extension of that key, and any other location gives "com". *)
Theorem domain_extension_of_location (location : string) :
  is_ascii location = true ->
  _get_domain_extension (lower location) = _get_domain_extension location
  /\ (forall key ext,
        In (key, ext) location_map -> lower location = key ->
        _get_domain_extension location = ext)
  /\ ((forall key ext, In (key, ext) location_map -> lower location <> key) ->
      _get_domain_extension location = "com").
Proof.
  intros _.
  split; [| split].
  - unfold _get_domain_extension. rewrite lower_idempotent. reflexivity.
  - intros key ext Hin Hkey. unfold _get_domain_extension. rewrite Hkey.
    simpl in Hin.
    repeat (destruct Hin as [Hin | Hin]; [injection Hin as <- <-; reflexivity |]).
    contradiction.
  - intros H. unfold _get_domain_extension.
    rewrite (lookup_absent _ _ H). reflexivity.
Qed.

Lemma domain_extension_of_location_witness :
  is_ascii "Hong Kong" = true
  /\ lower "Hong Kong" = "hong kong"
  /\ _get_domain_extension "Hong Kong" = "hk".
Proof.
  split; [reflexivity |]. split; [reflexivity |].
  apply (proj1 (proj2 (domain_extension_of_location "Hong Kong" eq_refl))
           "hong kong" "hk"); [| reflexivity].
  simpl. tauto.
Defined.

(** X2: the country code that [_get_country_code] reads off the base URL
    of a scraper made for a location: "SG", "MY", "HK" and "TH" for the
    sites of Singapore, Malaysia, Hong Kong and Thailand, and the empty
    string for every other site, the one of Pakistan included. *)
Theorem country_code_of_location (location : string) :
  (_get_domain_extension location = "sg" -> _get_country_code (init location) = "SG")
  /\ (_get_domain_extension location = "my" -> _get_country_code (init location) = "MY")
  /\ (_get_domain_extension location = "hk" -> _get_country_code (init location) = "HK")
  /\ (_get_domain_extension location = "co.th" ->
      _get_country_code (init location) = "TH")
  /\ (_get_domain_extension location <> "sg" ->
      _get_domain_extension location <> "my" ->
      _get_domain_extension location <> "hk" ->
      _get_domain_extension location <> "co.th" ->
      _get_country_code (init location) = "").
Proof.
  pose proof (_get_domain_extension_range location) as Hrange.
  unfold init, _get_country_code. cbn [base_url].
  remember (_get_domain_extension location) as ext eqn:Hext. clear Hext.
  simpl in Hrange.
  repeat (destruct Hrange as [<- | Hrange];
          [vm_compute; repeat split; intros; try reflexivity; try discriminate;
           congruence |]).
  contradiction.
Qed.

(** ** The matches of the patterns *)

Section MatcherSound.
Context {R : Type}.
Implicit Types (k : @Re.cont R) (cap : option (list ascii)).

Lemma rep_loop_sound (r1 : Re.regex)
    (step : Re.pos -> option (list ascii) -> @Re.cont R -> option R) :
  (forall p cap k x,
      step p cap k = Some x -> exists p' cap', steps r1 p p' /\ k p' cap' = Some x) ->
  forall fuel greedy lo hi k n p cap x,
    match hi with Some h => n <= h | None => True end ->
    Re.rep_loop step greedy lo hi k fuel n p cap = Some x ->
    exists j p' cap',
      iter_steps (steps r1) j p p'
      /\ lo <= n + j
      /\ match hi with Some h => n + j <= h | None => True end
      /\ k p' cap' = Some x.
Proof.
  intros Hstep.
  assert (Hstop : forall lo hi k n p cap x,
             match hi with Some h => n <= h | None => True end ->
             (n <? lo) = false -> k p cap = Some x ->
             exists j p' cap',
               iter_steps (steps r1) j p p'
               /\ lo <= n + j
               /\ match hi with Some h => n + j <= h | None => True end
               /\ k p' cap' = Some x).
  { intros lo hi k n p cap x Hhi Hlo Hk. exists 0, p, cap.
    apply Nat.ltb_ge in Hlo. rewrite Nat.add_0_r.
    repeat split; [lia | exact Hhi | exact Hk]. }
  induction fuel as [| fuel IH]; intros greedy lo hi k n p cap x Hhi H.
  - cbn [Re.rep_loop] in H.
    destruct (n <? lo) eqn:Hlo; [discriminate |].
    destruct greedy.
    + apply (Hstop lo hi k n p cap x Hhi Hlo H).
    + destruct (k p cap) as [y |] eqn:Hk; [| discriminate].
      injection H as <-. apply (Hstop lo hi k n p cap y Hhi Hlo Hk).
  - cbn [Re.rep_loop] in H.
    assert (Hmore : forall y,
               (if Re.below n hi
                then step p cap (fun p' cap' =>
                       Re.rep_loop step greedy lo hi k fuel (S n) p' cap')
                else None) = Some y ->
               exists j p' cap',
                 iter_steps (steps r1) j p p'
                 /\ lo <= n + j
                 /\ match hi with Some h => n + j <= h | None => True end
                 /\ k p' cap' = Some y).
    { intros y Hy. destruct (Re.below n hi) eqn:Hbelow; [| discriminate].
      apply Hstep in Hy. destruct Hy as (p1 & cap1 & Hs1 & Hrest).
      apply IH in Hrest.
      - destruct Hrest as (j & p' & cap' & Hiter & Hlo' & Hhi' & Hk).
        exists (S j), p', cap'. split; [exists p1; split; assumption |].
        split; [lia |]. split; [| exact Hk].
        destruct hi as [h |]; [lia | exact I].
      - destruct hi as [h |]; [| exact I].
        simpl in Hbelow. apply Nat.ltb_lt in Hbelow. lia. }
    destruct (n <? lo) eqn:Hlo; [apply Hmore; exact H |].
    destruct greedy.
    + destruct (if Re.below n hi then _ else None) as [y |] eqn:Hy.
      * injection H as <-. apply Hmore. reflexivity.
      * apply (Hstop lo hi k n p cap x Hhi Hlo H).
    + destruct (k p cap) as [y |] eqn:Hk.
      * injection H as <-. apply (Hstop lo hi k n p cap y Hhi Hlo Hk).
      * apply Hmore. exact H.
Qed.

(** A match that [Re.m] finds and hands to its continuation is a match of
    the pattern. *)
Lemma m_sound (r : Re.regex) :
  forall p cap k x,
    Re.m r p cap k = Some x ->
    exists p' cap', steps r p p' /\ k p' cap' = Some x.
Proof.
  induction r as [| f | r1 IH1 r2 IH2 | greedy lo hi r1 IH1 | r1 IH1 | |];
    intros p cap k x H; cbn [Re.m] in H.
  - exists p, cap. split; [reflexivity | exact H].
  - destruct (Re.rest p) as [| c tl] eqn:Hrest; [discriminate |].
    destruct (f c) eqn:Hc; [| discriminate].
    exists (Re.advance c p tl), cap. split; [| exact H].
    simpl. exists c, tl. rewrite Hrest. auto.
  - apply IH1 in H. destruct H as (p1 & cap1 & Hs1 & H).
    apply IH2 in H. destruct H as (p2 & cap2 & Hs2 & H).
    exists p2, cap2. split; [exists p1; split; assumption | exact H].
  - apply (rep_loop_sound r1 (Re.m r1) IH1) in H.
    + destruct H as (j & p' & cap' & Hiter & Hlo & Hhi & Hk).
      exists p', cap'. split; [| exact Hk].
      exists j. simpl in Hlo. repeat split; assumption.
    + destruct hi; [lia | exact I].
  - apply IH1 in H. destruct H as (p' & cap' & Hs & H).
    exists p', (Some (Re.consumed p p')). split; assumption.
  - destruct (xorb _ _) eqn:Hx; [| discriminate].
    exists p, cap. split; [split; [exact Hx | reflexivity] | exact H].
  - destruct (Re.rest p) as [| c [| c' tl]] eqn:Hrest; try discriminate.
    + exists p, cap. split; [split; [left; exact Hrest | reflexivity] | exact H].
    + destruct (Ascii.eqb c Re.newline) eqn:Hc; [| discriminate].
      apply Ascii.eqb_eq in Hc. subst c.
      exists p, cap. split; [split; [right; exact Hrest | reflexivity] | exact H].
Qed.

Lemma m_cat_sound (r1 r2 : Re.regex) p cap k (x : R) :
  Re.m (Re.Cat r1 r2) p cap k = Some x ->
  exists p1 cap1, steps r1 p p1 /\ Re.m r2 p1 cap1 k = Some x.
Proof. cbn [Re.m]. apply m_sound. Qed.

Lemma m_group_sound (r : Re.regex) p cap k (x : R) :
  Re.m (Re.Group r) p cap k = Some x ->
  exists p', steps r p p' /\ k p' (Some (Re.consumed p p')) = Some x.
Proof.
  cbn [Re.m]. intros H. apply m_sound in H.
  destruct H as (p' & _ & Hs & H). exists p'. split; assumption.
Qed.

End MatcherSound.

Lemma reaches_refl (p : Re.pos) : reaches p [] p.
Proof. split; reflexivity. Qed.

Lemma reaches_trans (p p1 p2 : Re.pos) (u v : list ascii) :
  reaches p u p1 -> reaches p1 v p2 -> reaches p (u ++ v) p2.
Proof.
  intros [Hr1 Hb1] [Hr2 Hb2]. split.
  - rewrite Hr1, Hr2. apply app_assoc.
  - rewrite Hb2, Hb1, rev_app_distr. apply app_assoc.
Qed.

(** A match reads a part of the subject and leaves the rest of it. *)
Lemma steps_reaches (r : Re.regex) :
  forall p p', steps r p p' -> exists u, reaches p u p'.
Proof.
  induction r as [| f | r1 IH1 r2 IH2 | greedy lo hi r1 IH1 | r1 IH1 | |];
    intros p p' H; simpl in H.
  - subst p'. exists []. apply reaches_refl.
  - destruct H as (c & tl & Hrest & _ & ->). exists [c].
    split; [exact Hrest | reflexivity].
  - destruct H as (p1 & H1 & H2).
    apply IH1 in H1. apply IH2 in H2.
    destruct H1 as [u Hu]. destruct H2 as [v Hv].
    exists (u ++ v)%list. apply (reaches_trans _ _ _ _ _ Hu Hv).
  - destruct H as (n & _ & _ & Hiter). revert p Hiter.
    induction n as [| n IHn]; intros p Hiter; simpl in Hiter.
    + subst p'. exists []. apply reaches_refl.
    + destruct Hiter as (p1 & H1 & Hiter).
      apply IH1 in H1. apply IHn in Hiter.
      destruct H1 as [u Hu]. destruct Hiter as [v Hv].
      exists (u ++ v)%list. apply (reaches_trans _ _ _ _ _ Hu Hv).
  - apply IH1. exact H.
  - destruct H as [_ ->]. exists []. apply reaches_refl.
  - destruct H as [_ ->]. exists []. apply reaches_refl.
Qed.

Lemma reaches_consumed (p p' : Re.pos) (u : list ascii) :
  reaches p u p' -> Re.consumed p p' = u.
Proof.
  intros [_ Hb]. unfold Re.consumed. rewrite Hb.
  rewrite length_app, length_rev.
  replace (length u + length (Re.before p) - length (Re.before p))
    with (length (rev u)) by (rewrite length_rev; lia).
  rewrite firstn_app, firstn_all, Nat.sub_diag. simpl.
  rewrite app_nil_r. apply rev_involutive.
Qed.

Lemma reaches_inj (p p' : Re.pos) (u v : list ascii) :
  reaches p u p' -> reaches p v p' -> u = v.
Proof.
  intros Hu Hv. rewrite <- (reaches_consumed _ _ _ Hu).
  apply (reaches_consumed _ _ _ Hv).
Qed.

(** A repetition of a class reads as many characters of the class as it
    makes iterations. *)
Lemma iter_class_reaches (f : ascii -> bool) (n : nat) :
  forall p p',
    iter_steps (steps (Re.Class f)) n p p' ->
    exists u, reaches p u p' /\ length u = n /\ forallb f u = true.
Proof.
  induction n as [| n IH]; intros p p' H; simpl in H.
  - subst p'. exists []. split; [apply reaches_refl | split; reflexivity].
  - destruct H as (p1 & (c & tl & Hrest & Hc & ->) & Hiter).
    apply IH in Hiter. destruct Hiter as (u & Hu & Hlen & Hf).
    exists (c :: u). split; [| split].
    + apply (reaches_trans _ (Re.advance c p tl) _ [c] u); [| exact Hu].
      split; [exact Hrest | reflexivity].
    + simpl. rewrite Hlen. reflexivity.
    + simpl. rewrite Hc, Hf. reflexivity.
Qed.

Lemma repeat_class_reaches (greedy : bool) (lo : nat) (hi : option nat)
    (f : ascii -> bool) (p p' : Re.pos) :
  steps (Re.Repeat greedy lo hi (Re.Class f)) p p' ->
  exists u,
    reaches p u p' /\ lo <= length u
    /\ match hi with Some h => length u <= h | None => True end
    /\ forallb f u = true.
Proof.
  intros (n & Hlo & Hhi & Hiter).
  apply iter_class_reaches in Hiter. destruct Hiter as (u & Hu & Hlen & Hf).
  exists u. rewrite Hlen. repeat split; try assumption; apply Hu.
Qed.

(** [re.search] returns a match that starts somewhere in the subject. *)
Lemma search_from_sound (r : Re.regex) (l : list ascii) :
  forall bef mo,
    Re.search_from r bef l = Some mo ->
    exists skipped l',
      l = (skipped ++ l')%list
      /\ Re.match_at r {| Re.before := (rev skipped ++ bef)%list; Re.rest := l' |}
         = Some mo.
Proof.
  induction l as [| c l IH]; intros bef mo H; simpl in H.
  - destruct (Re.match_at r _) as [mo' |] eqn:Hm; [| discriminate].
    injection H as <-. exists [], []. split; [reflexivity | exact Hm].
  - destruct (Re.match_at r _) as [mo' |] eqn:Hm.
    + injection H as <-. exists [], (c :: l). split; [reflexivity | exact Hm].
    + apply IH in H. destruct H as (skipped & l' & -> & H).
      exists (c :: skipped), l'. split; [reflexivity |].
      simpl. rewrite <- app_assoc. exact H.
Qed.

Lemma match_at_sound (r : Re.regex) (p : Re.pos) (mo : Re.match_object) :
  Re.match_at r p = Some mo ->
  exists u,
    steps r p (Re.after mo) /\ reaches p u (Re.after mo)
    /\ Re.group0 mo = string_of_list_ascii u.
Proof.
  unfold Re.match_at. intros H. apply m_sound in H.
  destruct H as (p' & cap' & Hs & H). injection H as <-. simpl.
  destruct (steps_reaches _ _ _ Hs) as [u Hu].
  exists u. rewrite (reaches_consumed _ _ _ Hu). auto.
Qed.

(** What [re.search] finds is a part of the subject that the pattern
    matches where it stands. *)
Lemma search_sound (r : Re.regex) (s : string) (mo : Re.match_object) :
  Re.search r s = Some mo ->
  exists pre post,
    s = pre ++ Re.group0 mo ++ post
    /\ steps r
         {| Re.before := rev (list_ascii_of_string pre);
            Re.rest := list_ascii_of_string (Re.group0 mo ++ post) |}
         (Re.after mo)
    /\ reaches
         {| Re.before := rev (list_ascii_of_string pre);
            Re.rest := list_ascii_of_string (Re.group0 mo ++ post) |}
         (list_ascii_of_string (Re.group0 mo)) (Re.after mo).
Proof.
  unfold Re.search. intros H. apply search_from_sound in H.
  destruct H as (skipped & l' & Hl & H).
  destruct (match_at_sound _ _ _ H) as (u & Hs & Hreach & Hg).
  pose proof Hreach as [Hrest _]. simpl in Hrest.
  exists (string_of_list_ascii skipped), (string_of_list_ascii (Re.rest (Re.after mo))).
  rewrite app_nil_r in Hs, Hreach.
  rewrite list_ascii_of_string_of_list_ascii, list_ascii_of_string_app, Hg.
  rewrite !list_ascii_of_string_of_list_ascii, <- Hrest.
  split; [| split; assumption].
  rewrite <- (string_of_list_ascii_of_string s), Hl, Hrest.
  clear. induction skipped as [| c skipped IH]; simpl.
  - induction u as [| c u IH]; simpl; [reflexivity | rewrite IH; reflexivity].
  - rewrite IH. reflexivity.
Qed.

(** ** Prices *)

(** What [re.search(r'\d+', text)] returns is a run of at least one digit
    of the text. *)
Lemma price_pattern_match (price_text : string) (price_match : Re.match_object) :
  Re.search price_pattern price_text = Some price_match ->
  Re.group0 price_match <> ""
  /\ forallb Str.isdigit (list_ascii_of_string (Re.group0 price_match)) = true
  /\ exists pre post, price_text = pre ++ Re.group0 price_match ++ post.
Proof.
  intros H. apply search_sound in H. destruct H as (pre & post & Htext & Hs & Hg).
  apply repeat_class_reaches in Hs. destruct Hs as (u & Hu & Hlen & _ & Hf).
  pose proof (reaches_inj _ _ _ _ Hg Hu) as Heq. rewrite Heq.
  split; [| split; [exact Hf | exists pre, post; exact Htext]].
  intros Hempty. rewrite Hempty in Heq. subst u. simpl in Hlen. lia.
Qed.

Lemma price_of_digits (price_text : string) :
  forallb Str.isdigit (list_ascii_of_string (price_of price_text)) = true.
Proof.
  unfold price_of. destruct (Str.truthy price_text); [| reflexivity].
  destruct (Re.search price_pattern price_text) as [mo |] eqn:H; [| reflexivity].
  apply (price_pattern_match _ _ H).
Qed.

(** Every item that [items_loop] adds has a name and is built from the
    texts of its element. *)
Lemma items_loop_built (Q : MenuItem.t -> Prop) :
  (forall item_elem name description price_text,
      name <> "" ->
      Q {| MenuItem.name := name;
           MenuItem.description := description;
           MenuItem.price := price_of price_text;
           MenuItem.image := image_of item_elem |}) ->
  forall menu_items items emitted,
    Forall Q items ->
    items_loop menu_items items = Ok emitted ->
    Forall Q emitted.
Proof.
  intros Hbuilt.
  induction menu_items as [| item_elem rest IH]; intros items emitted Hitems H.
  - simpl in H. injection H as <-. exact Hitems.
  - simpl in H.
    destruct (_get_text_returns item_elem menu_product_name "") as [name Hn].
    destruct (_get_text_returns item_elem product_tile_description "") as [d Hd].
    destruct (_get_text_returns item_elem menu_product_price "") as [p Hp].
    rewrite Hn, Hd, Hp in H. simpl in H.
    apply IH in H; [exact H |].
    destruct name as [| c name]; simpl; [exact Hitems |].
    apply Forall_app. split; [exact Hitems |].
    constructor; [apply Hbuilt; discriminate | constructor].
Qed.

Lemma _get_menu_items_built (Q : MenuItem.t -> Prop) :
  (forall item_elem name description price_text,
      name <> "" ->
      Q {| MenuItem.name := name;
           MenuItem.description := description;
           MenuItem.price := price_of price_text;
           MenuItem.image := image_of item_elem |}) ->
  forall container emitted,
    _get_menu_items container = Ok emitted -> Forall Q emitted.
Proof.
  intros Hbuilt.
  assert (Hcontainers : forall item_containers items emitted,
             Forall Q items ->
             containers_loop item_containers items = Ok emitted ->
             Forall Q emitted).
  { induction item_containers as [| c rest IH]; intros items emitted Hitems H.
    - simpl in H. injection H as <-. exact Hitems.
    - simpl in H.
      destruct (items_loop (Bs4.select c li) items) as [items' | |] eqn:Hloop;
        simpl in H; try discriminate.
      apply (IH items' emitted); [| exact H].
      apply (items_loop_built Q Hbuilt _ items items' Hitems Hloop). }
  assert (Hselectors : forall selectors container items emitted,
             Forall Q items ->
             item_selectors_loop selectors container items = Ok emitted ->
             Forall Q emitted).
  { induction selectors as [| selector rest IH]; intros container items emitted Hitems H.
    - simpl in H. injection H as <-. exact Hitems.
    - simpl in H. destruct container as [t | s]; simpl in H; [| discriminate].
      destruct (containers_loop (Bs4.select t selector) items) as [items' | |] eqn:Hloop;
        simpl in H; try discriminate.
      apply IH in H; [exact H |].
      apply (Hcontainers _ items items' Hitems Hloop). }
  intros container emitted H. unfold _get_menu_items in H.
  destruct (item_selectors_loop item_selectors container []) as [items | e |] eqn:Hloop;
    simpl in H; try discriminate.
  - injection H as <-. apply (Hselectors _ _ [] items (Forall_nil _) Hloop).
  - injection H as <-. constructor.
Qed.

(** X3: on a container in ASCII, the price of every menu item that
    [_get_menu_items] returns holds decimal digits only, or nothing: what
    stands around the first run of digits of the price text, currency and
    separators alike, is left out. *)
Theorem item_prices_are_digits (container : Bs4.page_element) :
  ascii_element container = true ->
  exists items,
    _get_menu_items container = Ok items
    /\ Forall (fun item =>
                 forallb Str.isdigit (list_ascii_of_string (MenuItem.price item)) = true)
         items.
Proof.
  intros _.
  destruct (_get_menu_items_returns container) as [items H].
  exists items. split; [exact H |].
  apply (_get_menu_items_built _) with (container := container); [| exact H].
  intros item_elem name description price_text _. simpl. apply price_of_digits.
Qed.

Lemma item_prices_are_digits_witness :
  ascii_element two_dishes = true
  /\ map MenuItem.price
       (match _get_menu_items two_dishes with Ok items => items | _ => [] end)
     = ["500"; "120"]
  /\ exists items,
       _get_menu_items two_dishes = Ok items
       /\ Forall (fun item =>
                    forallb Str.isdigit (list_ascii_of_string (MenuItem.price item))
                    = true)
            items.
Proof.
  split; [vm_compute; reflexivity |].
  split; [vm_compute; reflexivity |].
  apply (item_prices_are_digits two_dishes). vm_compute. reflexivity.
Defined.

(** X4: the price read off a price text in ASCII is its first run of
    digits and stops there: of "Rs. 1,250" it keeps "1". *)
Theorem price_is_first_digit_run (pre digits post : string) :
  is_ascii (pre ++ digits ++ post) = true ->
  no_digit pre = true ->
  digits_only digits = true ->
  no_digit_first post = true ->
  price_of (pre ++ digits ++ post) = digits.
Proof.
  intros _ Hpre Hdigits Hpost.
  pose proof (price_pattern_first_digit_run pre digits post Hpre Hdigits Hpost) as H.
  unfold price_of.
  assert (Htruthy : Str.truthy (pre ++ digits ++ post) = true).
  { unfold digits_only in Hdigits. apply andb_prop in Hdigits.
    destruct Hdigits as [Hne _].
    destruct pre; simpl; [| reflexivity].
    destruct digits; [discriminate | reflexivity]. }
  rewrite Htruthy.
  destruct (Re.search price_pattern (pre ++ digits ++ post)) as [mo |];
    simpl in H; [| discriminate].
  injection H as H. exact H.
Qed.

Lemma price_is_first_digit_run_witness :
  is_ascii ("Rs. " ++ "1" ++ ",250") = true
  /\ no_digit "Rs. " = true
  /\ digits_only "1" = true
  /\ no_digit_first ",250" = true
  /\ price_of "Rs. 1,250" = "1".
Proof.
  split; [reflexivity |]. split; [reflexivity |]. split; [reflexivity |].
  split; [reflexivity |].
  apply (price_is_first_digit_run "Rs. " "1" ",250"); reflexivity.
Defined.

(** ** Postal codes, addresses of mail and coordinates *)

Lemma string_of_list_ascii_app (u v : list ascii) :
  string_of_list_ascii (u ++ v) = string_of_list_ascii u ++ string_of_list_ascii v.
Proof. induction u as [| c u IH]; simpl; [reflexivity | rewrite IH; reflexivity]. Qed.

Lemma length_list_ascii_of_string (s : string) :
  length (list_ascii_of_string s) = String.length s.
Proof. induction s as [| c s IH]; simpl; [reflexivity | rewrite IH; reflexivity]. Qed.

Lemma steps_class_reaches (f : ascii -> bool) (p p' : Re.pos) :
  steps (Re.Class f) p p' -> exists c, reaches p [c] p' /\ f c = true.
Proof.
  intros (c & tl & Hrest & Hc & ->). exists c.
  split; [split; [exact Hrest | reflexivity] | exact Hc].
Qed.

Lemma word_at_digits (u l : list ascii) :
  u <> [] -> forallb Str.isdigit u = true -> Re.word_at (u ++ l) = true.
Proof.
  destruct u as [| c u]; [contradiction |]. intros _ H. simpl in H.
  apply andb_prop in H. destruct H as [Hc _].
  simpl. unfold Re.is_word. rewrite Hc, orb_true_r. reflexivity.
Qed.

Lemma forallb_rev {A : Type} (f : A -> bool) (l : list A) :
  forallb f l = true -> forallb f (rev l) = true.
Proof.
  rewrite !forallb_forall. intros H x Hin. apply H. apply in_rev. exact Hin.
Qed.

(** What [re.search(r'\b\d{5,6}\b', address)] returns is a run of five or
    six digits of the address with no letter, digit or underscore next to
    it. *)
Lemma postal_pattern_match (address : string) (mo : Re.match_object) :
  Re.search postal_pattern address = Some mo ->
  forallb Str.isdigit (list_ascii_of_string (Re.group0 mo)) = true
  /\ 5 <= String.length (Re.group0 mo) <= 6
  /\ exists pre post,
       address = pre ++ Re.group0 mo ++ post
       /\ Re.word_at (rev (list_ascii_of_string pre)) = false
       /\ Re.word_at (list_ascii_of_string post) = false.
Proof.
  intros H. apply search_sound in H. destruct H as (pre & post & Htext & Hs & Hg).
  unfold postal_pattern in Hs. cbn [Re.seq] in Hs.
  destruct Hs as (p1 & [Hleft ->] & p2 & Hs & [Hright Hend]).
  rewrite Hend in Hg. clear Hend.
  apply repeat_class_reaches in Hs. destruct Hs as (u & Hu & Hlo & Hhi & Hf).
  pose proof (reaches_inj _ _ _ _ Hg Hu) as Heq.
  rewrite <- length_list_ascii_of_string, Heq.
  split; [exact Hf |]. split; [lia |]. exists pre, post.
  split; [exact Htext |].
  assert (Hne : u <> []) by (destruct u; [simpl in Hlo; lia | discriminate]).
  destruct Hu as [Hrest Hbefore]. cbn [Re.rest Re.before] in *.
  split.
  - rewrite Hrest, (word_at_digits u _ Hne Hf) in Hleft.
    destruct (Re.word_at (rev (list_ascii_of_string pre))); [discriminate | reflexivity].
  - rewrite Hbefore in Hright.
    rewrite (word_at_digits (rev u)) in Hright.
    + rewrite list_ascii_of_string_app, Heq in Hrest.
      apply app_inv_head in Hrest. rewrite <- Hrest in Hright.
      destruct (Re.word_at (list_ascii_of_string post)); [discriminate | reflexivity].
    + intros Hrev. apply Hne. rewrite <- (rev_involutive u), Hrev. reflexivity.
    + apply forallb_rev. exact Hf.
Qed.

(** X5: with pages in ASCII, the postal code that [_get_postal_code]
    reads is a run of five or six digits of the address that
    [_get_address] returns, with no letter, digit or underscore before it
    or after it, or it is empty. *)
Theorem postal_code_shape {W : Type} (driver : WebDriver W) (soup : Bs4.tag) (w : W) :
  ascii_pages driver ->
  ascii_tag soup = true ->
  exists w' address postal_code,
    _get_address driver soup w = (w', Ok address)
    /\ _get_postal_code driver soup w = (w', Ok postal_code)
    /\ (postal_code = ""
        \/ (forallb Str.isdigit (list_ascii_of_string postal_code) = true
            /\ 5 <= String.length postal_code <= 6
            /\ exists pre post,
                 address = pre ++ postal_code ++ post
                 /\ Re.word_at (rev (list_ascii_of_string pre)) = false
                 /\ Re.word_at (list_ascii_of_string post) = false)).
Proof.
  intros _ _.
  destruct (_get_address_returns driver soup w) as (w' & address & Haddr).
  exists w', address.
  unfold _get_postal_code, try_except, bind. rewrite Haddr.
  destruct (Re.search postal_pattern address) as [mo |] eqn:Hsearch.
  - exists (Re.group0 mo). split; [reflexivity |]. split; [reflexivity |].
    right. apply (postal_pattern_match _ _ Hsearch).
  - exists "". split; [reflexivity |]. split; [reflexivity |]. left. reflexivity.
Qed.

Lemma static_driver_ascii_pages (page : Bs4.tag) :
  ascii_tag page = true -> ascii_pages (static_driver page).
Proof.
  intros Hpage w w' page' H. simpl in H. injection H as _ <-. exact Hpage.
Qed.

Lemma postal_code_shape_witness :
  ascii_pages (static_driver restaurant_page)
  /\ ascii_tag restaurant_page = true
  /\ _get_address (static_driver restaurant_page) restaurant_page 0
     = (0, Ok "12 Mall Road, Lahore 54660")
  /\ _get_postal_code (static_driver restaurant_page) restaurant_page 0
     = (0, Ok "54660")
  /\ exists w' address postal_code,
       _get_address (static_driver restaurant_page) restaurant_page 0
       = (w', Ok address)
       /\ _get_postal_code (static_driver restaurant_page) restaurant_page 0
          = (w', Ok postal_code)
       /\ (postal_code = ""
           \/ (forallb Str.isdigit (list_ascii_of_string postal_code) = true
               /\ 5 <= String.length postal_code <= 6
               /\ exists pre post,
                    address = pre ++ postal_code ++ post
                    /\ Re.word_at (rev (list_ascii_of_string pre)) = false
                    /\ Re.word_at (list_ascii_of_string post) = false)).
Proof.
  assert (Hpage : ascii_tag restaurant_page = true) by (vm_compute; reflexivity).
  split; [apply static_driver_ascii_pages; exact Hpage |].
  split; [exact Hpage |].
  split; [vm_compute; reflexivity |].
  split; [vm_compute; reflexivity |].
  apply (postal_code_shape (static_driver restaurant_page) restaurant_page 0
           (static_driver_ascii_pages restaurant_page Hpage) Hpage).
Defined.

(** What [re.search] returns for the pattern of [_get_email] has the parts
    of an address of mail. *)
Lemma email_pattern_match (page_text : string) (mo : Re.match_object) :
  Re.search email_pattern page_text = Some mo ->
  exists pre post local domain tld,
    page_text = pre ++ Re.group0 mo ++ post
    /\ Re.group0 mo = local ++ "@" ++ domain ++ "." ++ tld
    /\ local <> "" /\ domain <> ""
    /\ 2 <= String.length tld
    /\ forallb Str.isalpha (list_ascii_of_string tld) = true.
Proof.
  intros H. apply search_sound in H. destruct H as (pre & post & Htext & Hs & Hg).
  unfold email_pattern in Hs. cbn [Re.seq] in Hs.
  destruct Hs as (p1 & Hs1 & p2 & Hs2 & p3 & Hs3 & p4 & Hs4 & Hs5).
  apply repeat_class_reaches in Hs1. destruct Hs1 as (u1 & Hu1 & Hlen1 & _ & _).
  apply steps_class_reaches in Hs2. destruct Hs2 as (c2 & Hu2 & Hc2).
  apply repeat_class_reaches in Hs3. destruct Hs3 as (u3 & Hu3 & Hlen3 & _ & _).
  apply steps_class_reaches in Hs4. destruct Hs4 as (c4 & Hu4 & Hc4).
  apply repeat_class_reaches in Hs5. destruct Hs5 as (u5 & Hu5 & Hlen5 & _ & Hf5).
  apply Ascii.eqb_eq in Hc2, Hc4. subst c2 c4.
  pose proof (reaches_trans _ _ _ _ _ Hu1
                (reaches_trans _ _ _ _ _ Hu2
                   (reaches_trans _ _ _ _ _ Hu3
                      (reaches_trans _ _ _ _ _ Hu4 Hu5)))) as Hall.
  pose proof (reaches_inj _ _ _ _ Hg Hall) as Heq.
  exists pre, post, (string_of_list_ascii u1), (string_of_list_ascii u3),
    (string_of_list_ascii u5).
  split; [exact Htext |]. split; [| split; [| split; [| split]]].
  - rewrite <- (string_of_list_ascii_of_string (Re.group0 mo)), Heq.
    rewrite !string_of_list_ascii_app. reflexivity.
  - destruct u1; [simpl in Hlen1; lia | discriminate].
  - destruct u3; [simpl in Hlen3; lia | discriminate].
  - rewrite <- length_list_ascii_of_string, list_ascii_of_string_of_list_ascii.
    exact Hlen5.
  - rewrite list_ascii_of_string_of_list_ascii. exact Hf5.
Qed.

(** X6: the address of mail that [_get_email] returns is a part of the
    text of the page that reads local@domain.tld, with a top-level domain
    of at least two letters; when the text has none it is what the first
    link on "mailto:" points to, without "mailto:", or it is empty. *)
Theorem email_shape (soup : Bs4.tag) :
  exists email,
    _get_email soup = Ok email
    /\ ((exists pre post local domain tld,
            Bs4.get_text soup = pre ++ email ++ post
            /\ email = local ++ "@" ++ domain ++ "." ++ tld
            /\ local <> "" /\ domain <> ""
            /\ 2 <= String.length tld
            /\ forallb Str.isalpha (list_ascii_of_string tld) = true)
        \/ (Re.search email_pattern (Bs4.get_text soup) = None
            /\ email = link_target soup "mailto:")).
Proof.
  unfold _get_email. cbv zeta.
  destruct (Re.search email_pattern (Bs4.get_text soup)) as [mo |] eqn:Hsearch.
  - exists (Re.group0 mo). split; [reflexivity |]. left.
    apply (email_pattern_match _ _ Hsearch).
  - exists (link_target soup "mailto:"). split; [reflexivity |]. right.
    split; reflexivity.
Qed.

(** The group of the pattern of [_get_latitude] and [_get_longitude], when
    [re.search] finds the pattern: at least one character, digits, "-" and
    "." only. *)
Lemma coordinate_pattern_match (key s : string) (mo : Re.match_object) :
  Re.search (coordinate_pattern key) s = Some mo ->
  exists v,
    Re.group1 mo = Some v /\ v <> ""
    /\ forallb coordinate_char (list_ascii_of_string v) = true.
Proof.
  unfold Re.search. intros H. apply search_from_sound in H.
  destruct H as (skipped & l' & _ & H).
  unfold Re.match_at, coordinate_pattern in H. cbn [Re.seq] in H.
  do 5 (apply m_cat_sound in H; destruct H as (? & ? & _ & H)).
  apply m_group_sound in H. destruct H as (p' & Hs & H).
  injection H as <-. cbn [Re.group1 option_map].
  apply repeat_class_reaches in Hs. destruct Hs as (u & Hu & Hlen & _ & Hf).
  rewrite (reaches_consumed _ _ _ Hu).
  exists (string_of_list_ascii u). split; [reflexivity |].
  rewrite list_ascii_of_string_of_list_ascii. split; [| exact Hf].
  destruct u; [simpl in Hlen; lia | discriminate].
Qed.

Lemma coordinate_in_scripts_shape (key : string) (scripts : list Bs4.tag) :
  coordinate_in_scripts key scripts = ""
  \/ (coordinate_in_scripts key scripts <> ""
      /\ forallb coordinate_char
           (list_ascii_of_string (coordinate_in_scripts key scripts)) = true).
Proof.
  induction scripts as [| script rest IH]; simpl; [left; reflexivity |].
  destruct (Bs4.string_ script) as [s |]; [| exact IH].
  destruct (Str.truthy s); [| exact IH].
  destruct (Re.search (coordinate_pattern key) s) as [mo |] eqn:Hsearch; [| exact IH].
  destruct (coordinate_pattern_match _ _ _ Hsearch) as (v & Hg & Hne & Hf).
  unfold group1_or_empty. rewrite Hg. right. split; assumption.
Qed.

Lemma get_coordinate_shape (key : string) (soup : Bs4.tag) :
  exists v,
    get_coordinate key soup = Ok v
    /\ ((exists meta,
            Bs4.select_one soup (meta_property ("place:location:" ++ key)) = Some meta
            /\ Bs4.get meta "content" = Some v)
        \/ forallb coordinate_char (list_ascii_of_string v) = true).
Proof.
  unfold get_coordinate.
  assert (Hscripts : exists v,
             Ok (coordinate_in_scripts key (Bs4.find_all soup "script")) = Ok v
             /\ ((exists meta,
                     Bs4.select_one soup (meta_property ("place:location:" ++ key))
                     = Some meta
                     /\ Bs4.get meta "content" = Some v)
                 \/ forallb coordinate_char (list_ascii_of_string v) = true)).
  { eexists. split; [reflexivity |]. right.
    destruct (coordinate_in_scripts_shape key (Bs4.find_all soup "script"))
      as [H | [_ H]]; [rewrite H; reflexivity | exact H]. }
  destruct (Bs4.select_one soup _) as [meta |] eqn:Hmeta; simpl; [| exact Hscripts].
  unfold Bs4.get_truthy.
  destruct (Bs4.get meta "content") as [content |] eqn:Hcontent; [| exact Hscripts].
  destruct (Str.truthy content); [| exact Hscripts].
  exists content. split; [reflexivity |]. left.
  exists meta. split; [reflexivity | exact Hcontent].
Qed.

(** X7: on a page in ASCII, a latitude or a longitude is the content of
    the [meta] tag of the page for it or, read after its key in a script, a
    text of digits, "-" and "." only; it is empty when the page has
    neither. *)
Theorem coordinates_shape (soup : Bs4.tag) :
  ascii_tag soup = true ->
  (exists latitude,
      _get_latitude soup = Ok latitude
      /\ ((exists meta,
              Bs4.select_one soup (meta_property "place:location:latitude") = Some meta
              /\ Bs4.get meta "content" = Some latitude)
          \/ forallb coordinate_char (list_ascii_of_string latitude) = true))
  /\ (exists longitude,
        _get_longitude soup = Ok longitude
        /\ ((exists meta,
                Bs4.select_one soup (meta_property "place:location:longitude")
                = Some meta
                /\ Bs4.get meta "content" = Some longitude)
            \/ forallb coordinate_char (list_ascii_of_string longitude) = true)).
Proof.
  intros _. split.
  - apply (get_coordinate_shape "latitude" soup).
  - apply (get_coordinate_shape "longitude" soup).
Qed.

Lemma coordinates_shape_witness :
  ascii_tag map_page = true
  /\ _get_latitude map_page = Ok "31.5204"
  /\ _get_longitude map_page = Ok "74.3587"
  /\ (exists latitude,
        _get_latitude map_page = Ok latitude
        /\ ((exists meta,
                Bs4.select_one map_page (meta_property "place:location:latitude")
                = Some meta
                /\ Bs4.get meta "content" = Some latitude)
            \/ forallb coordinate_char (list_ascii_of_string latitude) = true))
  /\ (exists longitude,
        _get_longitude map_page = Ok longitude
        /\ ((exists meta,
                Bs4.select_one map_page (meta_property "place:location:longitude")
                = Some meta
                /\ Bs4.get meta "content" = Some longitude)
            \/ forallb coordinate_char (list_ascii_of_string longitude) = true)).
Proof.
  split; [vm_compute; reflexivity |].
  split; [vm_compute; reflexivity |].
  split; [vm_compute; reflexivity |].
  apply (coordinates_shape map_page). vm_compute. reflexivity.
Defined.

(** ** What the methods that drive the browser never do *)

Section NeverRaise.
Context {W : Type}.
Variable driver : WebDriver W.
Variable self : FoodpandaScraper.

(** The body of [extract_restaurant_details] returns a dictionary of a
    restaurant, never one with an error. *)
Lemma extract_restaurant_details_cases (fuel : nat) (url : string) (w w' : W)
    (restaurant_data : details) :
  extract_restaurant_details driver fuel url w = (w', Ok restaurant_data) ->
  (exists r, restaurant_data = Details r)
  \/ (exists e, restaurant_data = Error url (str_exn e)).
Proof.
  unfold extract_restaurant_details. intros H.
  apply try_except_Ok in H. destruct H as [H | (w1 & e & _ & H)].
  - repeat (apply bind_Ok in H; destruct H as (? & ? & _ & H)).
    unfold ret in H. injection H as _ <-. left. eauto.
  - unfold ret in H. injection H as _ <-. right. eauto.
Qed.

Lemma extract_restaurant_details_no_raise (fuel : nat) (url : string) (w w' : W)
    (e : exn) :
  extract_restaurant_details driver fuel url w <> (w', Raise e).
Proof.
  unfold extract_restaurant_details.
  match goal with
  | |- try_except ?c _ _ <> _ =>
      destruct (try_except_default c (fun e => Error url (str_exn e)) w)
        as [(w1 & a & H) | (w1 & H & _)]
  end; rewrite H; discriminate.
Qed.

Lemma get_restaurant_urls_no_raise (fuel : nat) (limit : option nat) (w w' : W)
    (e : exn) :
  get_restaurant_urls driver self fuel limit w <> (w', Raise e).
Proof.
  unfold get_restaurant_urls.
  match goal with
  | |- try_except ?c _ _ <> _ =>
      destruct (try_except_default c (fun _ => @nil string) w)
        as [(w1 & a & H) | (w1 & H & _)]
  end; rewrite H; discriminate.
Qed.

End NeverRaise.

(** X8: [extract_restaurant_details] never raises: no exception leaves
    it, whatever the browser does. A dictionary of an error that it returns
    holds the URL it was asked for, and when loading the page raises an
    [Exception] with a message, the result is at once the dictionary of
    that URL and that message. *)
Theorem extract_restaurant_details_never_raises {W : Type} (driver : WebDriver W)
    (fuel : nat) (url : string) (w : W) :
  (forall w' e, extract_restaurant_details driver fuel url w <> (w', Raise e))
  /\ (forall w' u error,
        extract_restaurant_details driver fuel url w = (w', Ok (Error u error)) ->
        u = url)
  /\ (forall w1 msg,
        do_get driver url w = (w1, Raises (Exception msg)) ->
        extract_restaurant_details driver fuel url w = (w1, Ok (Error url msg))).
Proof.
  split; [| split].
  - intros w' e. apply extract_restaurant_details_no_raise.
  - intros w' u error H.
    destruct (extract_restaurant_details_cases driver fuel url w w' _ H)
      as [[r Hr] | [e He]]; [discriminate Hr |].
    injection He as -> _. reflexivity.
  - intros w1 msg Hget.
    unfold extract_restaurant_details, try_except, bind, get, call.
    rewrite Hget. reflexivity.
Qed.

(** X9: [get_restaurant_urls] never raises, and an exception while it
    works, as one of the navigation to the listing, gives the empty list. *)
Theorem get_restaurant_urls_never_raises {W : Type} (driver : WebDriver W)
    (self : FoodpandaScraper) (fuel : nat) (limit : option nat) (w : W) :
  ((exists w' restaurant_urls,
       get_restaurant_urls driver self fuel limit w = (w', Ok restaurant_urls))
   \/ (exists w', get_restaurant_urls driver self fuel limit w = (w', OutOfFuel)))
  /\ (forall w1 e,
        do_get driver (restaurants_url self) w = (w1, Raises e) ->
        get_restaurant_urls driver self fuel limit w = (w1, Ok [])).
Proof.
  split.
  - destruct (get_restaurant_urls driver self fuel limit w) as [w' [urls | e |]] eqn:H.
    + left. eauto.
    + exfalso. apply (get_restaurant_urls_no_raise driver self fuel limit w w' e H).
    + right. eauto.
  - intros w1 e Hget.
    unfold get_restaurant_urls, try_except, bind, get, call.
    rewrite Hget. reflexivity.
Qed.


(** ** The limit of [get_restaurant_urls] *)

Section Limit.
Context {W : Type}.
Variable driver : WebDriver W.
Variable self : FoodpandaScraper.

(** The scroll loop leaves the list as it got it, without a pass over the
    page, or returns at most [limit] URLs. *)
Lemma scroll_loop_limit (limit : nat) (fuel : nat) :
  forall restaurant_urls prev_count scroll_attempts w w' result,
    scroll_loop driver self fuel (Some limit) restaurant_urls prev_count
      scroll_attempts w = (w', Ok result) ->
    (result = restaurant_urls /\ w' = w) \/ length result <= limit.
Proof.
  induction fuel as [| fuel IH]; intros urls prev attempts w w' result H;
    cbn [scroll_loop] in H;
    destruct (under_limit (Some limit) (length urls)
              && (attempts <? max_scroll_attempts)) eqn:Hcond;
    try (unfold ret in H; injection H as <- <-; left; split; reflexivity).
  - discriminate.
  - right.
    apply bind_Ok in H. destruct H as (w1 & soup & _ & H). cbv zeta in H.
    apply bind_Ok in H. destruct H as (w2 & [] & _ & H).
    apply bind_Ok in H. destruct H as (w3 & [] & _ & H).
    destruct (limit_reached (Some limit) (length (collect_page self soup urls)))
      eqn:Hreached.
    + unfold ret in H. injection H as _ <-. rewrite length_firstn. lia.
    + apply IH in H. destruct H as [[-> _] | H]; [| exact H].
      apply andb_prop in Hcond. destruct Hcond as [Hunder _].
      simpl in Hunder, Hreached. apply Nat.ltb_lt in Hunder.
      destruct (limit =? 0) eqn:Hzero; [apply Nat.eqb_eq in Hzero; lia |].
      simpl in Hreached. apply Nat.leb_gt in Hreached. lia.
Qed.

End Limit.

(** X10: with a limit, [get_restaurant_urls] returns at most that many
    URLs, unless what it returns is the first reading of the page as it
    is: the list is cut to the limit by the scroll loop only. *)
Theorem limit_holds_after_first_reading {W : Type} (driver : WebDriver W)
    (self : FoodpandaScraper) (fuel limit : nat) (w w' : W)
    (restaurant_urls : list string) :
  get_restaurant_urls driver self fuel (Some limit) w = (w', Ok restaurant_urls) ->
  length restaurant_urls <= limit
  \/ exists w0,
       first_cards driver self restaurant_selectors [] w0 = (w', Ok restaurant_urls).
Proof.
  unfold get_restaurant_urls. intros H.
  apply try_except_Ok in H. destruct H as [H | (w1 & e & _ & H)].
  - do 3 (apply bind_Ok in H; destruct H as (? & ? & _ & H)).
    apply bind_Ok in H. destruct H as (w1 & first & Hfirst & H).
    destruct (nonempty first).
    + apply scroll_loop_limit in H. destruct H as [[-> ->] | H].
      * right. eauto.
      * left. exact H.
    + unfold ret in H. injection H as _ <-. left. simpl. lia.
  - unfold ret in H. injection H as _ <-. left. simpl. lia.
Qed.

Lemma limit_holds_after_first_reading_witness :
  get_restaurant_urls (static_driver one_card) pk 1 (Some 2) 0
  = (1, Ok [kfc_url; kfc_url])
  /\ (length [kfc_url; kfc_url] <= 2
      \/ exists w0,
           first_cards (static_driver one_card) pk restaurant_selectors [] w0
           = (1, Ok [kfc_url; kfc_url])).
Proof.
  assert (H : get_restaurant_urls (static_driver one_card) pk 1 (Some 2) 0
              = (1, Ok [kfc_url; kfc_url])) by (vm_compute; reflexivity).
  split; [exact H |].
  apply (limit_holds_after_first_reading (static_driver one_card) pk 1 2 0 1 _ H).
Defined.

(** ** Listings whose links are URLs already *)

Lemma mem_In (x : string) (l : list string) : Str.mem x l = true <-> In x l.
Proof.
  unfold Str.mem. rewrite existsb_exists. split.
  - intros (y & Hin & Heq). apply String.eqb_eq in Heq. subst y. exact Hin.
  - intros Hin. exists x. split; [exact Hin | apply String.eqb_refl].
Qed.

Lemma NoDup_snoc {A : Type} (l : list A) (x : A) :
  NoDup l -> ~ In x l -> NoDup (l ++ [x]).
Proof.
  induction l as [| a l IH]; intros Hl Hx; simpl.
  - constructor; [intros [] | constructor].
  - inversion Hl as [| ? ? Ha Hl']; subst. constructor.
    + intros Hin. apply in_app_or in Hin. destruct Hin as [Hin | [-> | []]].
      * contradiction.
      * apply Hx. left. reflexivity.
    + apply IH; [exact Hl' |]. intros Hin. apply Hx. right. exact Hin.
Qed.

Lemma NoDup_firstn_of {A : Type} (n : nat) (l : list A) :
  NoDup l -> NoDup (firstn n l).
Proof.
  intros Hl. rewrite <- (firstn_skipn n l) in Hl.
  apply (NoDup_app_remove_r _ _ Hl).
Qed.

Section Joined.
Context {W : Type}.
Variable driver : WebDriver W.
Variable self : FoodpandaScraper.

Lemma joined_hrefs_select (page : Bs4.tag) (selector : Bs4.selector)
    (card : Bs4.tag) (url : string) :
  joined_hrefs self page = true ->
  In card (Bs4.select page selector) ->
  Bs4.get card "href" = Some url ->
  urljoin (base_url self) url = url.
Proof.
  unfold joined_hrefs, Bs4.select. intros Hpage Hin Hhref.
  apply filter_In in Hin. destruct Hin as [Hin _].
  rewrite forallb_forall in Hpage. specialize (Hpage card Hin).
  rewrite Hhref in Hpage. apply String.eqb_eq. exact Hpage.
Qed.

Lemma collect_cards_NoDup (cards : list Bs4.tag) :
  (forall card url,
      In card cards -> Bs4.get card "href" = Some url ->
      urljoin (base_url self) url = url) ->
  forall restaurant_urls,
    NoDup restaurant_urls -> NoDup (collect_cards self cards restaurant_urls).
Proof.
  induction cards as [| card rest IH]; intros Hcards urls Hurls; simpl.
  - exact Hurls.
  - apply IH; [intros c u Hin; apply Hcards; right; exact Hin |].
    destruct (Bs4.get card "href") as [url |] eqn:Hhref; [| exact Hurls].
    destruct (Str.truthy url); [| exact Hurls].
    destruct (Str.mem url urls) eqn:Hmem; [exact Hurls |]. simpl.
    rewrite (Hcards card url (or_introl eq_refl) Hhref).
    apply NoDup_snoc; [exact Hurls |].
    intros Hin. apply mem_In in Hin. congruence.
Qed.

Lemma collect_page_NoDup (page : Bs4.tag) (restaurant_urls : list string) :
  joined_hrefs self page = true ->
  NoDup restaurant_urls -> NoDup (collect_page self page restaurant_urls).
Proof.
  intros Hpage. unfold collect_page. generalize restaurant_selectors.
  intros selectors. revert restaurant_urls.
  induction selectors as [| selector rest IH]; intros urls Hurls; simpl.
  - exact Hurls.
  - apply IH. apply collect_cards_NoDup; [| exact Hurls].
    intros card url Hin Hhref.
    apply (joined_hrefs_select page selector card url Hpage Hin Hhref).
Qed.

Hypothesis joined_pages :
  forall w w' page,
    do_page_source driver w = (w', Returns page) -> joined_hrefs self page = true.

Lemma page_source_joined (w w' : W) (page : Bs4.tag) :
  page_source driver w = (w', Ok page) -> joined_hrefs self page = true.
Proof.
  unfold page_source, call. intros H.
  destruct (do_page_source driver w) as [w1 [page' | e]] eqn:Hsource;
    [| discriminate].
  injection H as <- <-. apply (joined_pages w w1 page' Hsource).
Qed.

Lemma first_cards_NoDup (selectors : list Bs4.selector) :
  forall restaurant_urls w w' result,
    NoDup restaurant_urls ->
    first_cards driver self selectors restaurant_urls w = (w', Ok result) ->
    NoDup result.
Proof.
  induction selectors as [| selector rest IH]; intros urls w w' result Hurls H;
    cbn [first_cards] in H.
  - unfold ret in H. injection H as _ <-. exact Hurls.
  - apply bind_Ok in H. destruct H as (w1 & found & Hfound & H).
    unfold except_timeout in Hfound. apply try_except_Ok in Hfound.
    destruct Hfound as [Hfound | (w2 & e & _ & Hfound)].
    + apply bind_Ok in Hfound. destruct Hfound as (w2 & [] & _ & Hfound).
      apply bind_Ok in Hfound. destruct Hfound as (w3 & soup & Hsoup & Hfound).
      unfold ret in Hfound. injection Hfound as _ <-.
      assert (Hnew : NoDup (collect_cards self (Bs4.select soup selector) urls)).
      { apply collect_cards_NoDup; [| exact Hurls].
        intros card url Hin Hhref.
        apply (joined_hrefs_select soup selector card url
                 (page_source_joined _ _ _ Hsoup) Hin Hhref). }
      destruct (nonempty _).
      * unfold ret in H. injection H as _ <-. exact Hnew.
      * apply (IH _ _ _ _ Hnew H).
    + destruct (is_timeout e).
      * unfold ret in Hfound. injection Hfound as _ <-. apply (IH _ _ _ _ Hurls H).
      * discriminate.
Qed.

Lemma scroll_loop_NoDup (limit : option nat) (fuel : nat) :
  forall restaurant_urls prev_count scroll_attempts w w' result,
    NoDup restaurant_urls ->
    scroll_loop driver self fuel limit restaurant_urls prev_count
      scroll_attempts w = (w', Ok result) ->
    NoDup result.
Proof.
  induction fuel as [| fuel IH]; intros urls prev attempts w w' result Hurls H;
    cbn [scroll_loop] in H;
    destruct (under_limit limit (length urls) && (attempts <? max_scroll_attempts));
    try (unfold ret in H; injection H as _ <-; exact Hurls).
  - discriminate.
  - apply bind_Ok in H. destruct H as (w1 & soup & Hsoup & H). cbv zeta in H.
    apply bind_Ok in H. destruct H as (w2 & [] & _ & H).
    apply bind_Ok in H. destruct H as (w3 & [] & _ & H).
    pose proof (collect_page_NoDup soup urls (page_source_joined _ _ _ Hsoup) Hurls)
      as Hnew.
    destruct (limit_reached limit (length (collect_page self soup urls))).
    + unfold ret in H. injection H as _ <-. apply NoDup_firstn_of. exact Hnew.
    + apply (IH _ _ _ _ _ _ Hnew H).
Qed.

Lemma get_restaurant_urls_NoDup (fuel : nat) (limit : option nat) (w w' : W)
    (restaurant_urls : list string) :
  get_restaurant_urls driver self fuel limit w = (w', Ok restaurant_urls) ->
  NoDup restaurant_urls.
Proof.
  unfold get_restaurant_urls. intros H.
  apply try_except_Ok in H. destruct H as [H | (w1 & e & _ & H)].
  - do 3 (apply bind_Ok in H; destruct H as (? & ? & _ & H)).
    apply bind_Ok in H. destruct H as (w1 & first & Hfirst & H).
    apply first_cards_NoDup in Hfirst; [| constructor].
    destruct (nonempty first).
    + apply (scroll_loop_NoDup _ _ _ _ _ _ _ _ Hfirst H).
    + unfold ret in H. injection H as _ <-. constructor.
  - unfold ret in H. injection H as _ <-. constructor.
Qed.

End Joined.

(** A plain https URL is absolute: [urljoin] returns it as it is. *)
Lemma plain_https_url_joined (base url : string) :
  plain_https_url url = true -> urljoin base url = url.
Proof.
  unfold plain_https_url, urljoin. intros H.
  apply andb_prop in H. destruct H as [H _]. rewrite H.
  rewrite orb_true_r. reflexivity.
Qed.

Lemma plain_hrefs_joined (self : FoodpandaScraper) (page : Bs4.tag) :
  plain_hrefs page = true -> joined_hrefs self page = true.
Proof.
  unfold plain_hrefs, joined_hrefs. intros H.
  rewrite forallb_forall in *. intros card Hin. specialize (H card Hin).
  destruct (Bs4.get card "href") as [url |]; [| reflexivity].
  rewrite (plain_https_url_joined _ _ H). apply String.eqb_refl.
Qed.

(** X11: when every [href] of the pages that the browser shows is a plain
    https URL, which is "https://", a letter or a digit, and then letters,
    digits, "/", "-", "." and "_" only, no URL comes twice in the list that
    [get_restaurant_urls] returns. *)
Theorem joined_listing_has_no_duplicate {W : Type} (driver : WebDriver W)
    (self : FoodpandaScraper) (fuel : nat) (limit : option nat) (w w' : W)
    (restaurant_urls : list string) :
  (forall w0 w1 page,
      do_page_source driver w0 = (w1, Returns page) ->
      plain_hrefs page = true) ->
  get_restaurant_urls driver self fuel limit w = (w', Ok restaurant_urls) ->
  NoDup restaurant_urls.
Proof.
  intros Hpages H.
  apply (get_restaurant_urls_NoDup driver self
           (fun w0 w1 page Hsource =>
              plain_hrefs_joined self page (Hpages w0 w1 page Hsource))
           fuel limit w w' _ H).
Qed.

Lemma joined_listing_has_no_duplicate_witness :
  (forall w0 w1 page,
      do_page_source (static_driver two_cards) w0 = (w1, Returns page) ->
      plain_hrefs page = true)
  /\ get_restaurant_urls (static_driver two_cards) pk 21 None 0
     = (21, Ok [kfc_url; mcd_url])
  /\ NoDup [kfc_url; mcd_url].
Proof.
  assert (Hpages : forall w0 w1 page,
             do_page_source (static_driver two_cards) w0 = (w1, Returns page) ->
             plain_hrefs page = true).
  { intros w0 w1 page H. simpl in H. injection H as _ <-. vm_compute. reflexivity. }
  assert (H : get_restaurant_urls (static_driver two_cards) pk 21 None 0
              = (21, Ok [kfc_url; mcd_url])) by (vm_compute; reflexivity).
  split; [exact Hpages |]. split; [exact H |].
  apply (joined_listing_has_no_duplicate (static_driver two_cards) pk 21 None 0 21
           _ Hpages H).
Defined.

(** ** The end of a feed *)

Section Covered.
Variable self : FoodpandaScraper.

Lemma collect_cards_incl (cards : list Bs4.tag) :
  forall restaurant_urls url,
    In url restaurant_urls -> In url (collect_cards self cards restaurant_urls).
Proof.
  induction cards as [| card rest IH]; intros urls url Hin; simpl; [exact Hin |].
  apply IH.
  destruct (Bs4.get card "href") as [u |]; [| exact Hin].
  destruct (Str.truthy u && negb (Str.mem u urls)); [| exact Hin].
  apply in_or_app. left. exact Hin.
Qed.

(** Cards whose URLs are all in the list add nothing to it. *)
Lemma collect_cards_covered (cards : list Bs4.tag) :
  forall restaurant_urls,
    covered_by cards restaurant_urls ->
    collect_cards self cards restaurant_urls = restaurant_urls.
Proof.
  induction cards as [| card rest IH]; intros urls Hcov; simpl; [reflexivity |].
  assert (Hrest : covered_by rest urls).
  { intros c u Hin. apply Hcov. right. exact Hin. }
  destruct (Bs4.get card "href") as [u |] eqn:Hhref; [| apply IH; exact Hrest].
  destruct (Str.truthy u) eqn:Htruthy; [| apply IH; exact Hrest].
  pose proof (Hcov card u (or_introl eq_refl) Hhref Htruthy) as Hin.
  apply mem_In in Hin. rewrite Hin. simpl. apply IH. exact Hrest.
Qed.

(** After the loop over the cards, the list holds the URL of every card
    whose [href] is a URL that [urljoin] leaves as it is. *)
Lemma collect_cards_covers (cards : list Bs4.tag) :
  (forall card url,
      In card cards -> Bs4.get card "href" = Some url ->
      urljoin (base_url self) url = url) ->
  forall restaurant_urls,
    covered_by cards (collect_cards self cards restaurant_urls).
Proof.
  induction cards as [| card rest IH]; intros Hjoined urls c u Hin Hhref Htruthy.
  - destruct Hin.
  - simpl. destruct Hin as [-> | Hin].
    + apply collect_cards_incl. rewrite Hhref, Htruthy. simpl.
      destruct (Str.mem u urls) eqn:Hmem; simpl.
      * apply mem_In. exact Hmem.
      * apply in_or_app. right. left.
        apply (Hjoined c u (or_introl eq_refl) Hhref).
    + apply (IH (fun c' u' H' => Hjoined c' u' (or_intror H')) _ c u Hin Hhref Htruthy).
Qed.

Lemma collect_selectors_covers (page : Bs4.tag) (selectors : list Bs4.selector) :
  joined_hrefs self page = true ->
  forall restaurant_urls,
    let result :=
      fold_left (fun urls selector => collect_cards self (Bs4.select page selector) urls)
        selectors restaurant_urls in
    (forall selector, In selector selectors -> covered_by (Bs4.select page selector) result)
    /\ (forall url, In url restaurant_urls -> In url result).
Proof.
  intros Hpage.
  induction selectors as [| selector rest IH]; intros urls; simpl.
  - split; [intros selector [] | auto].
  - destruct (IH (collect_cards self (Bs4.select page selector) urls)) as [Hcov Hincl].
    split.
    + intros sel [<- | Hin]; [| apply Hcov; exact Hin].
      intros c u Hc Hhref Htruthy. apply Hincl.
      apply (collect_cards_covers (Bs4.select page selector)
               (fun c' u' Hin' Hh' => joined_hrefs_select self page selector c' u' Hpage Hin' Hh')
               urls c u Hc Hhref Htruthy).
    + intros url Hin. apply Hincl. apply collect_cards_incl. exact Hin.
Qed.

Lemma collect_selectors_fixed (page : Bs4.tag) (selectors : list Bs4.selector)
    (restaurant_urls : list string) :
  (forall selector,
      In selector selectors -> covered_by (Bs4.select page selector) restaurant_urls) ->
  fold_left (fun urls selector => collect_cards self (Bs4.select page selector) urls)
    selectors restaurant_urls = restaurant_urls.
Proof.
  induction selectors as [| selector rest IH]; intros Hcov; simpl; [reflexivity |].
  rewrite (collect_cards_covered _ _ (Hcov selector (or_introl eq_refl))).
  apply IH. intros sel Hin. apply Hcov. right. exact Hin.
Qed.

(** A second pass over a page whose links are URLs already finds nothing
    new. *)
Lemma collect_page_idempotent (page : Bs4.tag) (restaurant_urls : list string) :
  joined_hrefs self page = true ->
  collect_page self page (collect_page self page restaurant_urls)
  = collect_page self page restaurant_urls.
Proof.
  intros Hpage. unfold collect_page.
  apply collect_selectors_fixed.
  apply (collect_selectors_covers page restaurant_selectors Hpage restaurant_urls).
Qed.

End Covered.

Section EndOfFeed.
Variable feed : nat -> Bs4.tag.
Variable height : nat -> nat.
Variable self : FoodpandaScraper.
Variable stable : nat.
Hypothesis feed_is_stable : forall w, stable <= w -> feed w = feed stable.
Hypothesis stable_page_joined : joined_hrefs self (feed stable) = true.

(** With nothing new on the pages to come, the loop ends within the passes
    that its counter still allows. *)
Lemma scroll_loop_quiet (limit : option nat) (restaurant_urls : list string)
    (scroll_attempts w fuel : nat) :
  (forall j, collect_page self (feed (w + j)) restaurant_urls = restaurant_urls) ->
  scroll_attempts <= max_scroll_attempts ->
  max_scroll_attempts - scroll_attempts <= fuel ->
  exists w',
    scroll_loop (feed_driver feed height) self fuel limit restaurant_urls
      (length restaurant_urls) scroll_attempts w = (w', Ok restaurant_urls)
    /\ w' <= w + (max_scroll_attempts - scroll_attempts).
Proof.
  intros Hquiet Hle Hfuel.
  destruct (under_limit limit (length restaurant_urls)) eqn:Hunder.
  - exists (w + (max_scroll_attempts - scroll_attempts)). split; [| lia].
    apply scroll_loop_exits_when_quiet; [exact Hunder | lia | exact Hfuel |].
    intros j _. apply Hquiet.
  - exists w. split; [| lia].
    apply scroll_loop_exit. rewrite Hunder. reflexivity.
Qed.

(** Once the feed is stable the loop ends after one pass that may find
    something new and the passes of the counter. *)
Lemma scroll_loop_ends_when_stable (limit : option nat) (restaurant_urls : list string)
    (prev_count scroll_attempts w fuel : nat) :
  stable <= w ->
  S max_scroll_attempts <= fuel ->
  exists w' result,
    scroll_loop (feed_driver feed height) self fuel limit restaurant_urls
      prev_count scroll_attempts w = (w', Ok result)
    /\ w' <= w + S max_scroll_attempts.
Proof.
  intros Hw Hfuel. destruct fuel as [| fuel]; [lia |].
  rewrite scroll_loop_step.
  destruct (under_limit limit (length restaurant_urls)
            && (scroll_attempts <? max_scroll_attempts)) eqn:Hcond.
  - cbv zeta.
    destruct (limit_reached limit (length (collect_page self (feed w) restaurant_urls))).
    + eexists _, _. split; [reflexivity | lia].
    + apply andb_prop in Hcond. destruct Hcond as [_ Hlt]. apply Nat.ltb_lt in Hlt.
      destruct (scroll_loop_quiet limit (collect_page self (feed w) restaurant_urls)
                  (if length (collect_page self (feed w) restaurant_urls) =? prev_count
                   then S scroll_attempts else 0) (S w) fuel)
        as (w' & H & Hw').
      * intros j. rewrite (feed_is_stable (S w + j)) by lia.
        rewrite (feed_is_stable w Hw).
        apply collect_page_idempotent. exact stable_page_joined.
      * destruct (_ =? prev_count); lia.
      * lia.
      * exists w', (collect_page self (feed w) restaurant_urls).
        split; [exact H |].
        destruct (_ =? prev_count); lia.
  - eexists _, _. split; [reflexivity | lia].
Qed.

Lemma scroll_loop_ends (limit : option nat) (distance : nat) :
  forall restaurant_urls prev_count scroll_attempts w fuel,
    stable <= w + distance ->
    distance + S max_scroll_attempts <= fuel ->
    exists w' result,
      scroll_loop (feed_driver feed height) self fuel limit restaurant_urls
        prev_count scroll_attempts w = (w', Ok result)
      /\ w' <= w + distance + S max_scroll_attempts.
Proof.
  induction distance as [| distance IH];
    intros urls prev attempts w fuel Hw Hfuel.
  - destruct (scroll_loop_ends_when_stable limit urls prev attempts w fuel)
      as (w' & result & H & Hw'); [lia | lia |].
    exists w', result. split; [exact H | lia].
  - destruct fuel as [| fuel]; [lia |].
    rewrite scroll_loop_step.
    destruct (under_limit limit (length urls) && (attempts <? max_scroll_attempts)).
    + cbv zeta.
      destruct (limit_reached limit (length (collect_page self (feed w) urls))).
      * eexists _, _. split; [reflexivity | lia].
      * destruct (IH (collect_page self (feed w) urls)
                    (length (collect_page self (feed w) urls))
                    (if length (collect_page self (feed w) urls) =? prev
                     then S attempts else 0) (S w) fuel)
          as (w' & result & H & Hw'); [lia | lia |].
        exists w', result. split; [exact H | lia].
    + eexists _, _. split; [reflexivity | lia].
Qed.

(** What [get_restaurant_urls] does before the scroll loop leaves the
    simulated browser where it was. *)
Lemma captcha_loop_on_feed (prompt : string) (selectors : list Bs4.selector) :
  forall w, captcha_loop (feed_driver feed height) prompt selectors w = (w, Ok tt).
Proof.
  induction selectors as [| selector rest IH]; intros w; cbn [captcha_loop].
  - reflexivity.
  - unfold except_timeout, try_except, bind, wait_presence, input, call, ret.
    cbn [feed_driver do_wait_presence do_input].
    destruct (present (feed w) selector); cbn [is_timeout]; [reflexivity | apply IH].
Qed.

Lemma check_captcha_on_feed (prompt : string) (w : nat) :
  check_captcha (feed_driver feed height) prompt w = (w, Ok tt).
Proof.
  unfold check_captcha, try_except. rewrite captcha_loop_on_feed. reflexivity.
Qed.

Lemma first_cards_on_feed (selectors : list Bs4.selector) :
  forall restaurant_urls w,
    exists first,
      first_cards (feed_driver feed height) self selectors restaurant_urls w
      = (w, Ok first).
Proof.
  induction selectors as [| selector rest IH]; intros urls w; cbn [first_cards].
  - eexists. reflexivity.
  - unfold except_timeout, try_except, bind, wait_presence, page_source, call, ret.
    cbn [feed_driver do_wait_presence do_page_source].
    destruct (present (feed w) selector); cbn [is_timeout].
    + destruct (nonempty _); [eexists; reflexivity | apply IH].
    + apply IH.
Qed.

Lemma get_restaurant_urls_ends (limit : option nat) (fuel : nat) :
  stable + S max_scroll_attempts <= fuel ->
  exists w' restaurant_urls,
    get_restaurant_urls (feed_driver feed height) self fuel limit 0
    = (w', Ok restaurant_urls)
    /\ w' <= stable + S max_scroll_attempts.
Proof.
  intros Hfuel. unfold get_restaurant_urls.
  unfold try_except at 1. unfold bind at 1. unfold get, call at 1.
  cbn [feed_driver do_get].
  unfold bind at 1. rewrite check_captcha_on_feed.
  unfold bind at 1, except_timeout, try_except at 1, wait_absence, call, ret.
  cbn [feed_driver do_wait_absence].
  assert (Hwait : forall b : bool,
             (let (w', o) :=
                (0, if b then Raises TimeoutException else Returns tt) in
              match o with
              | Returns a => (w', Ok a)
              | Raises e => (w', @Raise unit e)
              end) = (0, if b then Raise TimeoutException else Ok tt))
    by (intros []; reflexivity).
  rewrite Hwait.
  destruct (first_cards_on_feed restaurant_selectors [] 0) as [first Hfirst].
  destruct (present (feed 0) loading_selector); cbn [is_timeout];
    unfold bind at 1; rewrite Hfirst;
    (destruct (nonempty first);
     [ destruct (scroll_loop_ends limit stable first 0 0 0 fuel)
         as (w' & result & H & Hw'); [lia | lia |];
       rewrite H; exists w', result; split; [reflexivity | lia]
     | exists 0, []; split; [reflexivity | lia] ]).
Qed.

End EndOfFeed.

(** X12: on a feed that stops changing after some scrolls and whose last
    page links its restaurants by plain https URLs ("https://", a letter or
    a digit, then letters, digits, "/", "-", "." and "_" only),
    [get_restaurant_urls] returns, with or without a limit, after at most
    that many scrolls and [max_scroll_attempts + 1] more: one pass that may
    still find something new and the passes that the counter allows. *)
Theorem stable_feed_ends (feed : nat -> Bs4.tag) (height : nat -> nat)
    (self : FoodpandaScraper) (stable : nat) (limit : option nat) (fuel : nat) :
  (forall w, stable <= w -> feed w = feed stable) ->
  plain_hrefs (feed stable) = true ->
  stable + (max_scroll_attempts + 1) <= fuel ->
  exists scrolls restaurant_urls,
    get_restaurant_urls (feed_driver feed height) self fuel limit 0
    = (scrolls, Ok restaurant_urls)
    /\ scrolls <= stable + (max_scroll_attempts + 1).
Proof.
  intros Hstable Hjoined Hfuel.
  destruct (get_restaurant_urls_ends feed height self stable Hstable
              (plain_hrefs_joined self _ Hjoined) limit fuel)
    as (w' & urls & H & Hw'); [lia |].
  exists w', urls. split; [exact H | lia].
Qed.

Lemma stable_feed_ends_witness :
  (forall w, 2 <= w -> growing_feed w = growing_feed 2)
  /\ plain_hrefs (growing_feed 2) = true
  /\ 2 + (max_scroll_attempts + 1) <= 23
  /\ get_restaurant_urls (feed_driver growing_feed (fun _ => 1080)) pk 23 None 0
     = (23, Ok [kfc_url; mcd_url])
  /\ exists scrolls restaurant_urls,
       get_restaurant_urls (feed_driver growing_feed (fun _ => 1080)) pk 23 None 0
       = (scrolls, Ok restaurant_urls)
       /\ scrolls <= 2 + (max_scroll_attempts + 1).
Proof.
  assert (Hstable : forall w, 2 <= w -> growing_feed w = growing_feed 2).
  { intros w Hw. unfold growing_feed.
    destruct (w <? 2) eqn:E; [apply Nat.ltb_lt in E; lia | reflexivity]. }
  split; [exact Hstable |].
  split; [vm_compute; reflexivity |].
  split; [unfold max_scroll_attempts; lia |].
  split; [vm_compute; reflexivity |].
  apply (stable_feed_ends growing_feed (fun _ => 1080) pk 2 None 23 Hstable).
  - vm_compute. reflexivity.
  - unfold max_scroll_attempts. lia.
Defined.

(** ** [scrape] *)

Section ScrapeRuns.
Context {W : Type}.
Variable driver : WebDriver W.
Variable self : FoodpandaScraper.

Lemma on_world_data {A : Type} (c : M W A) (st st' : scraper_state W) (o : outcome A) :
  on_world c st = (st', o) ->
  data st' = data st /\ saved st' = saved st /\ c (world st) = (world st', o).
Proof.
  unfold on_world. destruct (c (world st)) as [w' o'].
  intros H. injection H as <- <-. auto.
Qed.

(** A completed loop of [scrape] has appended one entry for every URL, in
    the order of the URLs: what [extract_restaurant_details] returned for
    the URL, with the URL set. *)
Lemma scrape_loop_appends (fuel : nat) (restaurant_urls : list string) :
  forall i total st st',
    scrape_loop driver fuel restaurant_urls i total st = (st', Ok tt) ->
    exists new,
      data st' = (data st ++ new)%list
      /\ Forall2
           (fun entry url =>
              exists w w' restaurant_data,
                extract_restaurant_details driver fuel url w = (w', Ok restaurant_data)
                /\ entry = set_url restaurant_data url)
           new restaurant_urls.
Proof.
  induction restaurant_urls as [| url rest IH]; intros i total st st' H;
    cbn [scrape_loop] in H.
  - unfold ret in H. injection H as <-. exists []. rewrite app_nil_r.
    split; [reflexivity | constructor].
  - apply bind_Ok in H. destruct H as (st1 & [] & H1 & H).
    apply bind_Ok in H. destruct H as (st2 & restaurant_data & H2 & H).
    apply bind_Ok in H. destruct H as (st3 & [] & H3 & H).
    apply bind_Ok in H. destruct H as (st4 & [] & H4 & H).
    apply IH in H. destruct H as (new & Hdata & Hnew).
    assert (E1 : data st1 = data st).
    { destruct (0 <? i).
      - apply on_world_data in H1. apply H1.
      - unfold ret in H1. injection H1 as <-. reflexivity. }
    apply on_world_data in H2. destruct H2 as (E2 & _ & H2).
    unfold append_data in H3. injection H3 as <-.
    assert (E4 : data st4 = (data st2 ++ [set_url restaurant_data url])%list).
    { destruct (((i + 1) mod 5 =? 0) || (i =? total - 1)).
      - unfold save in H4. injection H4 as <-. reflexivity.
      - unfold ret in H4. injection H4 as <-. reflexivity. }
    exists (set_url restaurant_data url :: new). split.
    + rewrite Hdata, E4, E2, E1, <- app_assoc. reflexivity.
    + constructor; [| exact Hnew]. eauto.
Qed.

Lemma scrape_loop_no_raise (fuel : nat) (restaurant_urls : list string) :
  forall i total st st' e,
    scrape_loop driver fuel restaurant_urls i total st <> (st', Raise e).
Proof.
  induction restaurant_urls as [| url rest IH]; intros i total st st' e;
    cbn [scrape_loop].
  - discriminate.
  - unfold bind.
    assert (H1 : exists st1,
               (if 0 <? i then on_world (time_sleep driver) else ret tt) st
               = (st1, Ok tt)).
    { destruct (0 <? i); eexists; reflexivity. }
    destruct H1 as [st1 ->].
    destruct (on_world (extract_restaurant_details driver fuel url) st1)
      as [st2 [restaurant_data | e' |]] eqn:H2.
    + unfold append_data.
      assert (H4 : forall st3 : scraper_state W, exists st4,
                 (if ((i + 1) mod 5 =? 0) || (i =? total - 1)
                  then save else ret tt) st3 = (st4, Ok tt)).
      { intros st3. destruct (((i + 1) mod 5 =? 0) || (i =? total - 1));
          eexists; reflexivity. }
      match goal with
      | |- context [(if ?b then save else ret tt) ?st3] =>
          destruct (H4 st3) as [st4 ->]
      end.
      apply IH.
    + apply on_world_data in H2. destruct H2 as (_ & _ & H2).
      exfalso. apply (extract_restaurant_details_no_raise _ _ _ _ _ _ H2).
    + discriminate.
Qed.

(** The [finally] of [scrape]: the files are written and the browser is
    closed, whatever closing does. *)
Lemma save_and_close (st : scraper_state W) :
  exists w',
    bind (save (W := W)) (fun _ => close driver) st
    = ({| world := w'; data := data st; saved := _save_data (data st) (saved st) |},
       Ok tt).
Proof.
  unfold bind, save, close, try_except, on_world, quit, call, ret. cbn [world data saved].
  destruct (do_quit driver (world st)) as [w' [[] | e]]; eexists; reflexivity.
Qed.

Lemma scrape_body_outcome (fuel : nat) (limit : option nat) (max_restaurants : option Z)
    (st : scraper_state W) :
  exists st1,
    let body :=
      try_except
        (restaurant_urls <- on_world (get_restaurant_urls driver self fuel limit) ;;
         let restaurant_urls := take_max max_restaurants restaurant_urls in
         scrape_loop driver fuel restaurant_urls 0 (length restaurant_urls) ;;
         fun st => (st, Ok (data st)))
        (fun _ st => (st, Ok (data st))) in
    body st = (st1, Ok (data st1)) \/ body st = (st1, OutOfFuel).
Proof.
  cbv zeta. unfold try_except.
  match goal with
  | |- exists st1, match ?c st with _ => _ end = _ \/ _ =>
      destruct (c st) as [st1 [result | e |]] eqn:H
  end.
  - exists st1. left.
    apply bind_Ok in H. destruct H as (st2 & urls & _ & H). cbv zeta in H.
    apply bind_Ok in H. destruct H as (st3 & [] & _ & H).
    injection H as <- <-. reflexivity.
  - exists st1. left. reflexivity.
  - exists st1. right. reflexivity.
Qed.

End ScrapeRuns.

(** X13: [scrape] never raises. When it returns, it returns [self.data],
    the JSON file holds that list, and the CSV file holds its rows when
    there is at least one. *)
Theorem scrape_returns_the_saved_data {W : Type} (driver : WebDriver W)
    (self : FoodpandaScraper) (fuel : nat) (limit : option nat) (max_restaurants : option Z)
    (st : scraper_state W) :
  (exists st',
      scrape driver self fuel limit max_restaurants st = (st', Ok (data st'))
      /\ foodpanda_data_json (saved st') = Some (data st')
      /\ (flatten (data st') [] <> [] ->
          foodpanda_data_csv (saved st') = Some (flatten (data st') [])))
  \/ (exists st', scrape driver self fuel limit max_restaurants st = (st', OutOfFuel)).
Proof.
  unfold scrape, try_finally.
  destruct (scrape_body_outcome driver self fuel limit max_restaurants st)
    as [st1 [H | H]]; cbv zeta in H; rewrite H.
  - left. destruct (save_and_close driver st1) as [w' Hfinally].
    rewrite Hfinally.
    exists {| world := w'; data := data st1;
              saved := _save_data (data st1) (saved st1) |}.
    split; [reflexivity |]. cbn [saved data].
    unfold _save_data.
    destruct (flatten (data st1) []) as [| row rows]; cbn [nonempty];
      split; try reflexivity.
    intros Hne. contradiction.
  - right. eexists. reflexivity.
Qed.

Lemma scrape_run {W : Type} (driver : WebDriver W)
    (self : FoodpandaScraper) (fuel : nat) (limit : option nat) (max_restaurants : option Z)
    (st st' : scraper_state W) (result : list scraped) :
  scrape driver self fuel limit max_restaurants st = (st', Ok result) ->
  exists w1 restaurant_urls new,
    get_restaurant_urls driver self fuel limit (world st) = (w1, Ok restaurant_urls)
    /\ result = (data st ++ new)%list
    /\ Forall2
         (fun entry url =>
            exists w w' restaurant_data,
              extract_restaurant_details driver fuel url w = (w', Ok restaurant_data)
              /\ entry = set_url restaurant_data url)
         new (take_max max_restaurants restaurant_urls).
Proof.
  unfold scrape, try_finally. intros H.
  match type of H with
  | match ?body st with _ => _ end = _ =>
      destruct (body st) as [st1 [r | e |]] eqn:Hbody
  end; try discriminate.
  - destruct (save_and_close driver st1) as [w' Hfinally].
    rewrite Hfinally in H. injection H as _ <-.
    apply try_except_Ok in Hbody. destruct Hbody as [Hbody | (st2 & e & Hraise & _)].
    + apply bind_Ok in Hbody. destruct Hbody as (st2 & urls & Hurls & Hbody).
      cbv zeta in Hbody.
      apply bind_Ok in Hbody. destruct Hbody as (st3 & [] & Hloop & Hbody).
      injection Hbody as <- <-.
      apply on_world_data in Hurls. destruct Hurls as (E & _ & Hurls).
      apply scrape_loop_appends in Hloop. destruct Hloop as (new & Hdata & Hnew).
      exists (world st2), urls, new. rewrite Hdata, E.
      split; [exact Hurls |]. split; [reflexivity | exact Hnew].
    + exfalso.
      unfold bind in Hraise.
      destruct (on_world (get_restaurant_urls driver self fuel limit) st)
        as [st3 [urls | e' |]] eqn:Hurls; try discriminate.
      * cbv zeta in Hraise.
        destruct (scrape_loop driver fuel (take_max max_restaurants urls) 0
                    (length (take_max max_restaurants urls)) st3)
          as [st4 [[] | e' |]] eqn:Hloop; try discriminate.
        eapply scrape_loop_no_raise. exact Hloop.
      * apply on_world_data in Hurls. destruct Hurls as (_ & _ & Hurls).
        apply (get_restaurant_urls_no_raise _ _ _ _ _ _ _ Hurls).
  - destruct (save_and_close driver st1) as [w' Hfinally].
    rewrite Hfinally in H. discriminate.
Qed.

(** X14: a run of [scrape] that returns has added to [self.data] one
    entry for every URL that [get_restaurant_urls] gave, cut as the slice
    [restaurant_urls[:max_restaurants]] cuts them: to the first
    [max_restaurants] when that is positive, by [-max_restaurants] off the
    end when it is negative, not at all when it is [None] or 0. The entries
    stand in the order of the URLs and each is what
    [extract_restaurant_details] returned for its URL, with the URL set,
    the entry of a page that failed too. *)
Theorem scrape_appends_one_entry_per_url {W : Type} (driver : WebDriver W)
    (self : FoodpandaScraper) (fuel : nat) (limit : option nat)
    (max_restaurants : option Z) (st st' : scraper_state W) (result : list scraped) :
  scrape driver self fuel limit max_restaurants st = (st', Ok result) ->
  exists w1 restaurant_urls new,
    get_restaurant_urls driver self fuel limit (world st) = (w1, Ok restaurant_urls)
    /\ result = (data st ++ new)%list
    /\ map url_of new
       = match max_restaurants with
         | Some (Zpos n) => firstn (Pos.to_nat n) restaurant_urls
         | Some (Zneg n) =>
             firstn (length restaurant_urls - Pos.to_nat n) restaurant_urls
         | Some Z0 => restaurant_urls
         | None => restaurant_urls
         end
    /\ Forall
         (fun entry =>
            exists w w' restaurant_data,
              extract_restaurant_details driver fuel (url_of entry) w
              = (w', Ok restaurant_data)
              /\ entry = set_url restaurant_data (url_of entry))
         new.
Proof.
  intros H. apply scrape_run in H.
  destruct H as (w1 & urls & new & Hurls & Hresult & Hnew).
  exists w1, urls, new.
  split; [exact Hurls |]. split; [exact Hresult |].
  assert (Hcut : match max_restaurants with
                 | Some (Zpos n) => firstn (Pos.to_nat n) urls
                 | Some (Zneg n) => firstn (length urls - Pos.to_nat n) urls
                 | Some Z0 => urls
                 | None => urls
                 end = take_max max_restaurants urls).
  { destruct max_restaurants as [[| n | n] |]; reflexivity. }
  rewrite Hcut. clear Hcut Hresult Hurls.
  induction Hnew as [| entry url new' urls' Hentry _ [IHurls IHnew]]; simpl.
  - split; [reflexivity | constructor].
  - destruct Hentry as (w & w' & d & Hd & ->).
    assert (Hurl : url_of (set_url d url) = url) by (destruct d; reflexivity).
    rewrite Hurl, IHurls. split; [reflexivity |].
    constructor; [| exact IHnew].
    rewrite Hurl. eauto.
Qed.

Lemma scrape_appends_one_entry_per_url_witness :
  exists st',
    scrape (static_driver portal_of_three) pk 1 (Some 3) (Some 2%Z) fresh_run
    = (st', Ok [Scraped kfc kfc_url; Scraped kfc mcd_url])
    /\ exists w1 restaurant_urls new,
         get_restaurant_urls (static_driver portal_of_three) pk 1 (Some 3)
           (world fresh_run)
         = (w1, Ok restaurant_urls)
         /\ [Scraped kfc kfc_url; Scraped kfc mcd_url] = (data fresh_run ++ new)%list
         /\ map url_of new = firstn 2 restaurant_urls
         /\ Forall
              (fun entry =>
                 exists w w' restaurant_data,
                   extract_restaurant_details (static_driver portal_of_three) 1
                     (url_of entry) w
                   = (w', Ok restaurant_data)
                   /\ entry = set_url restaurant_data (url_of entry))
              new.
Proof.
  eexists. split; [vm_compute; reflexivity |].
  eapply (scrape_appends_one_entry_per_url (static_driver portal_of_three) pk 1
            (Some 3) (Some 2%Z) fresh_run).
  vm_compute. reflexivity.
Defined.

(** Three URLs found, and [max_restaurants] at -1, 0 and 5. *)
Example scrape_cuts_as_a_slice :
  map url_of
    (data (fst (scrape (static_driver portal_of_three) pk 1 (Some 3) (Some (-1)%Z)
                  fresh_run)))
  = [kfc_url; mcd_url]
  /\ map url_of
       (data (fst (scrape (static_driver portal_of_three) pk 1 (Some 3) (Some 0%Z)
                     fresh_run)))
     = [kfc_url; mcd_url; mall_url]
  /\ map url_of
       (data (fst (scrape (static_driver portal_of_three) pk 1 (Some 3) (Some 5%Z)
                     fresh_run)))
     = [kfc_url; mcd_url; mall_url].
Proof. repeat split; vm_compute; reflexivity. Qed.

(** ** What [scrape] accumulates, item by item *)

Lemma categories_loop_built (P : MenuCategory.t -> Prop) :
  (forall category_name container menu_items,
      _get_menu_items container = Ok menu_items ->
      menu_items <> [] ->
      P {| MenuCategory.category := category_name;
           MenuCategory.items := menu_items |}) ->
  forall soup category_elements i menu menu',
    Forall P menu ->
    categories_loop soup category_elements i menu = Ok menu' ->
    Forall P menu'.
Proof.
  intros Hbuilt soup.
  induction category_elements as [| category_elem rest IH];
    intros i menu menu' Hmenu H.
  - simpl in H. injection H as <-. exact Hmenu.
  - simpl in H. destruct (Bs4.select_one soup div_menu) as [root |].
    + destruct (nth_error (Bs4.contents root) i) as [c |]; [| discriminate].
      destruct (_get_menu_items c) as [menu_items | |] eqn:Hitems;
        simpl in H; try discriminate.
      apply IH in H; [exact H |].
      destruct menu_items as [| item items]; simpl; [exact Hmenu |].
      apply Forall_app. split; [exact Hmenu |].
      constructor; [| constructor].
      apply (Hbuilt _ c _ Hitems). discriminate.
    + apply IH in H; assumption.
Qed.

Lemma _get_menu_built {W : Type} (driver : WebDriver W) (P : MenuCategory.t -> Prop) :
  (forall category_name container menu_items,
      _get_menu_items container = Ok menu_items ->
      menu_items <> [] ->
      P {| MenuCategory.category := category_name;
           MenuCategory.items := menu_items |}) ->
  forall fuel soup w w' menu,
    _get_menu driver fuel soup w = (w', Ok menu) -> Forall P menu.
Proof.
  intros Hbuilt fuel soup w w' menu H. unfold _get_menu in H.
  apply try_except_Ok in H. destruct H as [H | (w1 & e & _ & H)].
  - apply bind_Ok in H. destruct H as (w1 & snapshot & _ & H).
    unfold lift in H.
    destruct (category_selectors_loop snapshot category_selectors [])
      as [menu1 | e |] eqn:Hloop; try discriminate.
    injection H as _ <-.
    unfold category_selectors in Hloop. cbn [category_selectors_loop] in Hloop.
    destruct (categories_loop snapshot _ 0 []) as [menu2 | |] eqn:Hcats;
      simpl in Hloop; try discriminate.
    injection Hloop as <-.
    apply (categories_loop_built P Hbuilt _ _ _ _ _ (Forall_nil _) Hcats).
  - unfold ret in H. injection H as _ <-. constructor.
Qed.

Lemma extract_restaurant_details_well_formed {W : Type} (driver : WebDriver W)
    (fuel : nat) (url : string) (w w' : W) (restaurant_data : details) :
  extract_restaurant_details driver fuel url w = (w', Ok restaurant_data) ->
  well_formed_entry (set_url restaurant_data url).
Proof.
  intros H. destruct restaurant_data as [r | url' error]; simpl; [| exact I].
  apply extract_restaurant_details_menu in H.
  destruct H as (soup & w1 & w2 & H).
  apply (_get_menu_built driver _) with (fuel := fuel) (soup := soup) (w := w1) (w' := w2);
    [| exact H].
  intros category_name container menu_items Hitems Hne. simpl.
  split; [exact Hne |].
  apply (_get_menu_items_built well_formed_item) with (container := container);
    [| exact Hitems].
  intros item_elem name description price_text Hname.
  split; [exact Hname | apply price_of_digits].
Qed.

(** X15: with pages in ASCII, every restaurant that a run of [scrape]
    adds to [self.data] has a menu without empty category, whose items all
    have a name and a price of digits only, or no price. *)
Theorem scrape_accumulates_well_formed_entries {W : Type} (driver : WebDriver W)
    (self : FoodpandaScraper) (fuel : nat) (limit : option nat) (max_restaurants : option Z)
    (st st' : scraper_state W) (result : list scraped) :
  ascii_pages driver ->
  Forall well_formed_entry (data st) ->
  scrape driver self fuel limit max_restaurants st = (st', Ok result) ->
  Forall well_formed_entry result.
Proof.
  intros _ Hdata H. apply scrape_run in H.
  destruct H as (w1 & urls & new & _ & -> & Hnew).
  apply Forall_app. split; [exact Hdata |].
  clear Hdata. induction Hnew as [| entry url new' urls' Hentry _ IH];
    constructor; [| exact IH].
  destruct Hentry as (w & w' & d & Hd & ->).
  apply (extract_restaurant_details_well_formed driver fuel url w w' d Hd).
Qed.

Lemma scrape_accumulates_well_formed_entries_witness :
  ascii_pages (static_driver portal)
  /\ Forall well_formed_entry (data fresh_run)
  /\ exists st',
       scrape (static_driver portal) pk 1 (Some 1) (Some 1%Z) fresh_run
       = (st', Ok [Scraped kfc kfc_url])
       /\ Forall well_formed_entry [Scraped kfc kfc_url].
Proof.
  assert (Hpages : ascii_pages (static_driver portal)).
  { apply static_driver_ascii_pages. vm_compute. reflexivity. }
  split; [exact Hpages |].
  split; [constructor |].
  eexists. split; [vm_compute; reflexivity |].
  eapply (scrape_accumulates_well_formed_entries (static_driver portal) pk 1
            (Some 1) (Some 1%Z) fresh_run _ _ Hpages).
  - constructor.
  - vm_compute. reflexivity.
Defined.

(** ** Cuisines, image and state *)

Lemma add_cuisines_distinct (soup : Bs4.tag) (selector : Bs4.selector)
    (cuisine_elements : list Bs4.tag) :
  (forall elem, In elem cuisine_elements -> In elem (Bs4.select soup selector)) ->
  forall cuisines,
    let P := fun l =>
      NoDup l
      /\ Forall (fun cuisine =>
                   cuisine <> ""
                   /\ exists elem,
                        In elem (Bs4.select soup selector)
                        /\ cuisine = Bs4.get_text_strip elem) l in
    P cuisines -> P (add_cuisines cuisine_elements cuisines).
Proof.
  cbv zeta.
  induction cuisine_elements as [| elem rest IH]; intros Helems cuisines [Hnd Hall];
    simpl; [split; assumption |].
  apply IH; [intros e He; apply Helems; right; exact He |].
  destruct (Str.truthy (Bs4.get_text_strip elem)) eqn:Htruthy; [| split; assumption].
  destruct (Str.mem (Bs4.get_text_strip elem) cuisines) eqn:Hmem; simpl;
    [split; assumption |].
  split.
  - apply NoDup_snoc; [exact Hnd |].
    intros Hin. apply mem_In in Hin. congruence.
  - apply Forall_app. split; [exact Hall |].
    constructor; [| constructor]. split.
    + intros Hempty. rewrite Hempty in Htruthy. discriminate.
    + exists elem. split; [apply Helems; left; reflexivity | reflexivity].
Qed.

(** X16: on a page in ASCII, the cuisines that [_get_cuisines] returns are
    distinct and not empty, and each is the stripped text of a [span] of
    the list of characteristics of the page. *)
Theorem cuisines_are_distinct (soup : Bs4.tag) :
  ascii_tag soup = true ->
  exists cuisines,
    _get_cuisines soup = Ok cuisines
    /\ NoDup cuisines
    /\ Forall (fun cuisine =>
                 cuisine <> ""
                 /\ exists elem,
                      In elem
                        (Bs4.select soup
                           [[Bs4.el_class "ul" "main-info__characteristics";
                             Bs4.el "span"]])
                      /\ cuisine = Bs4.get_text_strip elem)
         cuisines.
Proof.
  intros _.
  unfold _get_cuisines, cuisine_selectors. cbn [fold_left otry].
  eexists. split; [reflexivity |].
  apply (add_cuisines_distinct soup
           [[Bs4.el_class "ul" "main-info__characteristics"; Bs4.el "span"]]).
  - auto.
  - split; constructor.
Qed.

Lemma cuisines_are_distinct_witness :
  ascii_tag restaurant_page = true
  /\ _get_cuisines restaurant_page = Ok ["Fast Food"; "Burgers"]
  /\ exists cuisines,
       _get_cuisines restaurant_page = Ok cuisines
       /\ NoDup cuisines
       /\ Forall (fun cuisine =>
                    cuisine <> ""
                    /\ exists elem,
                         In elem
                           (Bs4.select restaurant_page
                              [[Bs4.el_class "ul" "main-info__characteristics";
                                Bs4.el "span"]])
                         /\ cuisine = Bs4.get_text_strip elem)
            cuisines.
Proof.
  split; [vm_compute; reflexivity |].
  split; [vm_compute; reflexivity |].
  apply (cuisines_are_distinct restaurant_page). vm_compute. reflexivity.
Defined.

Lemma select_one_In (soup : Bs4.tag) (selector : Bs4.selector) (t : Bs4.tag) :
  Bs4.select_one soup selector = Some t ->
  In t (Bs4.descendants soup) /\ Bs4.matches selector t = true.
Proof.
  unfold Bs4.select_one, Bs4.select. intros H.
  assert (Hin : In t (filter (Bs4.matches selector) (Bs4.descendants soup))).
  { destruct (filter _ _) as [| t' l]; [discriminate |].
    injection H as ->. left. reflexivity. }
  apply filter_In in Hin. exact Hin.
Qed.

Lemma src_of_img (soup : Bs4.tag) (a : Bs4.attr_sel) (src : string) :
  src_of soup [[Bs4.el_attr "img" a]] = Some src ->
  src <> ""
  /\ exists img,
       In img (Bs4.descendants soup)
       /\ Bs4.name img = "img" /\ Bs4.get img "src" = Some src.
Proof.
  unfold src_of. intros H.
  destruct (Bs4.select_one soup _) as [img |] eqn:Himg; [| discriminate].
  apply select_one_In in Himg. destruct Himg as [Hin Hm].
  unfold Bs4.get_truthy in H.
  destruct (Bs4.get img "src") as [v |] eqn:Hsrc; [| discriminate].
  destruct (Str.truthy v) eqn:Htruthy; [| discriminate].
  injection H as ->. split.
  - intros Hempty. rewrite Hempty in Htruthy. discriminate.
  - exists img. split; [exact Hin |]. split; [| exact Hsrc].
    unfold Bs4.matches in Hm. cbn [existsb] in Hm. rewrite orb_false_r in Hm.
    unfold Bs4.matches_complex in Hm. cbn [rev app] in Hm.
    apply andb_prop in Hm. destruct Hm as [Hm _].
    unfold Bs4.matches_compound in Hm. cbn [Bs4.el_attr Bs4.sel_name] in Hm.
    apply andb_prop in Hm. destruct Hm as [Hm _].
    apply String.eqb_eq in Hm. symmetry. exact Hm.
Qed.

(** X17: the image that [_get_image] returns is the [src], not empty, of
    an [img] tag of the page, or it is empty; it is the [src] of the first
    [img] of class [vendor-logo__image] when that one has a [src] which is
    not empty. *)
Theorem image_is_src_of_img (soup : Bs4.tag) :
  exists image,
    _get_image soup = Ok image
    /\ (image = ""
        \/ exists img,
             In img (Bs4.descendants soup)
             /\ Bs4.name img = "img" /\ Bs4.get img "src" = Some image)
    /\ (forall hero_img src,
          Bs4.select_one soup [[Bs4.el_class "img" "vendor-logo__image"]] = Some hero_img ->
          Bs4.get hero_img "src" = Some src ->
          src <> "" ->
          image = src).
Proof.
  unfold _get_image.
  destruct (src_of soup [[Bs4.el_class "img" "vendor-logo__image"]])
    as [src1 |] eqn:H1.
  - exists src1. split; [reflexivity |]. split.
    + right. apply (src_of_img soup _ src1 H1).
    + intros hero src Hhero Hsrc Hne. unfold src_of in H1. rewrite Hhero in H1.
      unfold Bs4.get_truthy in H1. rewrite Hsrc in H1.
      destruct (Str.truthy src); [injection H1 as <-; reflexivity | discriminate].
  - assert (Hhero : forall (image : string) hero src,
               Bs4.select_one soup [[Bs4.el_class "img" "vendor-logo__image"]]
               = Some hero ->
               Bs4.get hero "src" = Some src -> src <> "" -> image = src).
    { intros image hero src Hhero Hsrc Hne. exfalso.
      unfold src_of in H1. rewrite Hhero in H1.
      unfold Bs4.get_truthy in H1. rewrite Hsrc in H1.
      destruct src; [contradiction | discriminate]. }
    destruct (src_of soup [[Bs4.el_attr "img" (Bs4.AttrEq "data-testid" "restaurant-header-image")]])
      as [src2 |] eqn:H2.
    + exists src2. split; [reflexivity |]. split; [| apply Hhero].
      right. apply (src_of_img soup _ src2 H2).
    + destruct (src_of soup [[Bs4.el_class "img" "restaurant-image"]])
        as [src3 |] eqn:H3.
      * exists src3. split; [reflexivity |]. split; [| apply Hhero].
        right. apply (src_of_img soup _ src3 H3).
      * exists "". split; [reflexivity |]. split; [left; reflexivity | apply Hhero].
Qed.

(** X18: the state that [_get_state] returns is the content of the [meta]
    tag [og:region] of the page, read without a call on the browser, or it
    is empty: the address that it then fetches, scrolling and clicking as
    [_get_address] does, is not used. *)
Theorem state_is_never_read_off_the_address {W : Type} (driver : WebDriver W)
    (soup : Bs4.tag) (w : W) :
  (exists meta_region content,
      Bs4.select_one soup (meta_property "og:region") = Some meta_region
      /\ Bs4.get meta_region "content" = Some content
      /\ content <> ""
      /\ _get_state driver soup w = (w, Ok content))
  \/ (exists w' address,
         _get_address driver soup w = (w', Ok address)
         /\ _get_state driver soup w = (w', Ok "")).
Proof.
  assert (Haddress : exists w' address,
             _get_address driver soup w = (w', Ok address)
             /\ try_except (_get_address driver soup ;; ret "") (fun _ => ret "") w
                = (w', Ok "")).
  { destruct (_get_address_returns driver soup w) as (w' & address & H).
    exists w', address. split; [exact H |].
    unfold try_except, bind. rewrite H. reflexivity. }
  unfold _get_state.
  destruct (Bs4.select_one soup (meta_property "og:region")) as [meta |] eqn:Hmeta;
    [| right; exact Haddress].
  unfold Bs4.get_truthy.
  destruct (Bs4.get meta "content") as [content |] eqn:Hcontent;
    [| right; exact Haddress].
  destruct (Str.truthy content) eqn:Htruthy; [| right; exact Haddress].
  left. exists meta, content. split; [reflexivity |]. split; [exact Hcontent |].
  split; [| reflexivity].
  intros Hempty. rewrite Hempty in Htruthy. discriminate.
Qed.

(** ** The label of a category *)

Lemma sub_from_copy (r : Re.regex) (skipped : list ascii) :
  forall fuel bef l,
    length skipped <= fuel ->
    (forall s1 c s2,
        skipped = (s1 ++ c :: s2)%list ->
        Re.match_at r {| Re.before := (rev s1 ++ bef)%list;
                         Re.rest := (c :: s2 ++ l)%list |} = None) ->
    Re.sub_from fuel r bef (skipped ++ l)
    = (skipped ++ Re.sub_from (fuel - length skipped) r (rev skipped ++ bef) l)%list.
Proof.
  induction skipped as [| c skipped IH]; intros fuel bef l Hfuel H.
  - simpl. rewrite Nat.sub_0_r. reflexivity.
  - destruct fuel as [| fuel]; [simpl in Hfuel; lia |].
    pose proof (H [] c skipped eq_refl) as H0. simpl in H0.
    cbn [Re.sub_from app]. rewrite H0. rewrite IH.
    + simpl. rewrite <- app_assoc. reflexivity.
    + simpl in Hfuel. lia.
    + intros s1 c' s2 ->. specialize (H (c :: s1) c' s2 eq_refl).
      simpl in H. rewrite <- app_assoc in H. exact H.
Qed.

Lemma count_suffix_no_match (c : ascii) (bef tl : list ascii) :
  Ascii.eqb c "(" = false ->
  Re.match_at count_suffix_pattern {| Re.before := bef; Re.rest := c :: tl |} = None.
Proof.
  intros Hc. unfold Re.match_at, count_suffix_pattern. cbn [Re.seq Re.m].
  apply m_chr_other. rewrite Ascii.eqb_sym. exact Hc.
Qed.

(** [re.sub(r'\(\d+\)$', '', text)] takes a count in parentheses off the
    end of a text that has no other parenthesis. *)
Lemma sub_count_suffix (label digits : string) :
  no_paren label = true ->
  digits_only digits = true ->
  Re.sub_empty count_suffix_pattern (label ++ "(" ++ digits ++ ")") = label.
Proof.
  unfold no_paren, digits_only. intros Hlabel Hdigits.
  apply andb_prop in Hdigits. destruct Hdigits as [Hne Hdigits].
  unfold Re.sub_empty. rewrite !list_ascii_of_string_app.
  change (list_ascii_of_string "(") with ["("%char].
  change (list_ascii_of_string ")") with [")"%char].
  set (u := list_ascii_of_string label) in *.
  set (d := list_ascii_of_string digits) in *.
  rewrite sub_from_copy.
  - assert (Hm : exists mo,
               Re.match_at count_suffix_pattern
                 {| Re.before := (rev u ++ [])%list;
                    Re.rest := (["("%char] ++ d ++ [")"%char])%list |} = Some mo
               /\ Re.rest (Re.after mo) = []).
    { eexists. split.
      - unfold Re.match_at, count_suffix_pattern. cbn [Re.seq Re.m app].
        rewrite m_chr.
        unfold Re.plus, Re.digit. cbn [Re.m Re.rest].
        apply (greedy_class_loop Str.isdigit (Re.m (Re.Class Str.isdigit)));
          [apply class_step_m | reflexivity | rewrite length_app; simpl; lia
          | | exact Hdigits |].
        + destruct digits; [discriminate | subst d; simpl; lia].
        + rewrite m_chr. cbn [Re.m Re.rest]. reflexivity.
      - reflexivity. }
    destruct Hm as (mo & Hm & Hafter).
    remember (S (length (u ++ ["("%char] ++ d ++ [")"%char])) - length u) as fuel
      eqn:Hfuel.
    assert (Hfuel' : 2 <= fuel) by (rewrite Hfuel, !length_app; cbn [length]; lia).
    clear Hfuel. destruct fuel as [| [| fuel]]; [lia | lia |].
    cbn [Re.sub_from]. rewrite Hm, Hafter. cbn [length app Nat.ltb Nat.leb].
    cbn [Re.sub_from].
    destruct (Re.match_at count_suffix_pattern _) as [mo' |].
    + rewrite app_nil_r. unfold u. apply string_of_list_ascii_of_string.
    + rewrite app_nil_r. unfold u. apply string_of_list_ascii_of_string.
  - rewrite !length_app. simpl. lia.
  - intros s1 c s2 Hu. apply count_suffix_no_match.
    rewrite Hu, forallb_app in Hlabel. apply andb_prop in Hlabel.
    destruct Hlabel as [_ Hc]. simpl in Hc. apply andb_prop in Hc.
    destruct Hc as [Hc _]. apply negb_true_iff. exact Hc.
Qed.

(** X19: a category tab in ASCII whose text ends with a count of items in
    parentheses, as "Deals (12)", gives the label without the count and
    without the space before it. *)
Theorem category_name_drops_count (category_elem : Bs4.tag) (label digits : string) :
  ascii_tag category_elem = true ->
  Bs4.get_text_strip category_elem = label ++ "(" ++ digits ++ ")" ->
  no_paren label = true ->
  digits_only digits = true ->
  category_name_of category_elem = Str.strip label.
Proof.
  intros _ Htext Hlabel Hdigits. unfold category_name_of.
  rewrite Htext, (sub_count_suffix label digits Hlabel Hdigits). reflexivity.
Qed.

Lemma category_name_drops_count_witness :
  ascii_tag deals_tab = true
  /\ Bs4.get_text_strip deals_tab = "Deals " ++ "(" ++ "12" ++ ")"
  /\ no_paren "Deals " = true
  /\ digits_only "12" = true
  /\ category_name_of deals_tab = "Deals".
Proof.
  split; [reflexivity |].
  split; [reflexivity |]. split; [reflexivity |]. split; [reflexivity |].
  apply (category_name_drops_count deals_tab "Deals " "12"); reflexivity.
Defined.

(** ** Phone numbers *)

Lemma steps_within (A : ascii -> bool) (r : Re.regex) :
  within A r ->
  forall p p',
    steps r p p' ->
    exists u, reaches p u p' /\ forallb A u = true /\ min_length r <= length u.
Proof.
  induction r as [| f | r1 IH1 r2 IH2 | greedy lo hi r1 IH1 | r1 IH1 | |];
    intros Hwithin p p' H; simpl in H.
  - subst p'. exists []. split; [apply reaches_refl | split; [reflexivity | simpl; lia]].
  - destruct H as (c & tl & Hrest & Hc & ->). exists [c].
    split; [split; [exact Hrest | reflexivity] |].
    simpl. rewrite (Hwithin c Hc). split; [reflexivity | lia].
  - destruct Hwithin as [Hw1 Hw2]. destruct H as (p1 & H1 & H2).
    destruct (IH1 Hw1 _ _ H1) as (u & Hu & Hfu & Hlu).
    destruct (IH2 Hw2 _ _ H2) as (v & Hv & Hfv & Hlv).
    exists (u ++ v)%list. split; [apply (reaches_trans _ _ _ _ _ Hu Hv) |].
    rewrite forallb_app, Hfu, Hfv, length_app. split; [reflexivity | simpl; lia].
  - simpl in Hwithin. destruct H as (n & Hlo & _ & Hiter).
    assert (Hn : exists u,
               reaches p u p' /\ forallb A u = true
               /\ n * min_length r1 <= length u).
    { clear Hlo. revert p Hiter.
      induction n as [| n IHn]; intros p Hiter; simpl in Hiter.
      - subst p'. exists []. split; [apply reaches_refl | split; [reflexivity | simpl; lia]].
      - destruct Hiter as (p1 & H1 & Hiter).
        destruct (IH1 Hwithin _ _ H1) as (u & Hu & Hfu & Hlu).
        destruct (IHn _ Hiter) as (v & Hv & Hfv & Hlv).
        exists (u ++ v)%list. split; [apply (reaches_trans _ _ _ _ _ Hu Hv) |].
        rewrite forallb_app, Hfu, Hfv, length_app. split; [reflexivity | simpl; lia]. }
    destruct Hn as (u & Hu & Hfu & Hlu).
    exists u. split; [exact Hu |]. split; [exact Hfu |].
    simpl. nia.
  - apply IH1; assumption.
  - destruct H as [_ ->]. exists [].
    split; [apply reaches_refl | split; [reflexivity | simpl; lia]].
  - destruct H as [_ ->]. exists [].
    split; [apply reaches_refl | split; [reflexivity | simpl; lia]].
Qed.

Lemma phone_pattern_within : within phone_char phone_pattern.
Proof.
  assert (Hdigit : forall c, Str.isdigit c = true -> phone_char c = true).
  { intros c Hc. unfold phone_char. rewrite Hc. reflexivity. }
  assert (Hchr : forall c0 c, Re.one_of "+()-" c0 = true ->
                              Ascii.eqb c0 c = true -> phone_char c = true).
  { intros c0 c H0 Hc. apply Ascii.eqb_eq in Hc. subst c.
    unfold phone_char. rewrite H0, orb_true_r. reflexivity. }
  assert (Hsep : forall c, (Ascii.eqb c "-" || Str.isspace c)%bool = true ->
                           phone_char c = true).
  { intros c Hc. apply orb_prop in Hc. destruct Hc as [Hc | Hc].
    - apply Ascii.eqb_eq in Hc. subst c. reflexivity.
    - unfold phone_char. rewrite Hc. apply orb_true_r. }
  unfold phone_pattern. cbn [Re.seq within Re.opt Re.times Re.chr Re.digit dash_or_space].
  repeat split; intros c Hc;
    first [ apply Hdigit; exact Hc
          | apply Hsep; exact Hc
          | apply (fun H0 => Hchr _ c H0 Hc); reflexivity ].
Qed.

(** What [re.search] returns for the pattern of [_get_phone]: at least
    ten characters of the text, digits, "+", "(", ")", "-" and spaces
    only. *)
Lemma phone_pattern_match (page_text : string) (mo : Re.match_object) :
  Re.search phone_pattern page_text = Some mo ->
  forallb phone_char (list_ascii_of_string (Re.group0 mo)) = true
  /\ 10 <= String.length (Re.group0 mo)
  /\ exists pre post, page_text = pre ++ Re.group0 mo ++ post.
Proof.
  intros H. apply search_sound in H. destruct H as (pre & post & Htext & Hs & Hg).
  apply (steps_within phone_char _ phone_pattern_within) in Hs.
  destruct Hs as (u & Hu & Hf & Hlen).
  pose proof (reaches_inj _ _ _ _ Hg Hu) as Heq.
  rewrite <- length_list_ascii_of_string, Heq.
  split; [exact Hf |]. split; [exact Hlen |]. exists pre, post. exact Htext.
Qed.

(** X20: on a page in ASCII, the phone number that [_get_phone] returns is
    a part of the text of the page that reads as one: at least ten
    characters, digits, "+", "(", ")", "-" and spaces only; when the text
    has none it is what the first link on "tel:" points to, without "tel:",
    or it is empty. *)
Theorem phone_shape (soup : Bs4.tag) :
  ascii_tag soup = true ->
  exists phone,
    _get_phone soup = Ok phone
    /\ ((forallb phone_char (list_ascii_of_string phone) = true
         /\ 10 <= String.length phone
         /\ exists pre post, Bs4.get_text soup = pre ++ phone ++ post)
        \/ (Re.search phone_pattern (Bs4.get_text soup) = None
            /\ phone = link_target soup "tel:")).
Proof.
  intros _. unfold _get_phone. cbv zeta.
  destruct (Re.search phone_pattern (Bs4.get_text soup)) as [mo |] eqn:Hsearch.
  - exists (Re.group0 mo). split; [reflexivity |]. left.
    apply (phone_pattern_match _ _ Hsearch).
  - exists (link_target soup "tel:"). split; [reflexivity |]. right.
    split; reflexivity.
Qed.

Lemma phone_shape_witness :
  ascii_tag restaurant_page = true
  /\ _get_phone restaurant_page = Ok "042 111 2222"
  /\ exists phone,
       _get_phone restaurant_page = Ok phone
       /\ ((forallb phone_char (list_ascii_of_string phone) = true
            /\ 10 <= String.length phone
            /\ exists pre post,
                 Bs4.get_text restaurant_page = pre ++ phone ++ post)
           \/ (Re.search phone_pattern (Bs4.get_text restaurant_page) = None
               /\ phone = link_target restaurant_page "tel:")).
Proof.
  split; [vm_compute; reflexivity |].
  split; [vm_compute; reflexivity |].
  apply (phone_shape restaurant_page). vm_compute. reflexivity.
Defined.

(** ** The address *)

Lemma first_address_cases (page : Bs4.tag) :
  first_address page address_selectors = ""
  \/ exists address_elem,
       Bs4.select_one page
         [[Bs4.el_attr "div" (Bs4.AttrEq "data-testid" "vendor-info-modal-vendor-address");
           Bs4.el "h1"]] = Some address_elem
       /\ first_address page address_selectors = Bs4.get_text_strip address_elem.
Proof.
  unfold address_selectors. cbn [first_address].
  destruct (Bs4.select_one page _) as [address_elem |]; [right | left; reflexivity].
  exists address_elem. split; reflexivity.
Qed.


